(** * The resource builder of cli-runtime and its Result

    A shallow embedding of
    - staging/src/k8s.io/cli-runtime/pkg/resource/builder.go
      (Builder, splitResourceTypeName, mappingFor, resourceMappings,
      resourceTupleMappings, visitorResult, the visitBy... strategies, Do,
      cachingCategoryExpanderFunc), and
    - the Result type (Visit, Infos, Object, toV1List),
    with the properties the specification states about them. *)

From Stdlib Require Import ZArith Ascii String List.
From stdpp Require Import base option list strings gmap sets.
Import ListNotations.
Local Open Scope string_scope.
Local Open Scope list_scope.

Set Warnings "-register-all,-clear-no-such-hyp".
Set Default Proof Using "Type".

(** ** Errors

    Go's [error] interface.  [nil] is [None] of [option error]; a value of
    type [error] below is always a non-nil error. *)

Inductive error : Type :=
  | Errorf (format : string) (args : list string)
      (** [fmt.Errorf(format, args...)] and [errors.New(format)] *)
  | NoKindMatchError (kind : string)          (** [*meta.NoKindMatchError] *)
  | NoResourceMatchError (resource : string)  (** [*meta.NoResourceMatchError] *)
  | OtherError (msg : string)
      (** any other error value handed back by a collaborator
          (discovery, transport, decoding) *)
  | Aggregate (errs : list error).            (** [utilerrors.Aggregate] *)

(** A Go result pair [(T, error)] in which exactly one side is set. *)
Inductive result (A : Type) : Type :=
  | Ok (a : A)
  | Err (e : error).
Arguments Ok {A} a.
Arguments Err {A} e.

(** [meta.IsNoMatchError] *)
Definition IsNoMatchError (e : error) : bool :=
  match e with
  | NoKindMatchError _ | NoResourceMatchError _ => true
  | _ => false
  end.

(** [utilerrors.NewAggregate]: [nil] for an empty list. *)
Definition NewAggregate (errlist : list error) : option error :=
  match errlist with
  | [] => None
  | _ => Some (Aggregate errlist)
  end.

(** ** Strings (package [strings], for a one-byte separator) *)

Module strings.

Fixpoint Contains (s : string) (sep : ascii) : bool :=
  match s with
  | EmptyString => false
  | String c s' => if Ascii.eqb c sep then true else Contains s' sep
  end.

(** [strings.Split(s, sep)]: the pieces between the separators; a string
    without separator gives one piece. *)
Fixpoint Split (s : string) (sep : ascii) : list string :=
  match s with
  | EmptyString => [EmptyString]
  | String c s' =>
      if Ascii.eqb c sep then EmptyString :: Split s' sep
      else match Split s' sep with
           | [] => [String c EmptyString]
           | piece :: rest => String c piece :: rest
           end
  end.

(** [strings.Count(s, sep)] *)
Fixpoint Count (s : string) (sep : ascii) : nat :=
  match s with
  | EmptyString => 0
  | String c s' => (if Ascii.eqb c sep then 1 else 0) + Count s' sep
  end.

End strings.

Definition slash : ascii := "/"%char.
Definition comma : ascii := ","%char.

(** ** builder.go: argument parsing *)

Record resourceTuple : Type := mkTuple {
  Resource : string;
  Name : string;
}.

(** SplitResourceArgument splits the argument with commas and returns unique
    strings in the original order. *)
Definition SplitResourceArgument (arg : string) : list string :=
  snd (foldl (fun (acc : gset string * list string) (s : string) =>
                let '(set, out) := acc in
                if bool_decide (s ∈ set) then (set, out)
                else ({[ s ]} ∪ set, out ++ [s]))
             (∅, []) (strings.Split arg comma)).

(** splitResourceTypeName handles type/name resource formats and returns a
    resource tuple (empty or not), whether it successfully found one, and an
    error. *)
Definition splitResourceTypeName (s : string)
  : resourceTuple * bool * option error :=
  if negb (strings.Contains s slash) then (mkTuple "" "", false, None)
  else
    match strings.Split s slash with
    | [resource; name] =>
        if (String.length resource =? 0)%nat || (String.length name =? 0)%nat
           || negb (length (SplitResourceArgument resource) =? 1)%nat
        then (mkTuple "" "", false,
              Some (Errorf "arguments in resource/name form must have a single resource and name" []))
        else (mkTuple resource name, true, None)
    | _ => (mkTuple "" "", false,
            Some (Errorf "arguments in resource/name form may not have more than one slash" []))
    end.

(** The two errors of splitResourceTypeName. *)
Definition moreThanOneSlashError : error :=
  Errorf "arguments in resource/name form may not have more than one slash" [].
Definition singleResourceAndNameError : error :=
  Errorf "arguments in resource/name form must have a single resource and name" [].

(** ** Package [schema] of apimachinery: the coordinates of a type *)

Record GroupVersionKind : Type := GVK {
  gvk_Group : string; gvk_Version : string; gvk_Kind : string }.
Record GroupVersionResource : Type := GVR {
  gvr_Group : string; gvr_Version : string; gvr_Resource : string }.
Record GroupKind : Type := GK { gk_Group : string; gk_Kind : string }.
Record GroupResource : Type := GR { gr_Group : string; gr_Resource : string }.
Record GroupVersion : Type := GV { gv_Group : string; gv_Version : string }.

#[global] Instance GroupVersionKind_eq_dec : EqDecision GroupVersionKind.
Proof. solve_decision. Defined.
#[global] Instance GroupVersionResource_eq_dec : EqDecision GroupVersionResource.
Proof. solve_decision. Defined.

#[global] Instance GroupVersionKind_countable : Countable GroupVersionKind.
Proof.
  refine (inj_countable' (fun x => (gvk_Group x, gvk_Version x, gvk_Kind x))
                         (fun t => GVK t.1.1 t.1.2 t.2) _).
  intros []; reflexivity.
Defined.
#[global] Instance GroupVersionResource_countable : Countable GroupVersionResource.
Proof.
  refine (inj_countable' (fun x => (gvr_Group x, gvr_Version x, gvr_Resource x))
                         (fun t => GVR t.1.1 t.1.2 t.2) _).
  intros []; reflexivity.
Defined.

Definition strEmpty (s : string) : bool := (String.length s =? 0)%nat.

Definition is_Some_b {A} (o : option A) : bool :=
  match o with Some _ => true | None => false end.

(** [gvk.Empty()] *)
Definition GVK_Empty (gvk : GroupVersionKind) : bool :=
  strEmpty (gvk_Group gvk) && strEmpty (gvk_Version gvk) && strEmpty (gvk_Kind gvk).
(** [gvk.GroupKind()], [gvk.GroupVersion()] *)
Definition GVK_GroupKind (gvk : GroupVersionKind) : GroupKind :=
  GK (gvk_Group gvk) (gvk_Kind gvk).
Definition GVK_GroupVersion (gvk : GroupVersionKind) : GroupVersion :=
  GV (gvk_Group gvk) (gvk_Version gvk).
(** [gr.WithVersion(v)], [gk.WithVersion(v)] *)
Definition GR_WithVersion (gr : GroupResource) (v : string) : GroupVersionResource :=
  GVR (gr_Group gr) v (gr_Resource gr).
Definition GK_WithVersion (gk : GroupKind) (v : string) : GroupVersionKind :=
  GVK (gk_Group gk) v (gk_Kind gk).
(** [gv.String()] *)
Definition GV_String (gv : GroupVersion) : string :=
  if negb (strEmpty (gv_Group gv))
  then (gv_Group gv ++ "/" ++ gv_Version gv)%string
  else gv_Version gv.

(** ** Package [meta] of apimachinery: mappings and the REST mapper *)

Definition RESTScopeNameNamespace : string := "namespace".
Definition RESTScopeNameRoot : string := "root".

Record RESTMapping : Type := mkRESTMapping {
  Mapping_Resource : GroupVersionResource;
  Mapping_GroupVersionKind : GroupVersionKind;
  Mapping_Scope_Name : string;    (** [mapping.Scope.Name()] *)
}.

(** The two methods of [meta.RESTMapper] that the builder calls.  KindFor
    keeps both components of its Go result, because mappingFor reads the
    kind and drops the error. *)
Record RESTMapper : Type := mkRESTMapper {
  KindFor : GroupVersionResource -> GroupVersionKind * option error;
  RESTMapping_ : GroupKind -> string -> result RESTMapping;
}.

(** A Go call that may panic (nil dereference, index out of range). *)
Inductive outcome (A : Type) : Type :=
  | Returns (a : A)
  | Panics.
Arguments Returns {A} a.
Arguments Panics {A}.

(** runtime.Object: the decoded objects are opaque to the builder, except
    that Result.Object wraps them into a [v1.List]. *)
Inductive Object : Type :=
  | Decoded (body : string)
  | v1_List (ResourceVersion : string) (Items : list Object).

(** ErrMatchFunc / utilerrors.Matcher *)
Definition Matcher : Type := error -> bool.

(** What the builder takes from the rest of cli-runtime, client-go and
    apimachinery without looking inside. *)
Class Collaborators : Type := {
  RESTClient : Type;
  RequestTransform : Type;
  NegotiatedSerializer : Type;
  ClientConfigFunc : Type;
  ObjectTyper : Type;
  mapper : Type;                  (** the [mapper] struct of mapper.go *)
  Selector_ : Type;               (** [labels.Selector] *)
  ParseResourceArg : string -> option GroupVersionResource * GroupResource;
  ParseKindArg : string -> option GroupVersionKind * GroupKind;
  labels_Parse : string -> result Selector_;
  labels_Everything_String : string;   (** [labels.Everything().String()] *)
  withStdinUnavailable : ClientConfigFunc -> bool -> ClientConfigFunc;
  clientForGroupVersion :
    ClientConfigFunc -> GroupVersion -> NegotiatedSerializer -> result RESTClient;
  unstructuredClientForGroupVersion :
    ClientConfigFunc -> GroupVersion -> result RESTClient;
  NewClientWithOptions : RESTClient -> list RequestTransform -> RESTClient;
  Sprint_mappings : gmap string RESTMapping -> string;  (** [%v] of the table *)
  Sprint_error : error -> string;                       (** [%v] of an error *)
  IsListType : Object -> bool;    (** [meta.IsListType] *)
  FilterOut : option error -> list Matcher -> option error;
                                  (** [utilerrors.FilterOut] *)
}.

(** * Definitions *)

Section Embedding.
Context `{Collaborators}.

(** Info: the per-object handle (visitor.go); the builder fills Client,
    Mapping, Namespace, Name and Subresource, a visit fills the rest. *)
Record Info : Type := mkInfo {
  Info_Client : option RESTClient;
  Info_Mapping : option RESTMapping;
  Info_Namespace : string;
  Info_Name : string;
  Info_Subresource : string;
  Info_Object : option Object;
  Info_ResourceVersion : string;
}.

(** The [VisitorFunc] values of visitor.go that the builder installs. *)
Inductive Decorator : Type :=
  | SetNamespace (namespace : string)
  | RequireNamespace (namespace : string)
  | FilterNamespace
  | RetrieveLazy
  | RetrieveLatest.

Inductive FilterFunc : Type :=
  | FilterByLabelSelector (s : Selector_).

(** The implementations of the [Visitor] interface that the builder puts
    together, as the values it builds: a slice conversion
    ([VisitorList(vs)]), a struct literal or a constructor call of
    visitor.go and selector.go. *)
Inductive Visitor : Type :=
  | nilVisitor                                   (** the nil interface value *)
  | InfoVisitor (i : Info)                       (** [*Info] *)
  | FileVisitor (path : string)
  | StreamVisitor (source : string)
  | URLVisitor (url : string)
  | Selector (client : RESTClient) (mapping : RESTMapping)
             (namespace labelSelector fieldSelector : string) (limitChunks : Z)
  | VisitorList (visitors : list Visitor)
  | EagerVisitorList (visitors : list Visitor)
  | ConcurrentVisitorList (visitors : list Visitor) (concurrency : Z)
  | FlattenListVisitor (v : Visitor) (typer : option ObjectTyper) (m : option mapper)
  | DecoratedVisitor (v : Visitor) (decorators : list Decorator)
  | FilteredVisitor (v : Visitor) (filters : list FilterFunc)
  | ContinueOnErrorVisitor (v : Visitor).

(** Modelled from the spec: the constructors of visitor.go and selector.go,
    which are not among the sources.  Each builds its combinator around the
    child it is given, with the hooks or filters in the order given; the
    builder never calls them with an empty list of hooks or filters. *)
Definition NewSelector := Selector.
Definition NewFlattenListVisitor := FlattenListVisitor.
Definition NewDecoratedVisitor := DecoratedVisitor.
Definition NewFilteredVisitor := FilteredVisitor.

(** Result contains helper methods for dealing with the outcome of a
    Builder.  It is generic in the implementation [V] of the Visitor
    interface it drives. *)
Record Result (V : Type) : Type := mkResult {
  err : option error;
  visitor : V;
  sources : list V;
  singleItemImplied : bool;
  targetsSingleItems : bool;
  r_mapper : option mapper;
  ignoreErrors : list Matcher;
  info : option (list Info);   (** populated by a call to Infos *)
}.
Arguments mkResult {V}.
Arguments err {V}.
Arguments visitor {V}.
Arguments sources {V}.
Arguments singleItemImplied {V}.
Arguments targetsSingleItems {V}.
Arguments r_mapper {V}.
Arguments ignoreErrors {V}.
Arguments info {V}.

Definition set_visitor {V} (r : Result V) (v : V) : Result V :=
  mkResult (err r) v (sources r) (singleItemImplied r)
           (targetsSingleItems r) (r_mapper r) (ignoreErrors r) (info r).

Definition set_sources {V} (r : Result V) (vs : list V) : Result V :=
  mkResult (err r) (visitor r) vs (singleItemImplied r)
           (targetsSingleItems r) (r_mapper r) (ignoreErrors r) (info r).

Definition set_mapper {V} (r : Result V) (m : option mapper) : Result V :=
  mkResult (err r) (visitor r) (sources r) (singleItemImplied r)
           (targetsSingleItems r) m (ignoreErrors r) (info r).

(** withError allows a fluent style for internal result code. *)
Definition withError {V} (r : Result V) (e : error) : Result V :=
  mkResult (Some e) (visitor r) (sources r) (singleItemImplied r)
           (targetsSingleItems r) (r_mapper r) (ignoreErrors r) (info r).


(** ** The Builder *)

(** The fields of the Builder struct that the functions below read or
    write (local and schema are not among them; categoryExpanderFn is an
    argument of ReplaceAliases, the one method that reads it).  A function
    field can be nil, as after [NewFakeBuilder(nil, nil, nil)]: [None]
    here, and the call of a nil function panics.  restMapperFn is taken by
    what it returns, an error or a mapper, which as an interface value can
    be nil ([Ok None]) beside a nil error. *)
Record Builder : Type := mkBuilder {
  b_mapper : option mapper;
  clientConfigFn : option ClientConfigFunc;
  restMapperFn : option (result (option RESTMapper));
  objectTyper : option ObjectTyper;
  negotiatedSerializer : option NegotiatedSerializer;
  errs : list error;
  paths : list Visitor;
  stream : bool;
  stdinInUse : bool;
  dir : bool;
  visitorConcurrency : Z;
  labelSelector : option string;
  fieldSelector : option string;
  selectAll : bool;
  limitChunks : Z;
  requestTransforms : list RequestTransform;
  resources : list string;
  subresource : string;
  namespace : string;
  allNamespace : bool;
  names : list string;
  resourceTuples : list resourceTuple;
  defaultNamespace : bool;
  requireNamespace : bool;
  flatten : bool;
  latest : bool;
  requireObject : bool;
  singleResourceType : bool;
  continueOnError : bool;
  b_singleItemImplied : bool;
  fakeClientFn : option (GroupVersion -> result RESTClient);
}.

Definition set_errs (b : Builder) (es : list error) : Builder :=
  mkBuilder (b_mapper b) (clientConfigFn b) (restMapperFn b) (objectTyper b)
    (negotiatedSerializer b) es (paths b) (stream b) (stdinInUse b) (dir b)
    (visitorConcurrency b) (labelSelector b) (fieldSelector b) (selectAll b)
    (limitChunks b) (requestTransforms b) (resources b) (subresource b)
    (namespace b) (allNamespace b) (names b) (resourceTuples b)
    (defaultNamespace b) (requireNamespace b) (flatten b) (latest b)
    (requireObject b) (singleResourceType b) (continueOnError b)
    (b_singleItemImplied b) (fakeClientFn b).

Definition set_labelSelector (b : Builder) (sel : option string) : Builder :=
  mkBuilder (b_mapper b) (clientConfigFn b) (restMapperFn b) (objectTyper b)
    (negotiatedSerializer b) (errs b) (paths b) (stream b) (stdinInUse b) (dir b)
    (visitorConcurrency b) sel (fieldSelector b) (selectAll b)
    (limitChunks b) (requestTransforms b) (resources b) (subresource b)
    (namespace b) (allNamespace b) (names b) (resourceTuples b)
    (defaultNamespace b) (requireNamespace b) (flatten b) (latest b)
    (requireObject b) (singleResourceType b) (continueOnError b)
    (b_singleItemImplied b) (fakeClientFn b).

Definition set_resourceTuples (b : Builder) (ts : list resourceTuple) : Builder :=
  mkBuilder (b_mapper b) (clientConfigFn b) (restMapperFn b) (objectTyper b)
    (negotiatedSerializer b) (errs b) (paths b) (stream b) (stdinInUse b) (dir b)
    (visitorConcurrency b) (labelSelector b) (fieldSelector b) (selectAll b)
    (limitChunks b) (requestTransforms b) (resources b) (subresource b)
    (namespace b) (allNamespace b) (names b) ts
    (defaultNamespace b) (requireNamespace b) (flatten b) (latest b)
    (requireObject b) (singleResourceType b) (continueOnError b)
    (b_singleItemImplied b) (fakeClientFn b).

(** ResourceNames accepts a default type and one or more names, and creates
    tuples of resources. *)
Fixpoint ResourceNames (b : Builder) (resource : string) (names : list string)
  : Builder :=
  match names with
  | [] => b
  | name :: rest =>
      match splitResourceTypeName name with
      | (_, _, Some e) => set_errs b (errs b ++ [e])
      | (tuple, true, None) =>
          ResourceNames (set_resourceTuples b (resourceTuples b ++ [tuple]))
                        resource rest
      | (_, false, None) =>
          if strEmpty resource
          then ResourceNames
                 (set_errs b (errs b ++
                    [Errorf "the argument %q must be RESOURCE/NAME" [name]]))
                 resource rest
          else ResourceNames
                 (set_resourceTuples b
                    (resourceTuples b ++ [mkTuple resource name]))
                 resource rest
      end
  end.

(** mappingFor returns the RESTMapping for the Kind given, or the Kind
    referenced by the resource.  Prefers a fully specified
    GroupVersionResource match.  If one is not found, we match on a fully
    specified GroupVersionKind, or fallback to a match on GroupKind. *)
Definition mappingFor (b : Builder) (resourceOrKindArg : string)
  : outcome (result RESTMapping) :=
  let '(fullySpecifiedGVR, groupResource) := ParseResourceArg resourceOrKindArg in
  let gvk := GVK "" "" "" in
  match restMapperFn b with
  | None => Panics                     (* the call of the nil function *)
  | Some (Err e) => Returns (Err e)
  | Some (Ok None) =>
      (* one of the two calls of KindFor is always made: the first when
         there is a fully specified resource, the second otherwise, gvk
         being empty then *)
      Panics
  | Some (Ok (Some restMapper)) =>
      Returns (
      let gvk := match fullySpecifiedGVR with
                 | Some gvr => fst (KindFor restMapper gvr)
                 | None => gvk
                 end in
      let gvk := if GVK_Empty gvk
                 then fst (KindFor restMapper (GR_WithVersion groupResource ""))
                 else gvk in
      if negb (GVK_Empty gvk)
      then RESTMapping_ restMapper (GVK_GroupKind gvk) (gvk_Version gvk)
      else
        let '(fullySpecifiedGVK, groupKind) := ParseKindArg resourceOrKindArg in
        let fullySpecifiedGVK := match fullySpecifiedGVK with
                                 | None => GK_WithVersion groupKind ""
                                 | Some g => g
                                 end in
        let found :=
          if negb (GVK_Empty fullySpecifiedGVK)
          then match RESTMapping_ restMapper (GVK_GroupKind fullySpecifiedGVK)
                                  (gvk_Version fullySpecifiedGVK) with
               | Ok mapping => Some mapping
               | Err _ => None
               end
          else None in
        match found with
        | Some mapping => Ok mapping
        | None =>
            match RESTMapping_ restMapper groupKind (gvk_Version gvk) with
            | Err e =>
                (* if the error is not a NoKindMatchError, then we had trouble
                   doing discovery, so we should return the original error *)
                if IsNoMatchError e
                then Err (Errorf "the server doesn't have a resource type %q"
                                 [gr_Resource groupResource])
                else Err e
            | Ok mapping => Ok mapping
            end
        end)
  end.



(** The message of mappingFor for a type the server does not have. *)
Definition noResourceTypeError (resource : string) : error :=
  Errorf "the server doesn't have a resource type %q" [resource].

Fixpoint resourceMappings_loop (b : Builder) (rs : list string)
    (seen : gset GroupVersionKind) (mappings : list RESTMapping)
  : outcome (result (list RESTMapping)) :=
  match rs with
  | [] => Returns (Ok mappings)
  | r :: rs' =>
      match mappingFor b r with
      | Panics => Panics
      | Returns (Err e) => Returns (Err e)
      | Returns (Ok mapping) =>
          (* This ensures the mappings for resources(shortcuts, plural) unique *)
          if bool_decide (Mapping_GroupVersionKind mapping ∈ seen)
          then resourceMappings_loop b rs' seen mappings
          else resourceMappings_loop b rs'
                 ({[ Mapping_GroupVersionKind mapping ]} ∪ seen)
                 (mappings ++ [mapping])
      end
  end.

Definition singleTypeError : error :=
  Errorf "you may only specify a single resource type" [].

Definition resourceMappings (b : Builder) : outcome (result (list RESTMapping)) :=
  if (1 <? length (resources b))%nat && singleResourceType b
  then Returns (Err singleTypeError)
  else resourceMappings_loop b (resources b) ∅ [].

Fixpoint resourceTupleMappings_loop (b : Builder) (ts : list resourceTuple)
    (mappings : gmap string RESTMapping) (canonical : gset GroupVersionResource)
  : outcome (result (gmap string RESTMapping * gset GroupVersionResource)) :=
  match ts with
  | [] => Returns (Ok (mappings, canonical))
  | r :: ts' =>
      match mappings !! Resource r with
      | Some _ => resourceTupleMappings_loop b ts' mappings canonical
      | None =>
          match mappingFor b (Resource r) with
          | Panics => Panics
          | Returns (Err e) => Returns (Err e)
          | Returns (Ok mapping) =>
              resourceTupleMappings_loop b ts'
                (<[ Resource r := mapping ]> mappings)
                ({[ Mapping_Resource mapping ]} ∪ canonical)
          end
      end
  end.

Definition resourceTupleMappings (b : Builder)
  : outcome (result (gmap string RESTMapping)) :=
  match resourceTupleMappings_loop b (resourceTuples b) ∅ ∅ with
  | Panics => Panics
  | Returns (Err e) => Returns (Err e)
  | Returns (Ok (mappings, canonical)) =>
      if (1 <? size canonical)%nat && singleResourceType b
      then Returns (Err singleTypeError)
      else Returns (Ok mappings)
  end.


(** The canonical resources that the tuples resolve to. *)
Definition resolvedTypes (b : Builder) (ts : list resourceTuple)
  : list GroupVersionResource :=
  omap (fun t => match mappingFor b (Resource t) with
                 | Returns (Ok mapping) => Some (Mapping_Resource mapping)
                 | _ => None
                 end) ts.

(** [&Result{...}] with the fields a strategy sets at once; the visitor of
    a fresh Result is the nil interface value. *)
Definition newResult (singleItemImplied targetsSingleItems : bool)
  : Result Visitor :=
  mkResult None nilVisitor [] singleItemImplied targetsSingleItems None [] None.

(** The methods withStdinUnavailable, clientForGroupVersion and
    unstructuredClientForGroupVersion of ClientConfigFunc (client.go, not
    among the sources) call the function they are methods of, so that they
    panic on the nil function. *)
Definition getClient (b : Builder) (gv : GroupVersion)
  : outcome (result RESTClient) :=
  let made : outcome (result RESTClient) :=
    match fakeClientFn b with
    | Some fake => Returns (fake gv)
    | None =>
        match negotiatedSerializer b with
        | Some ns =>
            match clientConfigFn b with
            | None => Panics
            | Some fn =>
                Returns (clientForGroupVersion
                           (withStdinUnavailable fn (stdinInUse b)) gv ns)
            end
        | None =>
            match clientConfigFn b with
            | None => Panics
            | Some fn =>
                Returns (unstructuredClientForGroupVersion
                           (withStdinUnavailable fn (stdinInUse b)) gv)
            end
        end
    end in
  match made with
  | Panics => Panics
  | Returns (Err e) => Returns (Err e)
  | Returns (Ok client) =>
      Returns (Ok (NewClientWithOptions client (requestTransforms b)))
  end.

Definition isEmpty {A} (l : list A) : bool := (length l =? 0)%nat.

(** The namespace of a lookup by name, as visitByResource and visitByName
    both compute it: empty for a mapping that is not namespaced, an error
    for a namespaced one without namespace. *)
Definition selectorNamespaceByName (b : Builder) (mapping : RESTMapping)
  : result string :=
  if negb (String.eqb (Mapping_Scope_Name mapping) RESTScopeNameNamespace)
  then Ok ""
  else if strEmpty (namespace b)
       then Err (Errorf (if allNamespace b
                         then "a resource cannot be retrieved by name across all namespaces"
                         else "namespace may not be empty when retrieving a resource by name")
                        [])
       else Ok (namespace b).

Fixpoint visitBySelector_visitors (b : Builder) (mappings : list RESTMapping)
    (labelSelector fieldSelector : string) (visitors : list Visitor)
  : outcome (result (list Visitor)) :=
  match mappings with
  | [] => Returns (Ok visitors)
  | mapping :: rest =>
      match getClient b (GVK_GroupVersion (Mapping_GroupVersionKind mapping)) with
      | Panics => Panics
      | Returns (Err e) => Returns (Err e)
      | Returns (Ok client) =>
          let selectorNamespace :=
            if negb (String.eqb (Mapping_Scope_Name mapping) RESTScopeNameNamespace)
            then "" else namespace b in
          visitBySelector_visitors b rest labelSelector fieldSelector
            (visitors ++ [NewSelector client mapping selectorNamespace
                            labelSelector fieldSelector (limitChunks b)])
      end
  end.

Definition visitBySelector (b : Builder) : outcome (Result Visitor) :=
  let result := newResult false false in
  if negb (isEmpty (names b)) then
    Returns (withError result (Errorf "name cannot be provided when a selector is specified" []))
  else if negb (isEmpty (resourceTuples b)) then
    Returns (withError result (Errorf "selectors and the all flag cannot be used when passing resource/name arguments" []))
  else if isEmpty (resources b) then
    Returns (withError result (Errorf "at least one resource must be specified to use a selector" []))
  else if negb (strEmpty (subresource b)) then
    Returns (withError result (Errorf "subresource cannot be used when bulk resources are specified" []))
  else
    match resourceMappings b with
    | Panics => Panics
    | Returns (Err e) => Returns (withError result e)
    | Returns (Ok mappings) =>
        let labelSelector := default "" (labelSelector b) in
        let fieldSelector := default "" (fieldSelector b) in
        match visitBySelector_visitors b mappings labelSelector fieldSelector [] with
        | Panics => Panics
        | Returns (Err e) => Returns (withError result e)
        | Returns (Ok visitors) =>
            Returns
              (set_sources
                 (set_visitor result
                    (if continueOnError b then EagerVisitorList visitors
                     else VisitorList visitors))
                 visitors)
        end
    end.

(** The key of the client table of visitByResource. *)
Definition clientKey (mapping : RESTMapping) : string :=
  (GV_String (GVK_GroupVersion (Mapping_GroupVersionKind mapping)) ++ "/"
   ++ gvr_Resource (Mapping_Resource mapping))%string.

Fixpoint visitByResource_clients (b : Builder) (ms : list (string * RESTMapping))
    (clients : gmap string RESTClient)
  : outcome (result (gmap string RESTClient)) :=
  match ms with
  | [] => Returns (Ok clients)
  | (_, mapping) :: rest =>
      match clients !! clientKey mapping with
      | Some _ => visitByResource_clients b rest clients
      | None =>
          match getClient b (GVK_GroupVersion (Mapping_GroupVersionKind mapping)) with
          | Panics => Panics
          | Returns (Err e) => Returns (Err e)
          | Returns (Ok client) =>
              visitByResource_clients b rest (<[ clientKey mapping := client ]> clients)
          end
      end
  end.

Fixpoint visitByResource_items (b : Builder) (mappings : gmap string RESTMapping)
    (clients : gmap string RESTClient) (ts : list resourceTuple)
    (items : list Visitor) : result (list Visitor) :=
  match ts with
  | [] => Ok items
  | tuple :: rest =>
      match mappings !! Resource tuple with
      | None => Err (Errorf "resource %q is not recognized: %v"
                            [Resource tuple; Sprint_mappings mappings])
      | Some mapping =>
          match clients !! clientKey mapping with
          | None => Err (Errorf "could not find a client for resource %q"
                                [Resource tuple])
          | Some client =>
              match selectorNamespaceByName b mapping with
              | Err e => Err e
              | Ok selectorNamespace =>
                  visitByResource_items b mappings clients rest
                    (items ++ [InfoVisitor
                       (mkInfo (Some client) (Some mapping) selectorNamespace
                               (Name tuple) (subresource b) None "")])
              end
          end
      end
  end.

(** Go ranges over the table of mappings in an unspecified order; the
    order taken here is that of [map_to_list].  It only decides which
    client error comes first when several clients fail. *)
Definition visitByResource (b : Builder) : outcome (Result Visitor) :=
  (* if b.singleItemImplied is false, this could be by default, so
     double-check length of resourceTuples *)
  let isSingleItemImplied :=
    if negb (b_singleItemImplied b) then (length (resourceTuples b) =? 1)%nat
    else b_singleItemImplied b in
  let result := newResult isSingleItemImplied true in
  if negb (isEmpty (resources b)) then
    Returns (withError result (Errorf "you may not specify individual resources and bulk resources in the same call" []))
  else
    (* retrieve one client for each resource *)
    match resourceTupleMappings b with
    | Panics => Panics
    | Returns (Err e) => Returns (withError result e)
    | Returns (Ok mappings) =>
        match visitByResource_clients b (map_to_list mappings) ∅ with
        | Panics => Panics
        | Returns (Err e) => Returns (withError result e)
        | Returns (Ok clients) =>
            match visitByResource_items b mappings clients (resourceTuples b) [] with
            | Err e => Returns (withError result e)
            | Ok items =>
                Returns
                  (set_sources
                     (set_visitor result
                        (if continueOnError b then EagerVisitorList items
                         else VisitorList items))
                     items)
            end
        end
    end.

Definition visitByName (b : Builder) : outcome (Result Visitor) :=
  let result := newResult (length (names b) =? 1)%nat true in
  if negb (isEmpty (paths b)) then
    Returns (withError result (Errorf "when paths, URLs, or stdin is provided as input, you may not specify a resource by arguments as well" []))
  else if isEmpty (resources b) then
    Returns (withError result (Errorf "you must provide a resource and a resource name together" []))
  else if (1 <? length (resources b))%nat then
    Returns (withError result (Errorf "you must specify only one resource" []))
  else
    match resourceMappings b with
    | Panics => Panics
    | Returns (Err e) => Returns (withError result e)
    | Returns (Ok mappings) =>
        match mappings with
        | [] => Panics                      (* mappings[0] *)
        | mapping :: _ =>
            match getClient b (GVK_GroupVersion (Mapping_GroupVersionKind mapping)) with
            | Panics => Panics
            | Returns (Err e) => Returns (withError result e)
            | Returns (Ok client) =>
                match selectorNamespaceByName b mapping with
                | Err e => Returns (withError result e)
                | Ok selectorNamespace =>
                    let visitors :=
                      map (fun name =>
                             InfoVisitor
                               (mkInfo (Some client) (Some mapping)
                                       selectorNamespace name (subresource b)
                                       None ""))
                          (names b) in
                    Returns (set_sources (set_visitor result (VisitorList visitors))
                                         visitors)
                end
            end
        end
    end.

Definition visitByPaths (b : Builder) : Result Visitor :=
  let result :=
    newResult (negb (dir b) && negb (stream b) && (length (paths b) =? 1)%nat)
              true in
  if negb (isEmpty (resources b)) then
    withError result (Errorf "when paths, URLs, or stdin is provided as input, you may not specify resource arguments as well" [])
  else if negb (isEmpty (names b)) then
    withError result (Errorf "name cannot be provided when a path is specified" [])
  else if negb (isEmpty (resourceTuples b)) then
    withError result (Errorf "resource/name arguments cannot be provided when a path is specified" [])
  else
    let visitors :=
      if continueOnError b then EagerVisitorList (paths b)
      else ConcurrentVisitorList (paths b) (visitorConcurrency b) in
    let visitors :=
      if flatten b then NewFlattenListVisitor visitors (objectTyper b) (b_mapper b)
      else visitors in
    (* only items from disk can be refetched *)
    let visitors :=
      if latest b then
        (* must set namespace prior to fetching *)
        let visitors :=
          if defaultNamespace b
          then NewDecoratedVisitor visitors [SetNamespace (namespace b)]
          else visitors in
        NewDecoratedVisitor visitors [RetrieveLatest]
      else visitors in
    match labelSelector b with
    | Some sel =>
        match labels_Parse sel with
        | Err e =>
            withError result
              (Errorf "the provided selector %q is not valid: %v" [sel; Sprint_error e])
        | Ok selector =>
            set_sources
              (set_visitor result
                 (NewFilteredVisitor visitors [FilterByLabelSelector selector]))
              (paths b)
        end
    | None => set_sources (set_visitor result visitors) (paths b)
    end.

Definition nl : string := String (ascii_of_nat 10) EmptyString.

Definition missingResourceError : error :=
  Errorf ("You must provide one or more resources by argument or filename." ++ nl
          ++ "Example resource specifications include:" ++ nl
          ++ "   '-f rsrc.yaml'" ++ nl
          ++ "   '--filename=rsrc.json'" ++ nl
          ++ "   '<resource> <name>'" ++ nl
          ++ "   '<resource>'")%string [].

Definition noNameError : error :=
  Errorf "resource(s) were provided, but no name was specified" [].

(** The last branch but one of visitorResult: every bulk type is mapped,
    the first failure is the result, otherwise the fixed error. *)
Fixpoint visitorResult_types (b : Builder) (rs : list string)
  : outcome (Result Visitor) :=
  match rs with
  | [] => Returns (withError (newResult false false) noNameError)
  | r :: rest =>
      match mappingFor b r with
      | Panics => Panics
      | Returns (Err e) => Returns (withError (newResult false false) e)
      | Returns (Ok _) => visitorResult_types b rest
      end
  end.

(** visitorResult; the Builder it returns is the receiver after the call
    (selectAll writes the label selector). *)
Definition visitorResult (b : Builder) : outcome (Result Visitor) * Builder :=
  if negb (isEmpty (errs b)) then
    (Returns (mkResult (NewAggregate (errs b)) nilVisitor [] false false None [] None), b)
  else
    let b := if selectAll b then set_labelSelector b (Some labels_Everything_String)
             else b in
    (* visit items specified by paths *)
    if negb (isEmpty (paths b)) then (Returns (visitByPaths b), b)
    (* visit selectors *)
    else if is_Some_b (labelSelector b) || is_Some_b (fieldSelector b) then
      (visitBySelector b, b)
    (* visit items specified by resource and name *)
    else if negb (isEmpty (resourceTuples b)) then (visitByResource b, b)
    (* visit items specified by name *)
    else if negb (isEmpty (names b)) then (visitByName b, b)
    else if negb (isEmpty (resources b)) then
      (visitorResult_types b (resources b), b)
    else (Returns (withError (newResult false false) missingResourceError), b).

(** Mapper returns a copy of the builder's mapper: [mapper := *b.mapper]. *)
Definition Mapper (b : Builder) : outcome mapper :=
  match b_mapper b with
  | Some m => Returns m
  | None => Panics
  end.

(** Do returns a Result object with a Visitor for the resources identified
    by the Builder. *)
Definition Do (b : Builder) : outcome (Result Visitor) * Builder :=
  match visitorResult b with
  | (Panics, b) => (Panics, b)
  | (Returns r, b) =>
      match Mapper b with
      | Panics => (Panics, b)
      | Returns m =>
          let r := set_mapper r (Some m) in
          if is_Some_b (err r) then (Returns r, b)
          else
            let r := if flatten b
                     then set_visitor r (NewFlattenListVisitor (visitor r)
                                           (objectTyper b) (b_mapper b))
                     else r in
            let helpers : list Decorator := [] in
            let helpers := if defaultNamespace b
                           then helpers ++ [SetNamespace (namespace b)]
                           else helpers in
            let helpers := if requireNamespace b
                           then helpers ++ [RequireNamespace (namespace b)]
                           else helpers in
            let helpers := helpers ++ [FilterNamespace] in
            let helpers := if requireObject b
                           then helpers ++ [RetrieveLazy]
                           else helpers in
            let r := if continueOnError b
                     then set_visitor r (ContinueOnErrorVisitor (visitor r))
                     else r in
            (Returns (set_visitor r (NewDecoratedVisitor (visitor r) helpers)), b)
      end
  end.


(** The hooks that Do hands to the decorated visitor, in their order. *)
Definition Do_helpers (b : Builder) : list Decorator :=
  (if defaultNamespace b then [SetNamespace (namespace b)] else [])
  ++ (if requireNamespace b then [RequireNamespace (namespace b)] else [])
  ++ [FilterNamespace]
  ++ (if requireObject b then [RetrieveLazy] else []).

(** The visitor that Do makes of the visitor of a strategy: the flattening
    inside, the continue-on-error wrapper around it, the decorated visitor
    with the hooks around both. *)
Definition Do_visitor (b : Builder) (root : Visitor) : Visitor :=
  let v := if flatten b
           then FlattenListVisitor root (objectTyper b) (b_mapper b)
           else root in
  let v := if continueOnError b then ContinueOnErrorVisitor v else v in
  DecoratedVisitor v (Do_helpers b).

(** A Builder whose function fields can be called: restMapperFn is set and
    returns an error or a mapper, and fakeClientFn or clientConfigFn is
    set. *)
Definition callable (b : Builder) : Prop :=
  (restMapperFn b <> None /\ restMapperFn b <> Some (Ok None))
  /\ (fakeClientFn b <> None \/ clientConfigFn b <> None).

(** ** The Result and the Visitor it drives *)

(** [VisitorFunc]: the callback of a visit.  A callback that writes to
    variables of its closure (as the one of Infos does) threads them as
    [A]. *)
Definition VisitorFunc (A : Type) : Type :=
  Info -> option error -> A -> option error * A.

(** The [Visitor] interface: [Visit(fn) error].  A visit may read and
    consume the world [W] outside the program (files, standard input, the
    server), calls [fn] as it sees fit, and may panic. *)
Class VisitorImpl (V W : Type) : Type := {
  Visit : forall A : Type,
      V -> VisitorFunc A -> W -> A -> outcome (option error * W * A);
}.
Arguments Visit {V W _ A} v fn w a.

Section ResultMethods.
Context {V W : Type} `{!VisitorImpl V W}.

Definition set_info_err (r : Result V) (infos : option (list Info))
    (e : option error) : Result V :=
  mkResult e (visitor r) (sources r) (singleItemImplied r)
           (targetsSingleItems r) (r_mapper r) (ignoreErrors r) infos.

(** Visit implements the Visitor interface on the items described in the
    Builder. *)
Definition Result_Visit {A : Type} (r : Result V) (fn : VisitorFunc A)
    (w : W) (a : A) : outcome (option error * W * A) :=
  match err r with
  | Some e => Returns (Some e, w, a)
  | None =>
      match Visit (visitor r) fn w a with
      | Panics => Panics
      | Returns (e, w', a') => Returns (FilterOut e (ignoreErrors r), w', a')
      end
  end.

(** The callback of Infos; its closure variable is the list [infos]. *)
Definition Infos_fn : VisitorFunc (list Info) :=
  fun info err infos =>
    match err with
    | Some e => (Some e, infos)
    | None => (None, infos ++ [info])
    end.

(** Infos returns an array of all of the resource infos retrieved via
    traversal.  Will attempt to traverse the entire set of visitors only
    once, and will return a cached list on subsequent calls.  The list is
    [None] for a nil slice; the Result returned is the receiver after the
    call. *)
Definition Result_Infos (r : Result V) (w : W)
  : outcome (option (list Info) * option error * Result V * W) :=
  match err r with
  | Some e => Returns (None, Some e, r, w)
  | None =>
      match info r with
      | Some infos => Returns (Some infos, None, r, w)
      | None =>
          match Visit (visitor r) Infos_fn w [] with
          | Panics => Panics
          | Returns (e, w', infos) =>
              let e := FilterOut e (ignoreErrors r) in
              Returns (Some infos, e, set_info_err r (Some infos) e, w')
          end
      end
  end.

(** toV1List takes a slice of Objects + their version, and returns a
    v1.List Object containing the objects in the Items field. *)
Definition toV1List (objects : list Object) (version : string) : Object :=
  v1_List version objects.

(** The loop of Object: the objects that are set, and the set of the
    resource versions of their infos. *)
Definition Object_loop (infos : list Info) : gset string * list Object :=
  foldl (fun (acc : gset string * list Object) (i : Info) =>
           let '(versions, objects) := acc in
           match Info_Object i with
           | Some o => ({[ Info_ResourceVersion i ]} ∪ versions, objects ++ [o])
           | None => (versions, objects)
           end)
        (∅, []) infos.

(** Object returns a single object representing the output of a single
    visit to all found resources. *)
Definition Result_Object (r : Result V) (w : W)
  : outcome (option Object * option error * Result V * W) :=
  match Result_Infos r w with
  | Panics => Panics
  | Returns (_, Some e, r, w) => Returns (None, Some e, r, w)
  | Returns (infos, None, r, w) =>
      let '(versions, objects) := Object_loop (default [] infos) in
      let single :=
        match objects with
        | [o] =>
            if singleItemImplied r then Some o
            (* if the item is a list already, don't create another list *)
            else if IsListType o then Some o
            else None
        | _ => None
        end in
      match single with
      | Some o => Returns (Some o, None, r, w)
      | None =>
          let version :=
            if (size versions =? 1)%nat then hd "" (elements versions) else "" in
          Returns (Some (toV1List objects version), None, r, w)
      end
  end.

(** The resource versions of the infos that carry an object. *)
Definition objectVersions (infos : list Info) : list string :=
  omap (fun i => match Info_Object i with
                 | Some _ => Some (Info_ResourceVersion i)
                 | None => None
                 end) infos.

End ResultMethods.

End Embedding.

Arguments mkResult {_ V}.
Arguments err {_ V}.
Arguments visitor {_ V}.
Arguments sources {_ V}.
Arguments singleItemImplied {_ V}.
Arguments targetsSingleItems {_ V}.
Arguments r_mapper {_ V}.
Arguments ignoreErrors {_ V}.
Arguments info {_ V}.
Arguments Visit {_ V W _ A} v fn w a.

(** ** The caching category expander *)

Section Caching.
Context {CategoryExpander W : Type}.

(** [CategoryExpanderFunc]: a call into the discovery client, which reads
    and may change the world [W].  It returns an error, or an expander with
    a nil error; the expander is an interface value and can be nil
    ([Ok None]). *)
Definition CategoryExpanderFunc : Type :=
  W -> result (option CategoryExpander) * W.

(** cachingCategoryExpanderFunc.  The delegate is a function field, [None]
    when nil; [cached] is [None] for the nil interface value.  The mutex
    makes the calls of ToCategoryExpander run one after the other. *)
Record cachingCategoryExpanderFunc : Type := mkCaching {
  delegate : option CategoryExpanderFunc;
  cached : option CategoryExpander;
}.

Definition ToCategoryExpander (c : cachingCategoryExpanderFunc) (w : W)
  : outcome (result (option CategoryExpander) * cachingCategoryExpanderFunc * W) :=
  match cached c with
  | Some e => Returns (Ok (Some e), c, w)
  | None =>
      match delegate c with
      | None => Panics                 (* the call of the nil function *)
      | Some fn =>
          match fn w with
          | (Err e, w') => Returns (Err e, c, w')
          | (Ok ret, w') => Returns (Ok ret, mkCaching (delegate c) ret, w')
          end
      end
  end.

(** [n] calls in a row: the results, and the wrapper and the world after
    the last. *)
Fixpoint ToCategoryExpander_times (n : nat) (c : cachingCategoryExpanderFunc)
    (w : W)
  : outcome (list (result (option CategoryExpander))
             * cachingCategoryExpanderFunc * W) :=
  match n with
  | O => Returns ([], c, w)
  | S n' =>
      match ToCategoryExpander c w with
      | Panics => Panics
      | Returns (r, c', w') =>
          match ToCategoryExpander_times n' c' w' with
          | Panics => Panics
          | Returns (rs, c'', w'') => Returns (r :: rs, c'', w'')
          end
      end
  end.

End Caching.
Arguments CategoryExpanderFunc : clear implicits.
Arguments cachingCategoryExpanderFunc : clear implicits.

(** ** A small cluster to evaluate the definitions on

    Pods and services are namespaced, nodes are not; [po] and [pods] name
    the same type.  The tokens are parsed the way apimachinery parses a
    token without dots: no fully specified form, the token as resource or
    kind. *)

Module demo.

Definition podMapping : RESTMapping :=
  mkRESTMapping (GVR "" "v1" "pods") (GVK "" "v1" "Pod") RESTScopeNameNamespace.
Definition serviceMapping : RESTMapping :=
  mkRESTMapping (GVR "" "v1" "services") (GVK "" "v1" "Service")
                RESTScopeNameNamespace.
Definition nodeMapping : RESTMapping :=
  mkRESTMapping (GVR "" "v1" "nodes") (GVK "" "v1" "Node") RESTScopeNameRoot.

Definition kindFor (gvr : GroupVersionResource) : GroupVersionKind * option error :=
  let r := gvr_Resource gvr in
  if String.eqb r "pods" || String.eqb r "po" then (GVK "" "v1" "Pod", None)
  else if String.eqb r "services" || String.eqb r "svc"
       then (GVK "" "v1" "Service", None)
  else if String.eqb r "nodes" then (GVK "" "v1" "Node", None)
  else (GVK "" "" "", Some (NoResourceMatchError r)).

Definition restMapping (gk : GroupKind) (version : string) : result RESTMapping :=
  let k := gk_Kind gk in
  if String.eqb k "Pod" then Ok podMapping
  else if String.eqb k "Service" then Ok serviceMapping
  else if String.eqb k "Node" then Ok nodeMapping
  else if String.eqb k "unreachable" then Err (OtherError "connection refused")
  else Err (NoKindMatchError k).

Definition restMapper : RESTMapper := mkRESTMapper kindFor restMapping.

#[global] Instance collaborators : Collaborators := {|
  RESTClient := string;
  RequestTransform := string;
  NegotiatedSerializer := unit;
  ClientConfigFunc := unit;
  ObjectTyper := unit;
  mapper := unit;
  Selector_ := string;
  ParseResourceArg := fun s => (None, GR "" s);
  ParseKindArg := fun s => (None, GK "" s);
  labels_Parse := fun s => Ok s;
  labels_Everything_String := "";
  withStdinUnavailable := fun c _ => c;
  clientForGroupVersion := fun _ gv _ => Ok (GV_String gv);
  unstructuredClientForGroupVersion := fun _ gv => Ok (GV_String gv);
  NewClientWithOptions := fun c _ => c;
  Sprint_mappings := fun _ => "map[]";
  Sprint_error := fun _ => "error";
  IsListType := fun o => match o with v1_List _ _ => true | Decoded _ => false end;
  FilterOut := fun e fns =>
    match e with
    | Some e' => if existsb (fun f => f e') fns then None else Some e'
    | None => None
    end;
|}.

(** A Builder on this cluster, in the namespace [default], with an
    unstructured mapper selected: its sources, and the policies
    flatten, defaultNamespace, requireNamespace, requireObject,
    singleResourceType and continueOnError. *)
Definition builder (paths : list Visitor) (labelSelector : option string)
    (selectAll : bool) (resources names : list string)
    (resourceTuples : list resourceTuple)
    (flatten defaultNamespace requireNamespace requireObject
     singleResourceType continueOnError : bool) : Builder :=
  mkBuilder (Some tt) (Some tt) (Some (Ok (Some restMapper))) (Some tt) None []
    paths false false
    false 0 labelSelector None selectAll 0 [] resources "" "default" false
    names resourceTuples defaultNamespace requireNamespace flatten false
    requireObject singleResourceType continueOnError false None.

(** Nothing configured yet. *)
Definition newBuilder : Builder :=
  builder [] None false [] [] [] false false false true false false.

(** Modelled from the spec: a single-use stream leaf such as standard
    input (visitor.go is not among the sources).  The world is what is
    left to read: decoded items and decode failures.  A visit reads on,
    hands every item to the callback, relays a failure through the
    callback (with the zero Info), and stops at the first error the
    callback returns; what it has read is gone, so that a second visit of
    a stream read to its end yields nothing.  The nil visitor panics. *)
Inductive leaf : Type := nilLeaf | stdinLeaf.

Definition zeroInfo : Info := mkInfo None None "" "" "" None "".

Fixpoint readStream {A : Type} (entries : list (Info + error))
    (fn : VisitorFunc A) (a : A) : option error * list (Info + error) * A :=
  match entries with
  | [] => (None, [], a)
  | inl i :: rest =>
      match fn i None a with
      | (Some e, a') => (Some e, rest, a')
      | (None, a') => readStream rest fn a'
      end
  | inr e :: rest =>
      match fn zeroInfo (Some e) a with
      | (Some e', a') => (Some e', rest, a')
      | (None, a') => readStream rest fn a'
      end
  end.

#[global] Instance leafVisitor : VisitorImpl leaf (list (Info + error)) := {|
  Visit := fun A v fn w a =>
    match v with
    | nilLeaf => Panics
    | stdinLeaf => Returns (readStream w fn a)
    end
|}.

(** A visitor that panics whatever it is asked. *)
Definition panicking : VisitorImpl leaf (list (Info + error)) := {|
  Visit := fun A v fn w a => Panics
|}.

Definition pod (name version : string) : Info :=
  mkInfo None (Some podMapping) "default" name "" (Some (Decoded name)) version.

(** A discovery client that fails when first asked and answers from then
    on; the world counts the calls it has received. *)
Definition flakyDiscovery : CategoryExpanderFunc string nat :=
  fun calls =>
    (if (calls =? 0)%nat then Err (OtherError "discovery failed")
     else Ok (Some "expander"), S calls).

(** A delegate that returns neither an expander nor an error when first
    asked, and an expander from then on. *)
Definition emptyHandedDiscovery : CategoryExpanderFunc string nat :=
  fun calls =>
    (if (calls =? 0)%nat then Ok None else Ok (Some "expander"), S calls).


(** A fresh Result over standard input. *)
Definition fromStdin (singleItemImplied : bool) : Result leaf :=
  mkResult None stdinLeaf [stdinLeaf] singleItemImplied true (Some tt) [] None.

End demo.

(** * More definitions: the rest of the builder and of its callers *)

(** ** More of package [strings] *)

Module gostrings.

(** [strings.Join(elems, sep)] *)
Fixpoint Join (elems : list string) (sep : string) : string :=
  match elems with
  | [] => ""
  | e :: rest =>
      match rest with
      | [] => e
      | _ => (e ++ sep ++ Join rest sep)%string
      end
  end.

(** [strings.HasPrefix(s, prefix)]; [strings.Index(s, prefix) == 0] is the
    same test for a prefix that is not empty. *)
Fixpoint HasPrefix (s prefix : string) : bool :=
  match prefix with
  | EmptyString => true
  | String p prefix' =>
      match s with
      | EmptyString => false
      | String c s' => Ascii.eqb c p && HasPrefix s' prefix'
      end
  end.

(** [strings.Replace(s, old, new, -1)] for one-byte [old] and [new]. *)
Fixpoint ReplaceAll (s : string) (old new : ascii) : string :=
  match s with
  | EmptyString => EmptyString
  | String c s' =>
      String (if Ascii.eqb c old then new else c) (ReplaceAll s' old new)
  end.

End gostrings.

Definition dash : ascii := "-"%char.
Definition underscore : ascii := "_"%char.

(** The elements of a list of strings in the order of their first
    occurrence, each of them once. *)
Fixpoint firstOccurrences (l : list string) : list string :=
  match l with
  | [] => []
  | x :: rest => x :: filter (fun y => y <> x) (firstOccurrences rest)
  end.

(** ** builder.go: the arguments of a command *)

Section Arguments.
Context `{Collaborators}.

(** [os.Args], the command line of the process, and the world of the
    category expander function: the discovery client and its server. *)
Variable os_Args : list string.
Variable W : Type.

(** The fields of Builder are set one at a time. *)
Definition set_resources (b : Builder) (x : list string) : Builder :=
  mkBuilder (b_mapper b) (clientConfigFn b) (restMapperFn b) (objectTyper b)
    (negotiatedSerializer b) (errs b) (paths b) (stream b) (stdinInUse b)
    (dir b) (visitorConcurrency b) (labelSelector b) (fieldSelector b)
    (selectAll b) (limitChunks b) (requestTransforms b) x (subresource b)
    (namespace b) (allNamespace b) (names b) (resourceTuples b)
    (defaultNamespace b) (requireNamespace b) (flatten b) (latest b)
    (requireObject b) (singleResourceType b) (continueOnError b)
    (b_singleItemImplied b) (fakeClientFn b).

Definition set_names (b : Builder) (x : list string) : Builder :=
  mkBuilder (b_mapper b) (clientConfigFn b) (restMapperFn b) (objectTyper b)
    (negotiatedSerializer b) (errs b) (paths b) (stream b) (stdinInUse b)
    (dir b) (visitorConcurrency b) (labelSelector b) (fieldSelector b)
    (selectAll b) (limitChunks b) (requestTransforms b) (resources b)
    (subresource b) (namespace b) (allNamespace b) x (resourceTuples b)
    (defaultNamespace b) (requireNamespace b) (flatten b) (latest b)
    (requireObject b) (singleResourceType b) (continueOnError b)
    (b_singleItemImplied b) (fakeClientFn b).

Definition set_selectAll (b : Builder) (x : bool) : Builder :=
  mkBuilder (b_mapper b) (clientConfigFn b) (restMapperFn b) (objectTyper b)
    (negotiatedSerializer b) (errs b) (paths b) (stream b) (stdinInUse b)
    (dir b) (visitorConcurrency b) (labelSelector b) (fieldSelector b) x
    (limitChunks b) (requestTransforms b) (resources b) (subresource b)
    (namespace b) (allNamespace b) (names b) (resourceTuples b)
    (defaultNamespace b) (requireNamespace b) (flatten b) (latest b)
    (requireObject b) (singleResourceType b) (continueOnError b)
    (b_singleItemImplied b) (fakeClientFn b).

Definition set_fieldSelector (b : Builder) (x : option string) : Builder :=
  mkBuilder (b_mapper b) (clientConfigFn b) (restMapperFn b) (objectTyper b)
    (negotiatedSerializer b) (errs b) (paths b) (stream b) (stdinInUse b)
    (dir b) (visitorConcurrency b) (labelSelector b) x (selectAll b)
    (limitChunks b) (requestTransforms b) (resources b) (subresource b)
    (namespace b) (allNamespace b) (names b) (resourceTuples b)
    (defaultNamespace b) (requireNamespace b) (flatten b) (latest b)
    (requireObject b) (singleResourceType b) (continueOnError b)
    (b_singleItemImplied b) (fakeClientFn b).

Definition set_namespace (b : Builder) (x : string) : Builder :=
  mkBuilder (b_mapper b) (clientConfigFn b) (restMapperFn b) (objectTyper b)
    (negotiatedSerializer b) (errs b) (paths b) (stream b) (stdinInUse b)
    (dir b) (visitorConcurrency b) (labelSelector b) (fieldSelector b)
    (selectAll b) (limitChunks b) (requestTransforms b) (resources b)
    (subresource b) x (allNamespace b) (names b) (resourceTuples b)
    (defaultNamespace b) (requireNamespace b) (flatten b) (latest b)
    (requireObject b) (singleResourceType b) (continueOnError b)
    (b_singleItemImplied b) (fakeClientFn b).

Definition set_allNamespace (b : Builder) (x : bool) : Builder :=
  mkBuilder (b_mapper b) (clientConfigFn b) (restMapperFn b) (objectTyper b)
    (negotiatedSerializer b) (errs b) (paths b) (stream b) (stdinInUse b)
    (dir b) (visitorConcurrency b) (labelSelector b) (fieldSelector b)
    (selectAll b) (limitChunks b) (requestTransforms b) (resources b)
    (subresource b) (namespace b) x (names b) (resourceTuples b)
    (defaultNamespace b) (requireNamespace b) (flatten b) (latest b)
    (requireObject b) (singleResourceType b) (continueOnError b)
    (b_singleItemImplied b) (fakeClientFn b).

Definition set_paths (b : Builder) (x : list Visitor) : Builder :=
  mkBuilder (b_mapper b) (clientConfigFn b) (restMapperFn b) (objectTyper b)
    (negotiatedSerializer b) (errs b) x (stream b) (stdinInUse b) (dir b)
    (visitorConcurrency b) (labelSelector b) (fieldSelector b) (selectAll b)
    (limitChunks b) (requestTransforms b) (resources b) (subresource b)
    (namespace b) (allNamespace b) (names b) (resourceTuples b)
    (defaultNamespace b) (requireNamespace b) (flatten b) (latest b)
    (requireObject b) (singleResourceType b) (continueOnError b)
    (b_singleItemImplied b) (fakeClientFn b).

Definition set_stream (b : Builder) (x : bool) : Builder :=
  mkBuilder (b_mapper b) (clientConfigFn b) (restMapperFn b) (objectTyper b)
    (negotiatedSerializer b) (errs b) (paths b) x (stdinInUse b) (dir b)
    (visitorConcurrency b) (labelSelector b) (fieldSelector b) (selectAll b)
    (limitChunks b) (requestTransforms b) (resources b) (subresource b)
    (namespace b) (allNamespace b) (names b) (resourceTuples b)
    (defaultNamespace b) (requireNamespace b) (flatten b) (latest b)
    (requireObject b) (singleResourceType b) (continueOnError b)
    (b_singleItemImplied b) (fakeClientFn b).

Definition set_stdinInUse (b : Builder) (x : bool) : Builder :=
  mkBuilder (b_mapper b) (clientConfigFn b) (restMapperFn b) (objectTyper b)
    (negotiatedSerializer b) (errs b) (paths b) (stream b) x (dir b)
    (visitorConcurrency b) (labelSelector b) (fieldSelector b) (selectAll b)
    (limitChunks b) (requestTransforms b) (resources b) (subresource b)
    (namespace b) (allNamespace b) (names b) (resourceTuples b)
    (defaultNamespace b) (requireNamespace b) (flatten b) (latest b)
    (requireObject b) (singleResourceType b) (continueOnError b)
    (b_singleItemImplied b) (fakeClientFn b).

Definition set_dir (b : Builder) (x : bool) : Builder :=
  mkBuilder (b_mapper b) (clientConfigFn b) (restMapperFn b) (objectTyper b)
    (negotiatedSerializer b) (errs b) (paths b) (stream b) (stdinInUse b) x
    (visitorConcurrency b) (labelSelector b) (fieldSelector b) (selectAll b)
    (limitChunks b) (requestTransforms b) (resources b) (subresource b)
    (namespace b) (allNamespace b) (names b) (resourceTuples b)
    (defaultNamespace b) (requireNamespace b) (flatten b) (latest b)
    (requireObject b) (singleResourceType b) (continueOnError b)
    (b_singleItemImplied b) (fakeClientFn b).

Definition set_requireNamespace (b : Builder) (x : bool) : Builder :=
  mkBuilder (b_mapper b) (clientConfigFn b) (restMapperFn b) (objectTyper b)
    (negotiatedSerializer b) (errs b) (paths b) (stream b) (stdinInUse b)
    (dir b) (visitorConcurrency b) (labelSelector b) (fieldSelector b)
    (selectAll b) (limitChunks b) (requestTransforms b) (resources b)
    (subresource b) (namespace b) (allNamespace b) (names b)
    (resourceTuples b) (defaultNamespace b) x (flatten b) (latest b)
    (requireObject b) (singleResourceType b) (continueOnError b)
    (b_singleItemImplied b) (fakeClientFn b).

Definition set_b_singleItemImplied (b : Builder) (x : bool) : Builder :=
  mkBuilder (b_mapper b) (clientConfigFn b) (restMapperFn b) (objectTyper b)
    (negotiatedSerializer b) (errs b) (paths b) (stream b) (stdinInUse b)
    (dir b) (visitorConcurrency b) (labelSelector b) (fieldSelector b)
    (selectAll b) (limitChunks b) (requestTransforms b) (resources b)
    (subresource b) (namespace b) (allNamespace b) (names b)
    (resourceTuples b) (defaultNamespace b) (requireNamespace b) (flatten b)
    (latest b) (requireObject b) (singleResourceType b) (continueOnError b) x
    (fakeClientFn b).

Definition set_b_mapper (b : Builder) (x : option mapper) : Builder :=
  mkBuilder x (clientConfigFn b) (restMapperFn b) (objectTyper b)
    (negotiatedSerializer b) (errs b) (paths b) (stream b) (stdinInUse b)
    (dir b) (visitorConcurrency b) (labelSelector b) (fieldSelector b)
    (selectAll b) (limitChunks b) (requestTransforms b) (resources b)
    (subresource b) (namespace b) (allNamespace b) (names b)
    (resourceTuples b) (defaultNamespace b) (requireNamespace b) (flatten b)
    (latest b) (requireObject b) (singleResourceType b) (continueOnError b)
    (b_singleItemImplied b) (fakeClientFn b).

Definition set_objectTyper (b : Builder) (x : option ObjectTyper) : Builder :=
  mkBuilder (b_mapper b) (clientConfigFn b) (restMapperFn b) x
    (negotiatedSerializer b) (errs b) (paths b) (stream b) (stdinInUse b)
    (dir b) (visitorConcurrency b) (labelSelector b) (fieldSelector b)
    (selectAll b) (limitChunks b) (requestTransforms b) (resources b)
    (subresource b) (namespace b) (allNamespace b) (names b)
    (resourceTuples b) (defaultNamespace b) (requireNamespace b) (flatten b)
    (latest b) (requireObject b) (singleResourceType b) (continueOnError b)
    (b_singleItemImplied b) (fakeClientFn b).

Definition set_negotiatedSerializer (b : Builder) (x : option NegotiatedSerializer) : Builder :=
  mkBuilder (b_mapper b) (clientConfigFn b) (restMapperFn b) (objectTyper b) x
    (errs b) (paths b) (stream b) (stdinInUse b) (dir b)
    (visitorConcurrency b) (labelSelector b) (fieldSelector b) (selectAll b)
    (limitChunks b) (requestTransforms b) (resources b) (subresource b)
    (namespace b) (allNamespace b) (names b) (resourceTuples b)
    (defaultNamespace b) (requireNamespace b) (flatten b) (latest b)
    (requireObject b) (singleResourceType b) (continueOnError b)
    (b_singleItemImplied b) (fakeClientFn b).


Definition set_clientConfigFn (b : Builder) (x : option ClientConfigFunc)
  : Builder :=
  mkBuilder (b_mapper b) x (restMapperFn b) (objectTyper b)
    (negotiatedSerializer b) (errs b) (paths b) (stream b) (stdinInUse b)
    (dir b) (visitorConcurrency b) (labelSelector b) (fieldSelector b)
    (selectAll b) (limitChunks b) (requestTransforms b) (resources b)
    (subresource b) (namespace b) (allNamespace b) (names b)
    (resourceTuples b) (defaultNamespace b) (requireNamespace b) (flatten b)
    (latest b) (requireObject b) (singleResourceType b) (continueOnError b)
    (b_singleItemImplied b) (fakeClientFn b).

Definition set_fakeClientFn (b : Builder)
    (x : option (GroupVersion -> result RESTClient)) : Builder :=
  mkBuilder (b_mapper b) (clientConfigFn b) (restMapperFn b) (objectTyper b)
    (negotiatedSerializer b) (errs b) (paths b) (stream b) (stdinInUse b)
    (dir b) (visitorConcurrency b) (labelSelector b) (fieldSelector b)
    (selectAll b) (limitChunks b) (requestTransforms b) (resources b)
    (subresource b) (namespace b) (allNamespace b) (names b)
    (resourceTuples b) (defaultNamespace b) (requireNamespace b) (flatten b)
    (latest b) (requireObject b) (singleResourceType b) (continueOnError b)
    (b_singleItemImplied b) x.

(** newBuilder: the two function fields and requireObject are set, every
    other field has the zero value of its type.  (The third argument, the
    category expander function, is the argument [fn] of ReplaceAliases
    below.) *)
Definition newBuilder (clientConfigFn : option ClientConfigFunc)
    (restMapper : option (result (option RESTMapper))) : Builder :=
  mkBuilder None clientConfigFn restMapper None None [] [] false false false 0
    None None false 0 [] [] "" "" false [] [] false false false false true
    false false false None.

Definition NewFakeBuilder (fakeClientFn : option (GroupVersion -> result RESTClient))
    (restMapper : option (result (option RESTMapper))) : Builder :=
  let ret := newBuilder None restMapper in
  set_fakeClientFn ret fakeClientFn.

(** AddError; [None] is a nil error. *)
Definition AddError (b : Builder) (e : option error) : Builder :=
  match e with
  | None => b
  | Some e => set_errs b (errs b ++ [e])
  end.

(** ResourceTypes is a list of types of resources to operate on, when
    listing objects on the server or retrieving objects that match a
    selector. *)
Definition ResourceTypes (b : Builder) (types : list string) : Builder :=
  set_resources b (resources b ++ types).

(** The name that hasCombinedTypeArgs gives the command in its message. *)
Definition baseCmd : string :=
  match os_Args with
  | [] => "cmd"
  | arg0 :: _ => List.last (strings.Split arg0 slash) ""
  end.

Definition combinedTypeArgsError : error :=
  Errorf "there is no need to specify a resource type as a separate argument when passing arguments in resource/name form (e.g. '%s get resource/<resource_name>' instead of '%s get resource resource/<resource_name>'"
         [baseCmd; baseCmd].

Definition hasCombinedTypeArgs (args : list string) : bool * option error :=
  let hasSlash := length (filter (fun s => strings.Contains s slash = true) args) in
  if (0 <? hasSlash)%nat && (hasSlash =? length args)%nat then (true, None)
  else if (0 <? hasSlash)%nat && negb (hasSlash =? length args)%nat
       then (true, Some combinedTypeArgsError)
       else (false, None).

(** Normalize args convert multiple resources to resource tuples, a,b,c d
    as a transform to a/d b/d c/d. *)
Definition normalizeMultipleResourcesArgs (args : list string) : list string :=
  match args with
  | arg0 :: (_ :: _) as names =>
      let resources := SplitResourceArgument arg0 in
      if (1 <? length resources)%nat
      then flat_map (fun resource =>
                       map (fun name => gostrings.Join [resource; name] "/") names)
                    resources
      else args
  | _ => args
  end.

(** HasNames returns true if the provided args contain resource names. *)
Definition HasNames (args : list string) : bool * option error :=
  let args := normalizeMultipleResourcesArgs args in
  match hasCombinedTypeArgs args with
  | (_, Some e) => (false, Some e)
  | (hasCombinedTypes, None) => (hasCombinedTypes || (1 <? length args)%nat, None)
  end.

(** [restmapper.CategoryExpander]: its method Expand. *)
Definition CategoryExpander : Type := string -> list GroupResource * bool.

(** The name of an expanded resource in ReplaceAliases. *)
Definition aliasName (resource : GroupResource) : string :=
  if strEmpty (gr_Group resource) then gr_Resource resource
  else (gr_Resource resource ++ "." ++ gr_Group resource)%string.

(** ReplaceAliases accepts an argument and tries to expand any existing
    aliases found in it.  [fn] is the field categoryExpanderFn of the
    receiver, [None] for nil; it is called once for every piece of the
    input, in the world [W] that the earlier calls have left, and may answer
    differently each time.  The method Expand of a nil expander panics.
    The Builder returned is the receiver after the call. *)
Fixpoint ReplaceAliases_loop (fn : option (CategoryExpanderFunc CategoryExpander W))
    (b : Builder) (args : list string) (replaced : list string) (w : W)
  : outcome (list string * Builder * W) :=
  match args with
  | [] => Returns (replaced, b, w)
  | arg :: rest =>
      match fn with
      | None => ReplaceAliases_loop fn b rest replaced w
      | Some categoryExpanderFn =>
          match categoryExpanderFn w with
          | (Err e, w) =>
              ReplaceAliases_loop fn (AddError b (Some e)) rest replaced w
          | (Ok None, _) => Panics
          | (Ok (Some categoryExpander), w) =>
              let arg :=
                match categoryExpander arg with
                | (resources, true) => gostrings.Join (map aliasName resources) ","
                | (_, false) => arg
                end in
              ReplaceAliases_loop fn b rest (replaced ++ [arg]) w
          end
      end
  end.

Definition ReplaceAliases (fn : option (CategoryExpanderFunc CategoryExpander W))
    (b : Builder) (input : string) (w : W) : outcome (string * Builder * W) :=
  match ReplaceAliases_loop fn b (strings.Split input comma) [] w with
  | Panics => Panics
  | Returns (replaced, b, w) => Returns (gostrings.Join replaced ",", b, w)
  end.

(** The loop of ResourceTypeOrNameArgs over arguments of the form
    type/name. *)
Fixpoint ResourceTypeOrNameArgs_tuples (b : Builder) (args : list string)
  : Builder :=
  match args with
  | [] => b
  | s :: rest =>
      match splitResourceTypeName s with
      | (_, _, Some e) => set_errs b (errs b ++ [e])
      | (tuple, true, None) =>
          ResourceTypeOrNameArgs_tuples
            (set_resourceTuples b (resourceTuples b ++ [tuple])) rest
      | (_, false, None) => ResourceTypeOrNameArgs_tuples b rest
      end
  end.

Definition argumentsError : error :=
  Errorf "arguments must consist of a resource or a resource and name" [].

(** The switch on the number of arguments that ends ResourceTypeOrNameArgs.
    The reads [args[0]], [args[1]] and [args[1:]] are under a test of the
    length of [args]. *)
Definition ResourceTypeOrNameArgs_types (b : Builder)
    (allowEmptySelector : bool) (args : list string) : Builder :=
  if (2 <? length args)%nat then
    ResourceTypes (set_names b (names b ++ tail args))
                  (SplitResourceArgument (hd "" args))
  else if (length args =? 2)%nat then
    ResourceTypes (set_names b (names b ++ [nth 1 args ""]))
                  (SplitResourceArgument (hd "" args))
  else if (length args =? 1)%nat then
    let b := ResourceTypes b (SplitResourceArgument (hd "" args)) in
    if negb (is_Some_b (labelSelector b)) && allowEmptySelector
    then set_labelSelector b (Some labels_Everything_String)
    else b
  else if (length args =? 0)%nat then b
  else set_errs b (errs b ++ [argumentsError]).

(** ResourceTypeOrNameArgs indicates that the builder should accept
    arguments of the form [(<type1>[,<type2>,...]|<type> <name1>[,<name2>,...])].
    [fn] is the field categoryExpanderFn of the receiver, as for
    ReplaceAliases. *)
Definition ResourceTypeOrNameArgs
    (fn : option (CategoryExpanderFunc CategoryExpander W))
    (b : Builder) (allowEmptySelector : bool) (args : list string) (w : W)
  : outcome (Builder * W) :=
  let args := normalizeMultipleResourcesArgs args in
  match hasCombinedTypeArgs args with
  | (true, Some e) => Returns (set_errs b (errs b ++ [e]), w)
  | (true, None) => Returns (ResourceTypeOrNameArgs_tuples b args, w)
  | (false, _) =>
      match args with
      | [] => Returns (ResourceTypeOrNameArgs_types b allowEmptySelector args, w)
      | arg0 :: rest =>
          (* Try replacing aliases only in types *)
          match ReplaceAliases fn b arg0 w with
          | Panics => Panics
          | Returns (arg0, b, w) =>
              Returns (ResourceTypeOrNameArgs_types b allowEmptySelector
                         (arg0 :: rest), w)
          end
      end
  end.

End Arguments.

Arguments ReplaceAliases_loop {_ W}.
Arguments ReplaceAliases {_ W}.
Arguments ResourceTypeOrNameArgs {_} os_Args {W}.


(** ** builder.go: selectors, namespaces and sources *)

Section Sources.
Context `{Collaborators}.

(** What these methods take from the operating system, from package
    [strings], [net/url] and [path/filepath], and from visitor.go. *)
Variable TrimSpace : string -> string.               (** [strings.TrimSpace] *)
Variable FileVisitorForSTDIN : option mapper -> Visitor.
Variable KustomizeVisitor : option mapper -> string -> Visitor.
Variable os_Stat : string -> option error.           (** the error of [os.Stat] *)
Variable os_IsNotExist : option error -> bool.
Variable ExpandPathsToFileVisitors :
  option mapper -> string -> bool -> list string -> list Visitor * option error.
Variable filepath_Glob : string -> list string * option error.
Variable isErrBadPattern : error -> bool.   (** [err == filepath.ErrBadPattern] *)
Variable url_Parse : string -> result string.   (** the URL, by its [String()] *)
Variable Sprint_strings : list string -> string.     (** [%v] of a [[]string] *)

Definition FileExtensions : list string := [".json"; ".yaml"; ".yml"].
Definition defaultHttpGetAttempts : Z := 3.
Definition pathNotExistError : string := "the path %q does not exist".

Definition StdinMultiUseError : error :=
  Errorf "standard input cannot be used for multiple arguments" [].

Record FilenameOptions : Type := mkFilenameOptions {
  Filenames : list string;
  Kustomize : string;
  Recursive : bool;
}.

Definition FilenameOptions_validate (o : FilenameOptions) : list error :=
  let errs : list error := [] in
  let errs :=
    if negb (isEmpty (Filenames o)) && negb (strEmpty (Kustomize o))
    then errs ++ [Errorf "only one of -f or -k can be specified" []]
    else errs in
  if negb (strEmpty (Kustomize o)) && Recursive o
  then errs ++ [Errorf "the -k flag can't be used with -f or -R" []]
  else errs.

Definition RequireFilenameOrKustomize (o : FilenameOptions) : option error :=
  if isEmpty (Filenames o) && strEmpty (Kustomize o)
  then Some (Errorf "must specify one of -f and -k" [])
  else None.

(** LabelSelector accepts a selector directly and will filter the resulting
    list by that object. *)
Definition LabelSelector (b : Builder) (selector : string) : Builder :=
  if strEmpty selector then b else set_labelSelector b (Some selector).

(** LabelSelectorParam defines a selector that should be applied to the
    object types to load.  If the parameter is empty it is a no-op. *)
Definition LabelSelectorParam (b : Builder) (s : string) : Builder :=
  let selector := TrimSpace s in
  if strEmpty selector then b
  else if selectAll b then
    set_errs b (errs b ++
      [Errorf "found non-empty label selector %q with previously set 'all' parameter. " [s]])
  else LabelSelector b selector.

(** FieldSelectorParam; the message carries the trimmed selector. *)
Definition FieldSelectorParam (b : Builder) (s : string) : Builder :=
  let s := TrimSpace s in
  if strEmpty s then b
  else if selectAll b then
    set_errs b (errs b ++
      [Errorf "found non-empty field selector %q with previously set 'all' parameter. " [s]])
  else set_fieldSelector b (Some s).

Definition selectAllError : error :=
  Errorf "setting 'all' parameter but found a non empty selector. " [].

Definition SelectAllParam (b : Builder) (all : bool) : Builder :=
  if all && (is_Some_b (labelSelector b) || is_Some_b (fieldSelector b))
  then set_errs b (errs b ++ [selectAllError])
  else set_selectAll b all.

(** [metav1.NamespaceAll] *)
Definition NamespaceAll : string := "".

Definition NamespaceParam (b : Builder) (ns : string) : Builder :=
  set_namespace b ns.

(** AllNamespaces instructs the builder to metav1.NamespaceAll as a
    namespace to request resources across all of the namespace. *)
Definition AllNamespaces (b : Builder) (all : bool) : Builder :=
  let b := if all then set_namespace b NamespaceAll else b in
  set_allNamespace b all.

Definition RequireNamespace_ (b : Builder) : Builder := set_requireNamespace b true.

(** Stdin will read objects from the standard input. *)
Definition Stdin (b : Builder) : Builder :=
  let b := set_stream b true in
  let b := if stdinInUse b then set_errs b (errs b ++ [StdinMultiUseError]) else b in
  let b := set_stdinInUse b true in
  set_paths b (paths b ++ [FileVisitorForSTDIN (b_mapper b)]).

(** StdinInUse marks standard input as taken by someone else. *)
Definition StdinInUse (b : Builder) : Builder :=
  let b := if stdinInUse b then set_errs b (errs b ++ [StdinMultiUseError]) else b in
  set_stdinInUse b true.

(** Stream will read objects from the provided reader; the reader is part
    of the world, the visitor is known by its name. *)
Definition Stream (b : Builder) (name : string) : Builder :=
  let b := set_stream b true in
  set_paths b (paths b ++ [StreamVisitor name]).

(** URL accepts a number of URLs directly. *)
Definition URL (b : Builder) (httpAttemptCount : Z) (urls : list string) : Builder :=
  set_paths b (paths b ++ map URLVisitor urls).

Fixpoint Path_loop (b : Builder) (recursive : bool) (ps : list string) : Builder :=
  match ps with
  | [] => b
  | p :: rest =>
      let e := os_Stat p in
      if os_IsNotExist e then
        Path_loop (set_errs b (errs b ++ [Errorf pathNotExistError [p]])) recursive rest
      else
        match e with
        | Some e =>
            Path_loop
              (set_errs b (errs b ++
                 [Errorf "the path %q cannot be accessed: %v" [p; Sprint_error e]]))
              recursive rest
        | None =>
            let '(visitors, e) :=
              ExpandPathsToFileVisitors (b_mapper b) p recursive FileExtensions in
            let b :=
              match e with
              | Some e =>
                  set_errs b (errs b ++
                    [Errorf "error reading %q: %v" [p; Sprint_error e]])
              | None => b
              end in
            let b := if (1 <? length visitors)%nat then set_dir b true else b in
            Path_loop (set_paths b (paths b ++ visitors)) recursive rest
        end
  end.

(** Path accepts a set of paths that may be files, directories (all can
    containing one or more resources). *)
Definition Path (b : Builder) (recursive : bool) (ps : list string) : Builder :=
  let b := Path_loop b recursive ps in
  if isEmpty (paths b) && isEmpty (errs b)
  then set_errs b (errs b ++
         [Errorf "error reading %v: recognized file extensions are %v"
                 [Sprint_strings ps; Sprint_strings FileExtensions]])
  else b.

(** expandIfFilePattern returns all the filenames that match the input
    pattern or the filename if it is a specific filename and not a
    pattern.  Both components of the Go result are kept. *)
Definition expandIfFilePattern (pattern : string) : list string * option error :=
  if os_IsNotExist (os_Stat pattern) then
    let '(matches, e) := filepath_Glob pattern in
    if negb (is_Some_b e) && isEmpty matches then
      ([], Some (Errorf pathNotExistError [pattern]))
    else
      match e with
      | Some e' =>
          if isErrBadPattern e'
          then ([], Some (Errorf "pattern %q is not valid: %v" [pattern; Sprint_error e']))
          else (matches, e)
      | None => (matches, e)
      end
  else ([pattern], None).

Fixpoint FilenameParam_loop (b : Builder) (recursive : bool) (paths : list string)
  : Builder :=
  match paths with
  | [] => b
  | s :: rest =>
      if String.eqb s "-" then FilenameParam_loop (Stdin b) recursive rest
      else if gostrings.HasPrefix s "http://" || gostrings.HasPrefix s "https://" then
        match url_Parse s with
        | Err e =>
            FilenameParam_loop
              (set_errs b (errs b ++
                 [Errorf "the URL passed to filename %q is not valid: %v"
                         [s; Sprint_error e]]))
              recursive rest
        | Ok url => FilenameParam_loop (URL b defaultHttpGetAttempts [url]) recursive rest
        end
      else
        match expandIfFilePattern s with
        | (_, Some e) => FilenameParam_loop (set_errs b (errs b ++ [e])) recursive rest
        | (matches, None) =>
            let b := if negb recursive && (length matches =? 1)%nat
                     then set_b_singleItemImplied b true else b in
            FilenameParam_loop (Path b recursive matches) recursive rest
        end
  end.

(** FilenameParam groups input in two categories: URLs and files (files,
    directories, STDIN). *)
Definition FilenameParam (b : Builder) (enforceNamespace : bool)
    (filenameOptions : FilenameOptions) : Builder :=
  match FilenameOptions_validate filenameOptions with
  | (_ :: _) as es => set_errs b (errs b ++ es)
  | [] =>
      let b := FilenameParam_loop b (Recursive filenameOptions)
                                  (Filenames filenameOptions) in
      let b := if negb (strEmpty (Kustomize filenameOptions))
               then set_paths b (paths b ++
                      [KustomizeVisitor (b_mapper b) (Kustomize filenameOptions)])
               else b in
      if enforceNamespace then RequireNamespace_ b else b
  end.

(** What Unstructured and WithScheme take from apimachinery and from
    mapper.go: the typer and the mapper they install. *)
Variable NewUnstructuredObjectTyper : ObjectTyper.
Variable unstructuredMapper : mapper.
Variable NewCodecFactory : ObjectTyper -> NegotiatedSerializer.
Variable WithoutConversion : ObjectTyper -> NegotiatedSerializer.
Variable schemeMapper : ObjectTyper -> list GroupVersion -> mapper.

(** Unstructured updates the builder so that it will request and send
    unstructured objects. *)
Definition Unstructured (b : Builder) : Builder :=
  if is_Some_b (b_mapper b) then
    set_errs b (errs b ++
      [Errorf "another mapper was already selected, cannot use unstructured types" []])
  else
    set_b_mapper (set_objectTyper b (Some NewUnstructuredObjectTyper))
                 (Some unstructuredMapper).

(** WithScheme uses the scheme to manage typing, conversion (optional),
    and decoding. *)
Definition WithScheme (b : Builder) (scheme : ObjectTyper)
    (decodingVersions : list GroupVersion) : Builder :=
  if is_Some_b (b_mapper b) then
    set_errs b (errs b ++
      [Errorf "another mapper was already selected, cannot use internal types" []])
  else
    let b := set_objectTyper b (Some scheme) in
    let negotiatedSerializer :=
      if negb (isEmpty decodingVersions) then WithoutConversion scheme
      else NewCodecFactory scheme in
    let b := set_negotiatedSerializer b (Some negotiatedSerializer) in
    set_b_mapper b (Some (schemeMapper scheme decodingVersions)).

(** The aggregate of the errors is all that visitorResult makes of a
    Builder with errors. *)
Definition failsWith (b : Builder) (e : error) : Prop :=
  In e (errs b) /\
  visitorResult b =
    (Returns (mkResult (Some (Aggregate (errs b))) nilVisitor [] false false
                       None [] None), b).

End Sources.

(** ** More of the Result *)

Section MoreResult.
Context `{Collaborators} {V : Type}.

(** The type assertion [v.(ResourceMapping)] of a source followed by the
    call of its method: [None] when the source has no such method,
    [Some None] when the method returns the nil pointer; and
    [reflect.TypeOf(v)] as [%v] prints it. *)
Variable asResourceMapping : V -> option (option RESTMapping).
Variable TypeOf : V -> string.

Definition set_ignoreErrors (r : Result V) (ms : list Matcher) : Result V :=
  mkResult (err r) (visitor r) (sources r) (singleItemImplied r)
           (targetsSingleItems r) (r_mapper r) ms (info r).

(** IgnoreErrors will filter errors that occur when by visiting the result
    (but not errors that occur by creating the result in the first place),
    eliminating any that match fns. *)
Definition IgnoreErrors (r : Result V) (fns : list Matcher) : Result V :=
  set_ignoreErrors r (ignoreErrors r ++ fns).

Definition singleMappingError : error :=
  Errorf "expected only a single resource type" [].

(** The loop over the sources; [mapping.Resource] dereferences the pointer
    the source returned. *)
Fixpoint ResourceMapping_loop (vs : list V)
    (mappings : gmap GroupVersionResource RESTMapping)
  : outcome (result (gmap GroupVersionResource RESTMapping)) :=
  match vs with
  | [] => Returns (Ok mappings)
  | v :: rest =>
      match asResourceMapping v with
      | None =>
          Returns (Err (Errorf "a resource mapping could not be loaded from %v"
                               [TypeOf v]))
      | Some None => Panics
      | Some (Some mapping) =>
          ResourceMapping_loop rest (<[ Mapping_Resource mapping := mapping ]> mappings)
      end
  end.

(** ResourceMapping returns a single meta.RESTMapping representing the
    resources located by the builder, or an error if more than one mapping
    was found.  Both components of the Go result are kept. *)
Definition Result_ResourceMapping (r : Result V)
  : outcome (option RESTMapping * option error) :=
  match err r with
  | Some e => Returns (None, Some e)
  | None =>
      match ResourceMapping_loop (sources r) ∅ with
      | Panics => Panics
      | Returns (Err e) => Returns (None, Some e)
      | Returns (Ok mappings) =>
          if negb (size mappings =? 1)%nat then Returns (None, Some singleMappingError)
          else match map_to_list mappings with
               | (_, mapping) :: _ => Returns (Some mapping, None)
               | [] => Returns (None, None)
               end
      end
  end.

End MoreResult.

(** ** kubectl's MatchVersionFlags (kubectl_match_version.go) *)

Section MatchVersion.

(** [discovery.CachedDiscoveryInterface], the negotiated serializer of a
    [rest.Config], the fields of a [rest.Config] that [setKubernetesDefaults]
    does not read, and the state of the delegate and of the server it talks
    to. *)
Variables (DiscoveryClient Serializer ConfigRest W : Type).

(** [discovery.MatchesServerVersion(version.Get(), client)], which asks the
    server for its version; [scheme.Codecs.WithoutConversion()]. *)
Variable MatchesServerVersion : DiscoveryClient -> W -> option error * W.
Variable scheme_Codecs_WithoutConversion : Serializer.

Record rest_Config : Type := mkConfig {
  cfg_GroupVersion : option GroupVersion;
  cfg_APIPath : string;
  cfg_NegotiatedSerializer : option Serializer;
  cfg_others : ConfigRest;
}.

(** [rest.SetKubernetesDefaults(config)]: it may change the config it is
    given and returns an error or nil. *)
Variable rest_SetKubernetesDefaults : rest_Config -> rest_Config * option error.

(** [genericclioptions.RESTClientGetter], the three methods used here.
    [ToRESTConfig] returns a pointer, which can be nil without an error. *)
Record RESTClientGetter : Type := mkGetter {
  D_ToRESTConfig : W -> result (option rest_Config) * W;
  D_ToDiscoveryClient : W -> result DiscoveryClient * W;
  D_ToRESTMapper : W -> result RESTMapper * W;
}.

(** [checkServerVersion] is the [sync.Once]: [true] once its function has
    run.  [Delegate] is an interface value, [None] when nil. *)
Record MatchVersionFlags : Type := mkMatchVersionFlags {
  Delegate : option RESTClientGetter;
  RequireMatchedServerVersion : bool;
  checkServerVersion : bool;
  matchesServerVersionErr : option error;
}.

Definition set_RequireMatchedServerVersion (f : MatchVersionFlags) (b : bool)
  : MatchVersionFlags :=
  mkMatchVersionFlags (Delegate f) b (checkServerVersion f) (matchesServerVersionErr f).
Definition set_checkServerVersion (f : MatchVersionFlags) (b : bool)
  : MatchVersionFlags :=
  mkMatchVersionFlags (Delegate f) (RequireMatchedServerVersion f) b
                      (matchesServerVersionErr f).
Definition set_matchesServerVersionErr (f : MatchVersionFlags) (e : option error)
  : MatchVersionFlags :=
  mkMatchVersionFlags (Delegate f) (RequireMatchedServerVersion f)
                      (checkServerVersion f) e.

Definition NewMatchVersionFlags (delegate : option RESTClientGetter)
  : MatchVersionFlags :=
  mkMatchVersionFlags delegate false false None.

Definition checkMatchingServerVersion (f : MatchVersionFlags) (w : W)
  : outcome (option error * MatchVersionFlags * W) :=
  if checkServerVersion f then Returns (matchesServerVersionErr f, f, w)
  else
    let f := set_checkServerVersion f true in
    if negb (RequireMatchedServerVersion f)
    then Returns (matchesServerVersionErr f, f, w)
    else
      match Delegate f with
      | None => Panics
      | Some d =>
          match D_ToDiscoveryClient d w with
          | (Err e, w) => Returns (Some e, set_matchesServerVersionErr f (Some e), w)
          | (Ok discoveryClient, w) =>
              let '(e, w) := MatchesServerVersion discoveryClient w in
              Returns (e, set_matchesServerVersionErr f e, w)
          end
      end.

(** setKubernetesDefaults sets default values on the provided client config
    for accessing the Kubernetes API or returns an error if any of the
    defaults are impossible or invalid. *)
Definition setKubernetesDefaults (config : rest_Config)
  : rest_Config * option error :=
  let config := mkConfig (Some (GV "" "v1")) (cfg_APIPath config)
                         (cfg_NegotiatedSerializer config) (cfg_others config) in
  let config :=
    if strEmpty (cfg_APIPath config)
    then mkConfig (cfg_GroupVersion config) "/api"
                  (cfg_NegotiatedSerializer config) (cfg_others config)
    else config in
  let config :=
    match cfg_NegotiatedSerializer config with
    | None => mkConfig (cfg_GroupVersion config) (cfg_APIPath config)
                       (Some scheme_Codecs_WithoutConversion) (cfg_others config)
    | Some _ => config
    end in
  rest_SetKubernetesDefaults config.

(** ToRESTConfig implements RESTClientGetter. *)
Definition ToRESTConfig (f : MatchVersionFlags) (w : W)
  : outcome (result rest_Config * MatchVersionFlags * W) :=
  match checkMatchingServerVersion f w with
  | Panics => Panics
  | Returns (Some e, f, w) => Returns (Err e, f, w)
  | Returns (None, f, w) =>
      match Delegate f with
      | None => Panics
      | Some d =>
          match D_ToRESTConfig d w with
          | (Err e, w) => Returns (Err e, f, w)
          | (Ok None, w) => Panics
          | (Ok (Some clientConfig), w) =>
              Returns (Ok (fst (setKubernetesDefaults clientConfig)), f, w)
          end
      end
  end.

Definition ToDiscoveryClient (f : MatchVersionFlags) (w : W)
  : outcome (result DiscoveryClient * MatchVersionFlags * W) :=
  match checkMatchingServerVersion f w with
  | Panics => Panics
  | Returns (Some e, f, w) => Returns (Err e, f, w)
  | Returns (None, f, w) =>
      match Delegate f with
      | None => Panics
      | Some d => let '(r, w) := D_ToDiscoveryClient d w in Returns (r, f, w)
      end
  end.

(** ToRESTMapper returns a mapper. *)
Definition ToRESTMapper (f : MatchVersionFlags) (w : W)
  : outcome (result RESTMapper * MatchVersionFlags * W) :=
  match checkMatchingServerVersion f w with
  | Panics => Panics
  | Returns (Some e, f, w) => Returns (Err e, f, w)
  | Returns (None, f, w) =>
      match Delegate f with
      | None => Panics
      | Some d => let '(r, w) := D_ToRESTMapper d w in Returns (r, f, w)
      end
  end.

End MatchVersion.

Arguments mkConfig {Serializer ConfigRest}.
Arguments cfg_GroupVersion {Serializer ConfigRest}.
Arguments cfg_APIPath {Serializer ConfigRest}.
Arguments cfg_NegotiatedSerializer {Serializer ConfigRest}.
Arguments cfg_others {Serializer ConfigRest}.
Arguments mkGetter {DiscoveryClient Serializer ConfigRest W}.
Arguments D_ToRESTConfig {DiscoveryClient Serializer ConfigRest W}.
Arguments D_ToDiscoveryClient {DiscoveryClient Serializer ConfigRest W}.
Arguments D_ToRESTMapper {DiscoveryClient Serializer ConfigRest W}.
Arguments mkMatchVersionFlags {DiscoveryClient Serializer ConfigRest W}.
Arguments Delegate {DiscoveryClient Serializer ConfigRest W}.
Arguments RequireMatchedServerVersion {DiscoveryClient Serializer ConfigRest W}.
Arguments checkServerVersion {DiscoveryClient Serializer ConfigRest W}.
Arguments matchesServerVersionErr {DiscoveryClient Serializer ConfigRest W}.
Arguments set_RequireMatchedServerVersion {DiscoveryClient Serializer ConfigRest W}.
Arguments set_checkServerVersion {DiscoveryClient Serializer ConfigRest W}.
Arguments set_matchesServerVersionErr {DiscoveryClient Serializer ConfigRest W}.
Arguments NewMatchVersionFlags {DiscoveryClient Serializer ConfigRest W}.
Arguments checkMatchingServerVersion {DiscoveryClient Serializer ConfigRest W}.
Arguments setKubernetesDefaults {Serializer ConfigRest}.
Arguments ToRESTConfig {DiscoveryClient Serializer ConfigRest W}.
Arguments ToDiscoveryClient {DiscoveryClient Serializer ConfigRest W}.
Arguments ToRESTMapper {DiscoveryClient Serializer ConfigRest W}.

(** ** kubectl's plugin handler (kubectl_match_version.go) *)

(** IsSubcommandPluginAllowed returns the given command is allowed to use
    plugin as subcommand if the subcommand does not exist as builtin. *)
Definition IsSubcommandPluginAllowed (foundCmd : string) : bool :=
  bool_decide (foundCmd ∈ ({["create"]} : gset string)).

Section Plugins.

(** The file system and the processes. *)
Variable W : Type.

(** [exec.LookPath], [shouldSkipOnLookPathErr] and [os.Environ]. *)
Variable exec_LookPath : W -> string -> string * option error.
Variable shouldSkipOnLookPathErr : option error -> bool.
Variable os_Environ : W -> list string.

(** PluginHandler is capable of parsing command line arguments and
    performing executable filename lookups to search for valid plugin files,
    and execute found plugins.  Lookup reads the file system and leaves it
    as it is, as the one of DefaultPluginHandler does. *)
Record PluginHandler : Type := mkPluginHandler {
  Lookup : W -> string -> string * bool;
  Execute : string -> list string -> list string -> W -> option error * W;
}.

(** DefaultPluginHandler implements PluginHandler *)
Record DefaultPluginHandler : Type := NewDefaultPluginHandler {
  ValidPrefixes : list string;
}.

Fixpoint DefaultPluginHandler_Lookup_loop (prefixes : list string) (w : W)
    (filename : string) : string * bool :=
  match prefixes with
  | [] => ("", false)
  | prefix :: rest =>
      let '(path, err) := exec_LookPath w (prefix ++ "-" ++ filename)%string in
      if shouldSkipOnLookPathErr err || strEmpty path
      then DefaultPluginHandler_Lookup_loop rest w filename
      else (path, true)
  end.

(** Lookup implements PluginHandler *)
Definition DefaultPluginHandler_Lookup (h : DefaultPluginHandler) (w : W)
    (filename : string) : string * bool :=
  DefaultPluginHandler_Lookup_loop (ValidPrefixes h) w filename.

(** The first loop of HandlePluginCommand: all "non-flag" arguments, with
    their dashes replaced. *)
Fixpoint nonFlagArgs (cmdArgs : list string) : list string :=
  match cmdArgs with
  | [] => []
  | arg :: rest =>
      if gostrings.HasPrefix arg "-" then []
      else gostrings.ReplaceAll arg dash underscore :: nonFlagArgs rest
  end.

(** The second loop: attempt to find binary, starting at longest possible
    name with given cmdArgs.  [n] is the length of [remainingArgs], which
    the loop shortens from its end; the path found and the length left are
    returned. *)
Fixpoint findBinary (pluginHandler : PluginHandler) (w : W) (exactMatch : bool)
    (remainingArgs : list string) (n : nat) : string * nat :=
  match n with
  | O => ("", O)
  | S n' =>
      let '(path, found) :=
        Lookup pluginHandler w (gostrings.Join (take n remainingArgs) "-") in
      if negb found then
        if exactMatch then ("", n)
        else findBinary pluginHandler w exactMatch remainingArgs n'
      else (path, n)
  end.

(** HandlePluginCommand receives a pluginHandler and command-line arguments
    and attempts to find a plugin executable on the PATH that satisfies the
    given arguments. *)
Definition HandlePluginCommand (pluginHandler : PluginHandler)
    (cmdArgs : list string) (exactMatch : bool) (w : W)
  : outcome (option error * W) :=
  let remainingArgs := nonFlagArgs cmdArgs in
  if (length remainingArgs =? 0)%nat then
    match cmdArgs with
    | [] => Panics
    | arg0 :: _ =>
        Returns (Some (Errorf "flags cannot be placed before plugin name: %s" [arg0]), w)
    end
  else
    let '(foundBinaryPath, n) :=
      findBinary pluginHandler w exactMatch remainingArgs (length remainingArgs) in
    if strEmpty foundBinaryPath then Returns (None, w)
    else Returns (Execute pluginHandler foundBinaryPath (drop n cmdArgs)
                          (os_Environ w) w).

End Plugins.

Arguments mkPluginHandler {W}.
Arguments Lookup {W}.
Arguments Execute {W}.
Arguments DefaultPluginHandler_Lookup {W}.
Arguments DefaultPluginHandler_Lookup_loop {W}.
Arguments findBinary {W}.
Arguments HandlePluginCommand {W}.

(** ** The warning writer (kubectl_match_version.go) *)

(** Go's [int] on a 64-bit platform, with its wrap-around. *)
Definition wrap_int (z : Z) : Z := ((z + 2 ^ 63) mod 2 ^ 64 - 2 ^ 63)%Z.

(** WarningWriterOptions controls the behavior of a WarningHandler
    constructed using NewWarningWriter() *)
Record WarningWriterOptions : Type := mkWarningWriterOptions {
  Deduplicate : bool;
  Color : bool;
}.

(** [ww_out] is what has been written to the writer [out], one entry for
    each call of [fmt.Fprintf], whose error is not looked at; [written] is
    [None] for the nil map.  The methods hold [writtenLock], so that their
    calls run one after the other. *)
Record warningWriter : Type := mkWarningWriter {
  ww_out : list string;
  ww_opts : WarningWriterOptions;
  writtenCount : Z;
  written : option (gset string);
}.

(** NewWarningWriter returns an implementation of WarningHandler that
    outputs code 299 warnings to the specified writer. *)
Definition NewWarningWriter (out : list string) (opts : WarningWriterOptions)
  : warningWriter :=
  let h := mkWarningWriter out opts 0 None in
  if Deduplicate opts
  then mkWarningWriter (ww_out h) (ww_opts h) (writtenCount h) (Some ∅)
  else h.

Definition esc : string := String (ascii_of_nat 27) EmptyString.
Definition yellowColor : string := (esc ++ "[33;1m")%string.
Definition resetColor : string := (esc ++ "[0m")%string.

(** The line that [fmt.Fprintf] writes for a message. *)
Definition warningLine (opts : WarningWriterOptions) (message : string) : string :=
  if Color opts
  then (yellowColor ++ "Warning:" ++ resetColor ++ " " ++ message ++ nl)%string
  else ("Warning: " ++ message ++ nl)%string.

(** HandleWarningHeader prints warnings with code=299 to the configured
    writer.  An assignment into the nil map panics. *)
Definition HandleWarningHeader (w : warningWriter) (code : Z)
    (agent message : string) : outcome warningWriter :=
  if negb (code =? 299)%Z || strEmpty message then Returns w
  else
    let write (w : warningWriter) :=
      mkWarningWriter (ww_out w ++ [warningLine (ww_opts w) message]) (ww_opts w)
                      (wrap_int (writtenCount w + 1)) (written w) in
    if Deduplicate (ww_opts w) then
      if bool_decide (message ∈ default ∅ (written w)) then Returns w
      else
        match written w with
        | None => Panics
        | Some s =>
            Returns (write (mkWarningWriter (ww_out w) (ww_opts w) (writtenCount w)
                                            (Some ({[ message ]} ∪ s))))
        end
    else Returns (write w).

Definition WarningCount (w : warningWriter) : Z := writtenCount w.

(** [net.WarningHeader] *)
Record WarningHeader : Type := mkWarningHeader {
  wh_Code : Z;
  wh_Agent : string;
  wh_Text : string;
}.

Fixpoint handleWarnings_loop (handler : warningWriter)
    (warnings : list WarningHeader) : outcome warningWriter :=
  match warnings with
  | [] => Returns handler
  | warning :: rest =>
      match HandleWarningHeader handler (wh_Code warning) (wh_Agent warning)
                                (wh_Text warning) with
      | Panics => Panics
      | Returns handler => handleWarnings_loop handler rest
      end
  end.

Section HandleWarnings.

(** [net.ParseWarningHeaders] *)
Variable net_ParseWarningHeaders : list string -> list WarningHeader * list error.

(** handleWarnings for a handler that is a warning writer: the handler as
    the calls leave it, and the warnings returned. *)
Definition handleWarnings (headers : gmap string (list string))
    (handler : warningWriter) : outcome (warningWriter * list WarningHeader) :=
  let '(warnings, _) := net_ParseWarningHeaders (default [] (headers !! "Warning")) in
  match handleWarnings_loop handler warnings with
  | Panics => Panics
  | Returns handler => Returns (handler, warnings)
  end.

End HandleWarnings.

(** The messages of the warnings that a warning writer looks at: those of
    code 299 that are not empty. *)
Definition printable (warnings : list WarningHeader) : list string :=
  map wh_Text
      (List.filter (fun h => (wh_Code h =? 299)%Z && negb (strEmpty (wh_Text h)))
                   warnings).

(** The state of a warning writer that has written the lines of [msgs]
    after [out0]: the count is their number, and a writer that deduplicates
    remembers exactly these messages, each of them written once. *)
Definition hasWritten (opts : WarningWriterOptions) (out0 : list string)
    (w : warningWriter) (msgs : list string) : Prop :=
  ww_out w = out0 ++ map (warningLine opts) msgs
  /\ writtenCount w = Z.of_nat (length msgs)
  /\ ww_opts w = opts
  /\ (Deduplicate opts = true ->
      written w = Some (list_to_set msgs) /\ NoDup msgs).

(** ** More of the small cluster *)

Module samples.

Definition os_Args : list string := ["/usr/local/bin/kubectl"; "get"].

(** The category [all] stands for pods and deployments. *)
Definition expander : CategoryExpander :=
  fun category =>
    if String.eqb category "all"
    then ([GR "" "pods"; GR "apps" "deployments"], true)
    else ([], false).

(** Category expander functions; the world counts their calls.  The first
    answers every call with [expander]; the second fails when first asked
    and answers from then on; the third returns neither an expander nor an
    error. *)
Definition expanderFn : CategoryExpanderFunc CategoryExpander nat :=
  fun calls => (Ok (Some expander), S calls).

Definition flakyFn : CategoryExpanderFunc CategoryExpander nat :=
  fun calls =>
    (if (calls =? 0)%nat then Err (OtherError "discovery failed")
     else Ok (Some expander), S calls).

Definition emptyHandedFn : CategoryExpanderFunc CategoryExpander nat :=
  fun calls => (Ok None, S calls).

(** Trimming of the blanks of ASCII, as [strings.TrimSpace] does on a
    string of ASCII. *)
Definition isSpace (c : ascii) : bool :=
  Ascii.eqb c " "%char || (Nat.leb 9 (nat_of_ascii c) && Nat.leb (nat_of_ascii c) 13).

Fixpoint trimLeft (s : string) : string :=
  match s with
  | EmptyString => EmptyString
  | String c s' => if isSpace c then trimLeft s' else s
  end.

Fixpoint trimRight (s : string) : string :=
  match s with
  | EmptyString => EmptyString
  | String c s' =>
      match trimRight s' with
      | EmptyString => if isSpace c then EmptyString else String c EmptyString
      | t => String c t
      end
  end.

Definition TrimSpace (s : string) : string := trimRight (trimLeft s).

(** A directory [dir] with two manifests and a file [pod.yaml]; nothing
    else exists. *)
Definition os_Stat (p : string) : option error :=
  if String.eqb p "dir" || String.eqb p "pod.yaml" then None
  else Some (OtherError "no such file or directory").

Definition os_IsNotExist (e : option error) : bool := is_Some_b e.

Definition ExpandPathsToFileVisitors (m : option mapper) (p : string)
    (recursive : bool) (extensions : list string) : list Visitor * option error :=
  if String.eqb p "dir"
  then ([FileVisitor "dir/a.yaml"; FileVisitor "dir/b.json"], None)
  else ([FileVisitor p], None).

Definition filepath_Glob (pattern : string) : list string * option error :=
  ([], None).

Definition Sprint_strings (l : list string) : string :=
  ("[" ++ gostrings.Join l " " ++ "]")%string.

Definition FileVisitorForSTDIN (m : option mapper) : Visitor := FileVisitor "STDIN".
Definition KustomizeVisitor (m : option mapper) (dirPath : string) : Visitor :=
  FileVisitor dirPath.

(** The sources that report a mapping: an Info reports the one it carries, a
    Selector its own; the other visitors have no such method. *)
Definition asResourceMapping (v : Visitor) : option (option RESTMapping) :=
  match v with
  | InfoVisitor i => Some (Info_Mapping i)
  | Selector _ mapping _ _ _ _ => Some (Some mapping)
  | _ => None
  end.

Definition TypeOf (v : Visitor) : string :=
  match v with
  | InfoVisitor _ => "*resource.Info"
  | Selector _ _ _ _ _ _ => "*resource.Selector"
  | FileVisitor _ => "*resource.FileVisitor"
  | _ => "resource.Visitor"
  end.

(** A Result over the given sources, without stored error. *)
Definition resultOf (sources : list Visitor) : Result Visitor :=
  mkResult None (VisitorList sources) sources false true (Some tt) [] None.

(** A delegate whose discovery fails when first asked and answers from then
    on; the world counts the calls made.  The server is of another version. *)
Definition getter : RESTClientGetter string string unit nat :=
  mkGetter (fun w => (Ok (Some (mkConfig None "" None tt)), S w))
           (fun w => (if (w =? 0)%nat then Err (OtherError "discovery failed")
                      else Ok "discovery", S w))
           (fun w => (Ok demo.restMapper, S w)).

Definition MatchesServerVersion (client : string) (w : nat) : option error * nat :=
  (Some (OtherError "server version differs from client version"), S w).

Definition rest_SetKubernetesDefaults (config : rest_Config string unit)
  : rest_Config string unit * option error :=
  (config, Some (OtherError "no user agent")).

(** A PATH with the one plugin [kubectl-foo].  The world is the list of the
    command lines run so far. *)
Definition exec_LookPath (w : list (list string)) (file : string)
  : string * option error :=
  if String.eqb file "kubectl-foo" then ("/bin/kubectl-foo", None)
  else ("", Some (OtherError "executable file not found in $PATH")).

Definition shouldSkipOnLookPathErr (e : option error) : bool := is_Some_b e.

Definition os_Environ (w : list (list string)) : list string := ["HOME=/root"].

Definition pluginHandler : PluginHandler (list (list string)) :=
  mkPluginHandler
    (DefaultPluginHandler_Lookup exec_LookPath shouldSkipOnLookPathErr
       (NewDefaultPluginHandler ["kubectl"]))
    (fun path args env w => (None, (path :: args) :: w)).

End samples.

(** * Properties *)

(** ** Strings *)

Lemma Split_length (s : string) (sep : ascii) :
  length (strings.Split s sep) = S (strings.Count s sep).
Proof.
  induction s as [|c s IH]; simpl; [reflexivity|].
  destruct (Ascii.eqb c sep); simpl.
  - now rewrite IH.
  - destruct (strings.Split s sep) as [|piece rest]; simpl in *; congruence.
Qed.

Lemma Contains_Count (s : string) (sep : ascii) :
  strings.Contains s sep = negb (strings.Count s sep =? 0)%nat.
Proof.
  induction s as [|c s IH]; simpl; [reflexivity|].
  destruct (Ascii.eqb c sep); simpl; [reflexivity|exact IH].
Qed.

Lemma strEmpty_true (s : string) : strEmpty s = true <-> s = "".
Proof. destruct s; unfold strEmpty; simpl; split; congruence. Qed.

Lemma splitResourceTypeName_no_slash (s : string) :
  strings.Count s slash = 0 ->
  splitResourceTypeName s = (mkTuple "" "", false, None).
Proof.
  intros Hc. unfold splitResourceTypeName.
  now rewrite Contains_Count, Hc.
Qed.

Lemma splitResourceTypeName_many_slashes (s : string) :
  2 <= strings.Count s slash ->
  splitResourceTypeName s = (mkTuple "" "", false, Some moreThanOneSlashError).
Proof.
  intros Hc. unfold splitResourceTypeName.
  rewrite Contains_Count.
  destruct (Nat.eqb_spec (strings.Count s slash) 0) as [?|_]; [lia|]. simpl.
  pose proof (Split_length s slash) as Hlen.
  destruct (strings.Split s slash) as [|a [|b [|c l]]]; simpl in Hlen;
    try reflexivity; lia.
Qed.

Lemma splitResourceTypeName_one_slash (s : string) :
  strings.Count s slash = 1 ->
  exists resource name,
    strings.Split s slash = [resource; name] /\
    splitResourceTypeName s =
      if strEmpty resource || strEmpty name
         || negb (length (SplitResourceArgument resource) =? 1)%nat
      then (mkTuple "" "", false, Some singleResourceAndNameError)
      else (mkTuple resource name, true, None).
Proof.
  intros Hc. unfold splitResourceTypeName.
  rewrite Contains_Count, Hc. simpl.
  pose proof (Split_length s slash) as Hlen. rewrite Hc in Hlen.
  destruct (strings.Split s slash) as [|a [|b [|c l]]]; simpl in Hlen; try lia.
  exists a, b. split; reflexivity.
Qed.

(** ** The type/name tokens (C6) *)

Section TokenProperties.
Context `{Collaborators}.

Lemma ResourceNames_errs_grow (names : list string) :
  forall (b : Builder) (resource : string),
    exists more, errs (ResourceNames b resource names) = errs b ++ more.
Proof.
  induction names as [|name rest IH]; intros b resource; simpl.
  - exists []. now rewrite app_nil_r.
  - destruct (splitResourceTypeName name) as [[tuple ok] [e|]].
    + destruct ok; simpl; eauto.
    + destruct ok; [apply (IH (set_resourceTuples _ _))|].
      destruct (strEmpty resource).
      * destruct (IH (set_errs b (errs b ++
                        [Errorf "the argument %q must be RESOURCE/NAME" [name]]))
                     resource) as [more ->].
        simpl. rewrite <- app_assoc. eauto.
      * apply (IH (set_resourceTuples _ _)).
Qed.

(** A token that the splitter rejects, and a token without slash when
    there is no default type, leave an error, wherever they stand among the
    names. *)
Lemma ResourceNames_bad_token (names : list string) :
  forall (b : Builder) (resource s : string),
    In s names ->
    snd (splitResourceTypeName s) <> None
    \/ (strings.Count s slash = 0 /\ resource = "") ->
    errs (ResourceNames b resource names) <> [].
Proof.
  induction names as [|name rest IH]; intros b resource s Hin Hs; simpl in *.
  - contradiction.
  - destruct (splitResourceTypeName name) as [[tuple ok] [e'|]] eqn:Hname.
    + destruct ok; simpl; intros Habs;
        apply app_eq_nil in Habs as [_ ?]; discriminate.
    + destruct ok.
      * destruct Hin as [->|Hin]; [|now apply (IH _ _ s)].
        rewrite Hname in Hs. destruct Hs as [Hs|[Hc _]]; [now contradiction Hs|].
        rewrite (splitResourceTypeName_no_slash _ Hc) in Hname. discriminate.
      * destruct (strEmpty resource) eqn:Hr.
        -- destruct (ResourceNames_errs_grow rest
                       (set_errs b (errs b ++
                          [Errorf "the argument %q must be RESOURCE/NAME" [name]]))
                       resource) as [more ->].
           simpl. intros Habs. apply app_eq_nil in Habs as [Habs _].
           apply app_eq_nil in Habs as [_ ?]. discriminate.
        -- destruct Hin as [->|Hin]; [|now apply (IH _ _ s)].
           rewrite Hname in Hs. destruct Hs as [Hs|[_ ->]]; [now contradiction Hs|].
           discriminate Hr.
Qed.

Lemma visitorResult_errs (b : Builder) :
  errs b <> [] ->
  visitorResult b =
    (Returns (mkResult (Some (Aggregate (errs b))) nilVisitor [] false false
                       None [] None), b).
Proof.
  intros He. unfold visitorResult, isEmpty, NewAggregate.
  destruct (errs b); [contradiction|reflexivity].
Qed.

(** C6.  The splitter on a token, by the number of its slashes.  Two or
    more: the more-than-one-slash error.  One: the
    single-resource-and-name error when a half is empty or the first half
    names more than one resource, and the tuple of the two halves
    otherwise; so that a token the splitter accepts has exactly one slash,
    two halves that are not empty, and one resource.  None: the splitter
    reports that the token is not of the type/name form, and ResourceNames
    rejects it when it has no default type to pair it with (with a default
    type the token is a name of that type).
    A rejected token leaves an error in the Builder, wherever it stands
    among the names; without a default type that is every token whose
    number of slashes is not one.  visitorResult then returns the aggregate
    of the errors for every Builder, also one whose function fields are
    nil: nothing of the network is called. *)
Theorem type_name_token_validation (s : string) :
  (2 <= strings.Count s slash ->
     splitResourceTypeName s = (mkTuple "" "", false, Some moreThanOneSlashError))
  /\ (strings.Count s slash = 1 ->
       exists resource name,
         strings.Split s slash = [resource; name] /\
         (resource = "" \/ name = ""
          \/ length (SplitResourceArgument resource) <> 1 ->
          splitResourceTypeName s
          = (mkTuple "" "", false, Some singleResourceAndNameError)) /\
         (resource <> "" -> name <> "" ->
          length (SplitResourceArgument resource) = 1 ->
          splitResourceTypeName s = (mkTuple resource name, true, None)))
  /\ (forall t, splitResourceTypeName s = (t, true, None) ->
       strings.Count s slash = 1 /\
       strings.Split s slash = [Resource t; Name t] /\
       Resource t <> "" /\ Name t <> "" /\
       length (SplitResourceArgument (Resource t)) = 1)
  /\ (strings.Count s slash = 0 ->
       splitResourceTypeName s = (mkTuple "" "", false, None) /\
       forall (b : Builder) (resource : string),
         ResourceNames b resource [s] =
           if strEmpty resource
           then set_errs b (errs b ++
                  [Errorf "the argument %q must be RESOURCE/NAME" [s]])
           else set_resourceTuples b (resourceTuples b ++ [mkTuple resource s]))
  /\ (forall (b : Builder) (resource : string) (names : list string),
       In s names ->
       snd (splitResourceTypeName s) <> None
       \/ (strings.Count s slash = 0 /\ resource = "") ->
       let b' := ResourceNames b resource names in
       errs b' <> [] /\
       visitorResult b' =
         (Returns (mkResult (Some (Aggregate (errs b'))) nilVisitor [] false false
                            None [] None), b'))
  /\ (forall (b : Builder) (names : list string),
       In s names -> strings.Count s slash <> 1 ->
       let b' := ResourceNames b "" names in
       errs b' <> [] /\
       visitorResult b' =
         (Returns (mkResult (Some (Aggregate (errs b'))) nilVisitor [] false false
                            None [] None), b')).
Proof.
  split; [apply splitResourceTypeName_many_slashes|].
  split.
  { intros Hc. destruct (splitResourceTypeName_one_slash s Hc)
      as (resource & name & Hsplit & Hres).
    exists resource, name. split; [exact Hsplit|]. rewrite Hres. split.
    - intros Hbad.
      assert (strEmpty resource || strEmpty name
              || negb (length (SplitResourceArgument resource) =? 1)%nat = true)
        as ->; [|reflexivity].
      destruct Hbad as [->|[->|Hlen]]; [reflexivity| |].
      + rewrite orb_true_r. reflexivity.
      + apply Nat.eqb_neq in Hlen. rewrite Hlen. apply orb_true_r.
    - intros Hr Hn Hlen.
      assert (strEmpty resource = false) as ->
        by (destruct (strEmpty resource) eqn:He; [|reflexivity];
            now apply strEmpty_true in He).
      assert (strEmpty name = false) as ->
        by (destruct (strEmpty name) eqn:He; [|reflexivity];
            now apply strEmpty_true in He).
      now rewrite Hlen. }
  split.
  { intros t Ht.
    destruct (strings.Count s slash) as [|[|n]] eqn:Hc.
    - rewrite splitResourceTypeName_no_slash in Ht by exact Hc. discriminate.
    - destruct (splitResourceTypeName_one_slash s Hc)
        as (resource & name & Hsplit & Hres).
      rewrite Hres in Ht.
      destruct (strEmpty resource) eqn:Hr; [discriminate|].
      destruct (strEmpty name) eqn:Hn; [discriminate|]. simpl in Ht.
      destruct (Nat.eqb_spec (length (SplitResourceArgument resource)) 1)
        as [Hlen|_]; [|discriminate].
      injection Ht as <-. simpl. repeat split; try assumption.
      + intros ->. discriminate.
      + intros ->. discriminate.
    - rewrite splitResourceTypeName_many_slashes in Ht by lia. discriminate. }
  split.
  { intros Hc. split; [now apply splitResourceTypeName_no_slash|].
    intros b resource. simpl.
    rewrite splitResourceTypeName_no_slash by exact Hc.
    destruct (strEmpty resource); reflexivity. }
  split.
  { intros b resource names Hin Hs b'.
    assert (errs b' <> []) as Hne
      by (apply (ResourceNames_bad_token _ _ _ s); assumption).
    split; [exact Hne|]. now apply visitorResult_errs. }
  intros b names Hin Hc b'.
  assert (errs b' <> []) as Hne.
  { apply (ResourceNames_bad_token _ _ _ s); [exact Hin|].
    destruct (strings.Count s slash) as [|[|n]] eqn:Hcount.
    - right. auto.
    - contradiction.
    - left. rewrite splitResourceTypeName_many_slashes by lia. discriminate. }
  split; [exact Hne|]. now apply visitorResult_errs.
Qed.

End TokenProperties.

(** The theorem at the token [a/b/c] among names of the default type
    [pods], and at the token [foo] among names without default type, on a
    Builder whose function fields are all nil. *)
Lemma type_name_token_validation_witness :
  splitResourceTypeName "a/b/c" = (mkTuple "" "", false, Some moreThanOneSlashError)
  /\ errs (ResourceNames demo.newBuilder "pods" ["x"; "a/b/c"]) <> []
  /\ (let b' := ResourceNames (NewFakeBuilder None None) "" ["pods/x"; "foo"] in
      errs b' = [Errorf "the argument %q must be RESOURCE/NAME" ["foo"]]
      /\ visitorResult b' =
           (Returns (mkResult (Some (Aggregate (errs b'))) nilVisitor [] false false
                              None [] None), b')).
Proof.
  pose proof (type_name_token_validation "a/b/c") as (H2 & _ & _ & _ & Hb & _).
  pose proof (type_name_token_validation "foo") as (_ & _ & _ & _ & _ & Hfoo).
  split; [apply H2; vm_compute; lia|].
  split.
  - apply (Hb demo.newBuilder "pods" ["x"; "a/b/c"]).
    + simpl. tauto.
    + left. vm_compute. discriminate.
  - split; [reflexivity|].
    apply (Hfoo (NewFakeBuilder None None) ["pods/x"; "foo"]).
    + simpl. tauto.
    + vm_compute. discriminate.
Defined.

(** With a default type a token without slash is a name: [foo] under the
    default type [pods] gives the tuple pods/foo, and no error. *)
Example bare_token_with_default_type :
  errs (ResourceNames demo.newBuilder "pods" ["foo"]) = [] /\
  resourceTuples (ResourceNames demo.newBuilder "pods" ["foo"])
  = [mkTuple "pods" "foo"].
Proof. vm_compute. repeat split; reflexivity. Qed.

(** ** Type resolution (C7) *)

Section MappingProperties.
Context `{Collaborators}.





End MappingProperties.



(** ** The single resource type policy (C8) *)

Section SingleTypeProperties.
Context `{Collaborators}.

Lemma gset_size_gt_1 `{Countable K} (X : gset K) :
  1 < size X <-> exists x y, x ∈ X /\ y ∈ X /\ x <> y.
Proof.
  split.
  - intros Hsize.
    destruct (set_choose_L X) as [x Hx].
    { intros ->. rewrite size_empty in Hsize. lia. }
    destruct (set_choose_L (X ∖ {[ x ]})) as [y Hy].
    { intros Hempty.
      assert (size (X ∖ {[ x ]}) = size X - size ({[ x ]} : gset K)) as Hd
        by (apply size_difference; set_solver).
      rewrite Hempty, size_empty, size_singleton in Hd. lia. }
    exists x, y. set_solver.
  - intros (x & y & Hx & Hy & Hne).
    assert (({[ x ]} ∪ {[ y ]} : gset K) ⊆ X) as Hsub by set_solver.
    apply subseteq_size in Hsub.
    rewrite size_union in Hsub by set_solver.
    rewrite !size_singleton in Hsub. lia.
Qed.

Lemma elem_of_resolvedTypes (b : Builder) (ts : list resourceTuple)
    (x : GroupVersionResource) :
  x ∈ resolvedTypes b ts <->
  exists t m, In t ts /\ mappingFor b (Resource t) = Returns (Ok m) /\ x = Mapping_Resource m.
Proof.
  unfold resolvedTypes. rewrite list_elem_of_omap. split.
  - intros (t & Ht & Hm). apply list_elem_of_In in Ht.
    destruct (mappingFor b (Resource t)) as [[m|]|] eqn:Hmap; try discriminate.
    injection Hm as <-. eauto.
  - intros (t & m & Ht & Hmap & ->). exists t.
    split; [now apply list_elem_of_In|]. now rewrite Hmap.
Qed.

Lemma resourceTupleMappings_loop_ok (b : Builder) (ts : list resourceTuple) :
  forall (mappings : gmap string RESTMapping) (canonical : gset GroupVersionResource),
    (forall r m, mappings !! r = Some m ->
                 mappingFor b r = Returns (Ok m) /\ Mapping_Resource m ∈ canonical) ->
    Forall (fun t => exists m, mappingFor b (Resource t) = Returns (Ok m)) ts ->
    exists mappings',
      resourceTupleMappings_loop b ts mappings canonical
      = Returns (Ok (mappings', canonical ∪ list_to_set (resolvedTypes b ts))).
Proof.
  induction ts as [|t ts IH]; intros mappings canonical Hinv Hall.
  - exists mappings. simpl. do 3 f_equal. set_solver.
  - apply Forall_cons in Hall as [[m Hm] Hall]. simpl.
    unfold resolvedTypes in *. simpl. rewrite Hm. simpl.
    destruct (mappings !! Resource t) as [m0|] eqn:Hlook.
    + destruct (Hinv _ _ Hlook) as [Hm0 Hin].
      rewrite Hm in Hm0. injection Hm0 as <-.
      destruct (IH mappings canonical Hinv Hall) as [mappings' ->].
      exists mappings'. do 3 f_equal. set_solver.
    + destruct (IH (<[ Resource t := m ]> mappings)
                   ({[ Mapping_Resource m ]} ∪ canonical)) as [mappings' ->].
      * intros r m' Hr. destruct (decide (Resource t = r)) as [<-|Hne].
        -- rewrite lookup_insert_eq in Hr. injection Hr as <-.
           split; [exact Hm|set_solver].
        -- rewrite lookup_insert_ne in Hr by exact Hne.
           destruct (Hinv _ _ Hr). split; [assumption|set_solver].
      * exact Hall.
      * exists mappings'. do 3 f_equal. set_solver.
Qed.

Lemma resourceMappings_loop_ok (b : Builder) (rs : list string) :
  forall seen mappings,
    Forall (fun r => exists m, mappingFor b r = Returns (Ok m)) rs ->
    exists mappings', resourceMappings_loop b rs seen mappings = Returns (Ok mappings').
Proof.
  induction rs as [|r rs IH]; intros seen mappings Hall; simpl.
  - eauto.
  - apply Forall_cons in Hall as [[m ->] Hall].
    destruct (bool_decide _); now apply IH.
Qed.

(** C8, as the code has it.  Under the single resource type policy, and
    when every token resolves: for resource tuples the error is raised
    exactly when two tuples resolve to different canonical resources; for
    bulk types the error is raised exactly when more than one type token is
    configured, which is checked before any token is resolved, so that two
    tokens of one and the same type are refused as well. *)
Theorem singleResourceType_check (b : Builder) :
  singleResourceType b = true ->
  (Forall (fun t => exists m, mappingFor b (Resource t) = Returns (Ok m)) (resourceTuples b) ->
   (resourceTupleMappings b = Returns (Err singleTypeError) <->
    exists t1 t2 m1 m2,
      In t1 (resourceTuples b) /\ In t2 (resourceTuples b) /\
      mappingFor b (Resource t1) = Returns (Ok m1) /\ mappingFor b (Resource t2) = Returns (Ok m2) /\
      Mapping_Resource m1 <> Mapping_Resource m2)
   /\ (resourceTupleMappings b <> Returns (Err singleTypeError) ->
       exists mappings, resourceTupleMappings b = Returns (Ok mappings)))
  /\ (1 < length (resources b) -> resourceMappings b = Returns (Err singleTypeError))
  /\ (Forall (fun r => exists m, mappingFor b r = Returns (Ok m)) (resources b) ->
      (resourceMappings b = Returns (Err singleTypeError) <-> 1 < length (resources b))
      /\ (length (resources b) <= 1 ->
          exists mappings, resourceMappings b = Returns (Ok mappings))).
Proof.
  intros Hsingle. split; [|split].
  - intros Hall. unfold resourceTupleMappings.
    destruct (resourceTupleMappings_loop_ok b (resourceTuples b) ∅ ∅)
      as [mappings ->]; [intros r m Hr; now rewrite lookup_empty in Hr|exact Hall|].
    rewrite Hsingle, andb_true_r.
    assert (1 < size (∅ ∪ list_to_set (resolvedTypes b (resourceTuples b))
                      : gset GroupVersionResource) <->
            exists t1 t2 m1 m2,
              In t1 (resourceTuples b) /\ In t2 (resourceTuples b) /\
              mappingFor b (Resource t1) = Returns (Ok m1) /\
              mappingFor b (Resource t2) = Returns (Ok m2) /\
              Mapping_Resource m1 <> Mapping_Resource m2) as Hiff.
    { rewrite gset_size_gt_1. split.
      - intros (x & y & Hx & Hy & Hne).
        rewrite elem_of_union, elem_of_list_to_set, elem_of_resolvedTypes in Hx, Hy.
        destruct Hx as [Hx|(t1 & m1 & ? & ? & ->)]; [set_solver|].
        destruct Hy as [Hy|(t2 & m2 & ? & ? & ->)]; [set_solver|].
        exists t1, t2, m1, m2. auto.
      - intros (t1 & t2 & m1 & m2 & H1 & H2 & Hm1 & Hm2 & Hne).
        exists (Mapping_Resource m1), (Mapping_Resource m2).
        rewrite !elem_of_union, !elem_of_list_to_set, !elem_of_resolvedTypes.
        split; [right; eauto|]. split; [right; eauto|exact Hne]. }
    destruct (Nat.ltb_spec 1 (size (∅ ∪ list_to_set
                (resolvedTypes b (resourceTuples b)) : gset GroupVersionResource)))
      as [Hlt|Hge].
    + split; [tauto|]. intros Hne. now contradiction Hne.
    + split; [|eauto]. split; [discriminate|].
      intros Hex. apply Hiff in Hex. lia.
  - intros Hlen. unfold resourceMappings.
    destruct (Nat.ltb_spec 1 (length (resources b))) as [_|?]; [|lia].
    now rewrite Hsingle.
  - intros Hall. unfold resourceMappings. rewrite Hsingle, andb_true_r.
    destruct (Nat.ltb_spec 1 (length (resources b))) as [Hlt|Hge].
    + split; [tauto|lia].
    + destruct (resourceMappings_loop_ok b (resources b) ∅ [] Hall) as [ms ->].
      split; [|eauto]. split; [discriminate|lia].
Qed.

End SingleTypeProperties.

(** The theorem on the small cluster: the tuples pods/a and services/b
    resolve to two types and are refused; the tuples pods/a and po/b resolve
    to one type and are accepted. *)
Lemma singleResourceType_check_witness :
  resourceTupleMappings
    (demo.builder [] None false [] []
       [mkTuple "pods" "a"; mkTuple "services" "b"]
       false false false true true false) = Returns (Err singleTypeError)
  /\ exists mappings,
      resourceTupleMappings
        (demo.builder [] None false [] [] [mkTuple "pods" "a"; mkTuple "po" "b"]
           false false false true true false) = Returns (Ok mappings).
Proof.
  split.
  - apply (proj1 (proj1 (singleResourceType_check
             (demo.builder [] None false [] []
                [mkTuple "pods" "a"; mkTuple "services" "b"]
                false false false true true false) eq_refl)
             ltac:(repeat constructor; eexists; vm_compute; reflexivity))).
    exists (mkTuple "pods" "a"), (mkTuple "services" "b"),
           demo.podMapping, demo.serviceMapping.
    repeat split; try (simpl; tauto); try (vm_compute; reflexivity).
    vm_compute. discriminate.
  - apply (proj1 (singleResourceType_check
             (demo.builder [] None false [] [] [mkTuple "pods" "a"; mkTuple "po" "b"]
                false false false true true false) eq_refl)
             ltac:(repeat constructor; eexists; vm_compute; reflexivity)).
    vm_compute. discriminate.
Defined.

(** C8 as the specification words it fails for bulk types: [pods] and
    [po] resolve to one and the same type, and the policy refuses them all
    the same. *)
Lemma single_type_two_tokens_refused :
  let b := demo.builder [] None false ["pods"; "po"] [] []
             false false false true true false in
  singleResourceType b = true /\
  mappingFor b "pods" = Returns (Ok demo.podMapping) /\
  mappingFor b "po" = Returns (Ok demo.podMapping) /\
  resourceMappings b = Returns (Err singleTypeError).
Proof. vm_compute. repeat split; reflexivity. Qed.

(** ** The strategy of a Builder (C1) *)

Section StrategyProperties.
Context `{Collaborators}.

Lemma isEmpty_true {A} (l : list A) : isEmpty l = true <-> l = [].
Proof. destruct l; unfold isEmpty; simpl; split; congruence. Qed.

Lemma isEmpty_false {A} (l : list A) : isEmpty l = false <-> l <> [].
Proof. destruct l; unfold isEmpty; simpl; split; congruence. Qed.

(** With its function fields set, a Builder resolves types and makes
    clients without panic. *)
Lemma mappingFor_returns (b : Builder) (arg : string) :
  callable b -> exists r, mappingFor b arg = Returns r.
Proof.
  intros [[Hnil Hmapper] _]. unfold mappingFor.
  destruct (ParseResourceArg arg) as [fullGVR groupResource].
  destruct (restMapperFn b) as [[[rm|]|e]|]; eauto; contradiction.
Qed.

Lemma getClient_returns (b : Builder) (gv : GroupVersion) :
  callable b -> exists r, getClient b gv = Returns r.
Proof.
  intros [_ Hclient]. unfold getClient.
  destruct (fakeClientFn b) as [fake|].
  { destruct (fake gv); eauto. }
  destruct (clientConfigFn b) as [fn|]; [|destruct Hclient; contradiction].
  destruct (negotiatedSerializer b) as [ns|].
  - destruct (clientForGroupVersion _ gv ns); eauto.
  - destruct (unstructuredClientForGroupVersion _ gv); eauto.
Qed.

(** visitByName returns for a Builder whose function fields are set: with
    exactly one bulk type, a table of mappings is not empty. *)
Lemma visitByName_returns (b : Builder) :
  callable b -> exists r, visitByName b = Returns r.
Proof.
  intros Hb. unfold visitByName.
  destruct (negb (isEmpty (paths b))); [eauto|].
  destruct (isEmpty (resources b)) eqn:Hres; [eauto|].
  destruct (Nat.ltb_spec 1 (length (resources b))) as [|Hlen]; [eauto|].
  unfold resourceMappings.
  destruct (Nat.ltb_spec 1 (length (resources b))) as [|_]; [lia|]. simpl.
  destruct (resources b) as [|r [|r' rs]]; [discriminate| |simpl in Hlen; lia].
  simpl. destruct (mappingFor_returns b r Hb) as [[m|e] ->]; [|eauto].
  rewrite bool_decide_eq_false_2 by set_solver. simpl.
  destruct (getClient_returns b (GVK_GroupVersion (Mapping_GroupVersionKind m)) Hb)
    as [[client|e] ->]; [|eauto].
  destruct (selectorNamespaceByName b m); eauto.
Qed.

Lemma visitorResult_types_resolved (b : Builder) (rs : list string) :
  Forall (fun r => exists m, mappingFor b r = Returns (Ok m)) rs ->
  visitorResult_types b rs = Returns (withError (newResult false false) noNameError).
Proof.
  induction 1 as [|r rs [m Hm] _ IH]; simpl; [reflexivity|]. now rewrite Hm.
Qed.

Lemma visitorResult_types_failed (b : Builder) (pre post : list string)
    (r : string) (e : error) :
  Forall (fun r => exists m, mappingFor b r = Returns (Ok m)) pre ->
  mappingFor b r = Returns (Err e) ->
  visitorResult_types b (pre ++ r :: post)
  = Returns (withError (newResult false false) e).
Proof.
  induction 1 as [|r' rs [m Hm] _ IH]; simpl; intros He.
  - now rewrite He.
  - rewrite Hm. now apply IH.
Qed.

Lemma visitorResult_types_nil (b : Builder) (rs : list string)
    (r : Result Visitor) :
  visitorResult_types b rs = Returns r -> visitor r = nilVisitor.
Proof.
  induction rs as [|t ts IH]; simpl.
  - now intros [= <-].
  - destruct (mappingFor b t) as [[m|e]|]; [exact IH| |discriminate].
    now intros [= <-].
Qed.

Lemma visitorResult_types_returns (b : Builder) (rs : list string) :
  callable b -> exists r, visitorResult_types b rs = Returns r.
Proof.
  intros Hb. induction rs as [|t ts IH]; simpl; [eauto|].
  destruct (mappingFor_returns b t Hb) as [[m|e] ->]; eauto.
Qed.

(** C1.  The strategy of a Builder, by precedence: the aggregate of the
    accumulated errors; else the paths; else the selectors (a label or
    field selector, or select-all, which sets the label selector to
    everything); else the resource tuples; else the names; else, for bulk
    types alone, the fixed no-name error once every type is mapped (the
    error of the first type that does not map otherwise); else the
    missing-resource error.  The strategies by names and by bulk types
    return for a Builder whose function fields are set. *)
Theorem visitorResult_precedence (b : Builder) :
  let b' := if selectAll b
            then set_labelSelector b (Some labels_Everything_String) else b in
  let noSelector :=
    labelSelector b = None /\ fieldSelector b = None /\ selectAll b = false in
  (errs b <> [] ->
     visitorResult b =
       (Returns (mkResult (Some (Aggregate (errs b))) nilVisitor [] false false
                          None [] None), b))
  /\ (errs b = [] -> paths b <> [] ->
      visitorResult b = (Returns (visitByPaths b'), b'))
  /\ (errs b = [] -> paths b = [] -> ~ noSelector ->
      visitorResult b = (visitBySelector b', b'))
  /\ (errs b = [] -> paths b = [] -> noSelector -> resourceTuples b <> [] ->
      visitorResult b = (visitByResource b, b))
  /\ (errs b = [] -> paths b = [] -> noSelector -> resourceTuples b = [] ->
      names b <> [] ->
      visitorResult b = (visitByName b, b)
      /\ (callable b ->
          exists r, visitByName b = Returns r /\ visitorResult b = (Returns r, b)))
  /\ (errs b = [] -> paths b = [] -> noSelector -> resourceTuples b = [] ->
      names b = [] -> resources b <> [] ->
      (forall r, visitorResult b = (Returns r, b) -> visitor r = nilVisitor) /\
      (callable b -> exists r, visitorResult b = (Returns r, b)) /\
      (Forall (fun t => exists m, mappingFor b t = Returns (Ok m)) (resources b) ->
       visitorResult b
       = (Returns (withError (newResult false false) noNameError), b)) /\
      (forall pre t post e,
          resources b = pre ++ t :: post ->
          Forall (fun t => exists m, mappingFor b t = Returns (Ok m)) pre ->
          mappingFor b t = Returns (Err e) ->
          visitorResult b = (Returns (withError (newResult false false) e), b)))
  /\ (errs b = [] -> paths b = [] -> noSelector -> resourceTuples b = [] ->
      names b = [] -> resources b = [] ->
      visitorResult b
      = (Returns (withError (newResult false false) missingResourceError), b)).
Proof.
  intros b' noSelector.
  assert (paths b' = paths b) as Hpaths by (subst b'; now destruct (selectAll b)).
  assert (is_Some_b (labelSelector b') || is_Some_b (fieldSelector b') = false
          <-> noSelector) as Hsel.
  { subst b' noSelector.
    destruct (selectAll b), (labelSelector b), (fieldSelector b); simpl;
      split; intros; try discriminate; try tauto;
      destruct_and?; discriminate. }
  assert (noSelector -> b' = b) as Hsame.
  { intros (_ & _ & Hall). subst b'. now rewrite Hall. }
  assert (errs b = [] -> paths b = [] -> noSelector -> resourceTuples b = [] ->
          names b <> [] -> visitorResult b = (visitByName b, b)) as Hnames.
  { intros He Hp Hs Ht Hn. unfold visitorResult. rewrite He. simpl. fold b'.
    rewrite (proj2 Hsel Hs), Hpaths, Hp, (Hsame Hs), Ht. simpl.
    apply isEmpty_false in Hn. now rewrite Hn. }
  assert (errs b = [] -> paths b = [] -> noSelector -> resourceTuples b = [] ->
          names b = [] -> resources b <> [] ->
          visitorResult b = (visitorResult_types b (resources b), b)) as Hbulk.
  { intros He Hp Hs Ht Hn Hr. unfold visitorResult. rewrite He. simpl. fold b'.
    rewrite (proj2 Hsel Hs), Hpaths, Hp, (Hsame Hs), Ht, Hn. simpl.
    apply isEmpty_false in Hr. now rewrite Hr. }
  split; [now apply visitorResult_errs|].
  split.
  { intros He Hp. unfold visitorResult. rewrite He. simpl. fold b'.
    rewrite Hpaths. apply isEmpty_false in Hp. now rewrite Hp. }
  split.
  { intros He Hp Hs. unfold visitorResult. rewrite He. simpl. fold b'.
    rewrite Hpaths, Hp. simpl.
    destruct (is_Some_b (labelSelector b') || is_Some_b (fieldSelector b')) eqn:Hb;
      [reflexivity|]. contradiction Hs. now apply Hsel. }
  split.
  { intros He Hp Hs Ht. unfold visitorResult. rewrite He. simpl. fold b'.
    rewrite (proj2 Hsel Hs), Hpaths, Hp, (Hsame Hs). simpl.
    apply isEmpty_false in Ht. now rewrite Ht. }
  split.
  { intros He Hp Hs Ht Hn. split; [now apply Hnames|].
    intros Hb. destruct (visitByName_returns b Hb) as [r Hr].
    exists r. split; [exact Hr|]. rewrite <- Hr. now apply Hnames. }
  split.
  { intros He Hp Hs Ht Hn Hr. rewrite (Hbulk He Hp Hs Ht Hn Hr).
    split; [|split; [|split]].
    - intros r [= Hrs]. now apply (visitorResult_types_nil b (resources b)).
    - intros Hb. destruct (visitorResult_types_returns b (resources b) Hb) as [r ->].
      eauto.
    - intros Hall. now rewrite visitorResult_types_resolved.
    - intros pre t post e -> Hpre Hte.
      now rewrite (visitorResult_types_failed b pre post t e). }
  intros He Hp Hs Ht Hn Hr. unfold visitorResult. rewrite He. simpl. fold b'.
  now rewrite (proj2 Hsel Hs), Hpaths, Hp, (Hsame Hs), Ht, Hn, Hr.
Qed.

End StrategyProperties.

(** The theorem on the small cluster.  Bulk types alone: [pods] maps, so
    the result is the no-name error; [bogus] does not map, so the result is
    the error of its mapping.  A label selector wins over resource tuples
    (and visitBySelector then refuses the tuples). *)
Lemma visitorResult_precedence_witness :
  visitorResult (demo.builder [] None false ["pods"] [] []
                   false false false true false false)
  = (Returns (withError (newResult false false) noNameError),
     demo.builder [] None false ["pods"] [] [] false false false true false false)
  /\ visitorResult (demo.builder [] None false ["pods"; "bogus"] [] []
                      false false false true false false)
     = (Returns (withError (newResult false false) (noResourceTypeError "bogus")),
        demo.builder [] None false ["pods"; "bogus"] [] []
          false false false true false false)
  /\ fst (visitorResult (demo.builder [] (Some "app=web") false [] []
                           [mkTuple "pods" "a"] false false false true false false))
     = visitBySelector
         (demo.builder [] (Some "app=web") false [] []
            [mkTuple "pods" "a"] false false false true false false).
Proof.
  split; [|split].
  - destruct (visitorResult_precedence
                (demo.builder [] None false ["pods"] [] []
                   false false false true false false))
      as (_ & _ & _ & _ & _ & Hbulk & _).
    destruct (Hbulk eq_refl eq_refl (conj eq_refl (conj eq_refl eq_refl))
                    eq_refl eq_refl ltac:(discriminate)) as (_ & _ & Hall & _).
    apply Hall. repeat constructor. eexists. vm_compute. reflexivity.
  - destruct (visitorResult_precedence
                (demo.builder [] None false ["pods"; "bogus"] [] []
                   false false false true false false))
      as (_ & _ & _ & _ & _ & Hbulk & _).
    destruct (Hbulk eq_refl eq_refl (conj eq_refl (conj eq_refl eq_refl))
                    eq_refl eq_refl ltac:(discriminate)) as (_ & _ & _ & Hfail).
    apply (Hfail ["pods"] "bogus" []); [reflexivity| |vm_compute; reflexivity].
    repeat constructor. eexists. vm_compute. reflexivity.
  - destruct (visitorResult_precedence
                (demo.builder [] (Some "app=web") false [] []
                   [mkTuple "pods" "a"] false false false true false false))
      as (_ & _ & Hsel & _).
    rewrite Hsel; [reflexivity|reflexivity|reflexivity|].
    intros (Hl & _). discriminate.
Defined.

(** ** The layers of Do (C2) *)

Section DoProperties.
Context `{Collaborators}.

(** visitorResult writes the label selector of its receiver and nothing
    else. *)
Lemma visitorResult_builder (b : Builder) :
  snd (visitorResult b) = b \/
  exists sel, snd (visitorResult b) = set_labelSelector b sel.
Proof.
  unfold visitorResult.
  destruct (negb (isEmpty (errs b))); [now left|].
  destruct (selectAll b); [right; eexists|left];
    repeat match goal with |- context [if ?c then _ else _] => destruct c end;
    reflexivity.
Qed.

(** What Do returns for a strategy that succeeded. *)
Lemma Do_layers_shape (b b' : Builder) (root : Result Visitor) (m : mapper) :
  visitorResult b = (Returns root, b') ->
  err root = None ->
  b_mapper b = Some m ->
  Do b = (Returns (set_visitor (set_mapper root (Some m))
                     (Do_visitor b (visitor root))), b')
  /\ Do_visitor b (visitor root)
     = DecoratedVisitor
         ((if continueOnError b then ContinueOnErrorVisitor else id)
            ((if flatten b
              then fun v => FlattenListVisitor v (objectTyper b) (b_mapper b)
              else id) (visitor root)))
         ((if defaultNamespace b then [SetNamespace (namespace b)] else [])
          ++ (if requireNamespace b then [RequireNamespace (namespace b)] else [])
          ++ [FilterNamespace]
          ++ (if requireObject b then [RetrieveLazy] else [])).
Proof.
  intros Hvr Herr Hm. split.
  - assert (b' = b \/ exists sel, b' = set_labelSelector b sel) as Hb'.
    { pose proof (visitorResult_builder b) as Hb. now rewrite Hvr in Hb. }
    unfold Do, Mapper. rewrite Hvr.
    assert (b_mapper b' = Some m) as -> by (destruct Hb' as [->|[sel ->]]; exact Hm).
    simpl. rewrite Herr. simpl.
    unfold Do_visitor, Do_helpers.
    assert (flatten b' = flatten b /\ defaultNamespace b' = defaultNamespace b /\
            requireNamespace b' = requireNamespace b /\
            requireObject b' = requireObject b /\
            continueOnError b' = continueOnError b /\ namespace b' = namespace b /\
            objectTyper b' = objectTyper b)
      as (-> & -> & -> & -> & -> & -> & ->)
      by (destruct Hb' as [->|[sel ->]]; repeat split).
    rewrite Hm.
    destruct (flatten b), (defaultNamespace b), (requireNamespace b),
      (requireObject b), (continueOnError b); reflexivity.
  - unfold Do_visitor, Do_helpers.
    destruct (flatten b), (continueOnError b); reflexivity.
Qed.

(** C2, as the code has it.  When the strategy succeeds and a mapper is
    selected, Do returns the Result of the strategy with the mapper set
    and with this visitor: the visitor of the strategy, flattened if
    requested (innermost), then wrapped for continue-on-error if
    requested, then decorated (outermost) with the hooks default-namespace
    if requested, require-namespace if requested, namespace-filter, lazy
    retrieval if objects are required, in this order. *)
Theorem Do_layers (b b' : Builder) (root : Result Visitor) (m : mapper) :
  visitorResult b = (Returns root, b') ->
  err root = None ->
  b_mapper b = Some m ->
  Do b = (Returns (set_visitor (set_mapper root (Some m))
                     (Do_visitor b (visitor root))), b')
  /\ Do_visitor b (visitor root)
     = DecoratedVisitor
         ((if continueOnError b then ContinueOnErrorVisitor else id)
            ((if flatten b
              then fun v => FlattenListVisitor v (objectTyper b) (b_mapper b)
              else id) (visitor root)))
         ((if defaultNamespace b then [SetNamespace (namespace b)] else [])
          ++ (if requireNamespace b then [RequireNamespace (namespace b)] else [])
          ++ [FilterNamespace]
          ++ (if requireObject b then [RetrieveLazy] else [])).
Proof. apply Do_layers_shape. Qed.


(** A strategy that failed is returned as it is, but for the mapper. *)
Lemma Do_failed (b b' : Builder) (r : Result Visitor) (m : mapper) (e : error) :
  visitorResult b = (Returns r, b') -> err r = Some e -> b_mapper b = Some m ->
  Do b = (Returns (set_mapper r (Some m)), b').
Proof.
  intros Hvr Herr Hm.
  assert (b_mapper b' = Some m) as Hm'.
  { pose proof (visitorResult_builder b) as Hb. rewrite Hvr in Hb.
    destruct Hb as [Hb|[sel Hb]]; simpl in Hb; rewrite Hb; exact Hm. }
  unfold Do, Mapper. rewrite Hvr, Hm'. simpl. now rewrite Herr.
Qed.

End DoProperties.

(** The theorem on the small cluster, for the tuple pods/foo with
    flattening and continue-on-error requested. *)
Lemma Do_layers_witness :
  let b := demo.builder [] None false [] [] [mkTuple "pods" "foo"]
             true false false true false true in
  let items := [InfoVisitor (mkInfo (Some "v1") (Some demo.podMapping) "default"
                                    "foo" "" None "")] in
  let root := set_sources (set_visitor (newResult true true)
                                       (EagerVisitorList items)) items in
  visitByResource b = Returns root /\
  visitorResult b = (Returns root, b) /\
  Do b = (Returns (set_visitor (set_mapper root (Some tt))
                     (Do_visitor b (visitor root))), b).
Proof.
  intros b items root.
  assert (visitByResource b = Returns root) as Hroot by (vm_compute; reflexivity).
  assert (visitorResult b = (Returns root, b)) as Hvr by (vm_compute; reflexivity).
  split; [exact Hroot|]. split; [exact Hvr|].
  exact (proj1 (Do_layers b b root tt Hvr eq_refl eq_refl)).
Defined.

(** C2 as the specification words it fails: with continue-on-error
    requested, the continue-on-error wrapper is not the outermost layer of
    the visitor that Do returns.  The decorated visitor with the hooks is,
    and the wrapper sits inside it. *)
Lemma continueOnError_not_outermost :
  let b := demo.builder [] None false [] [] [mkTuple "pods" "foo"]
             false false false true false true in
  continueOnError b = true /\
  exists r inner,
    fst (Do b) = Returns r /\ err r = None /\
    visitor r = DecoratedVisitor (ContinueOnErrorVisitor inner)
                                 [FilterNamespace; RetrieveLazy] /\
    forall v, visitor r <> ContinueOnErrorVisitor v.
Proof.
  intros b. split; [reflexivity|].
  pose (items := [InfoVisitor (mkInfo (Some "v1") (Some demo.podMapping) "default"
                                      "foo" "" None "")]).
  pose (root := set_sources (set_visitor (newResult true true)
                                         (EagerVisitorList items)) items).
  assert (visitorResult b = (Returns root, b)) as Hvr by (vm_compute; reflexivity).
  destruct (Do_layers_shape b b root tt Hvr eq_refl eq_refl) as [HDo Hshape].
  exists (set_visitor (set_mapper root (Some tt)) (Do_visitor b (visitor root))),
         (EagerVisitorList items).
  rewrite HDo. split; [reflexivity|]. split; [reflexivity|].
  split; [vm_compute; reflexivity|]. intros v. vm_compute. discriminate.
Qed.

(** ** The Result (C3, C4, C5, C9) *)

Section ResultProperties.
Context `{Collaborators} {V W : Type} `{!VisitorImpl V W}.

(** A call of Infos that returns no error returns a list and leaves the
    Result with that list stored and no error. *)
Lemma Infos_success (r r' : Result V) (w w' : W) (l : option (list Info)) :
  Result_Infos r w = Returns (l, None, r', w') ->
  exists infos, l = Some infos /\ err r' = None /\ info r' = Some infos /\
                singleItemImplied r' = singleItemImplied r.
Proof.
  unfold Result_Infos. intros Hi.
  destruct (err r) as [e|] eqn:Herr; [discriminate|].
  destruct (info r) as [infos|] eqn:Hinfo.
  - injection Hi as <- <- <-. eauto.
  - destruct (Visit (visitor r) Infos_fn w []) as [[[e w1] infos]|]; [|discriminate].
    injection Hi as <- He <- <-. exists infos. simpl. rewrite He. eauto.
Qed.

(** C4.  A Result with a stored error returns it from Visit, Infos and
    Object, whatever its visitor is: the callback state and the world are
    returned as they were, Infos returns no list and Object no object. *)
Theorem stored_error_short_circuits (r : Result V) (e : error) :
  err r = Some e ->
  (forall (A : Type) (fn : VisitorFunc A) (w : W) (a : A),
      Result_Visit r fn w a = Returns (Some e, w, a))
  /\ (forall w : W, Result_Infos r w = Returns (None, Some e, r, w))
  /\ (forall w : W, Result_Object r w = Returns (None, Some e, r, w)).
Proof.
  intros Herr. split; [|split].
  - intros A fn w a. unfold Result_Visit. now rewrite Herr.
  - intros w. unfold Result_Infos. now rewrite Herr.
  - intros w. unfold Result_Object, Result_Infos. now rewrite Herr.
Qed.

(** C3, as the code has it.  After a call of Infos that returned no
    error, every later call returns the same list and no error, leaves the
    Result and the world as they are, and does so whatever the visitor is:
    the visitor is not visited again. *)
Theorem Infos_cached (r r' : Result V) (w w' : W) (l : option (list Info)) :
  Result_Infos r w = Returns (l, None, r', w') ->
  (exists infos, l = Some infos)
  /\ forall (other : VisitorImpl V W) (w'' : W),
      @Result_Infos _ V W other r' w'' = Returns (l, None, r', w'').
Proof.
  intros Hi. destruct (Infos_success _ _ _ _ _ Hi) as (infos & -> & Herr & Hinfo & _).
  split; [eauto|]. intros other w''.
  unfold Result_Infos. now rewrite Herr, Hinfo.
Qed.

(** C9.  When the first call of Infos on a Result without stored error
    returns an error, it returns it together with the list collected up to
    the failure, and stores the error: every later call of Infos, Visit or
    Object returns that error, without list or object, whatever the visitor
    is, and leaves the Result as it is. *)
Theorem Infos_error_memoized (r r' : Result V) (w w' : W)
    (l : option (list Info)) (e : error) :
  err r = None ->
  Result_Infos r w = Returns (l, Some e, r', w') ->
  (exists e0 partial,
      Visit (visitor r) Infos_fn w [] = Returns (e0, w', partial) /\
      FilterOut e0 (ignoreErrors r) = Some e /\ l = Some partial)
  /\ err r' = Some e
  /\ forall (other : VisitorImpl V W) (w'' : W),
      @Result_Infos _ V W other r' w'' = Returns (None, Some e, r', w'')
      /\ (forall (A : Type) (fn : VisitorFunc A) (a : A),
            @Result_Visit _ V W other A r' fn w'' a = Returns (Some e, w'', a))
      /\ @Result_Object _ V W other r' w'' = Returns (None, Some e, r', w'').
Proof.
  intros Herr Hi. unfold Result_Infos in Hi. rewrite Herr in Hi.
  destruct (info r) as [infos|]; [discriminate|].
  destruct (Visit (visitor r) Infos_fn w []) as [[[e0 w1] partial]|] eqn:Hv;
    [|discriminate].
  injection Hi as <- He <- <-.
  split; [exists e0, partial; auto|].
  split; [exact He|].
  intros other w''.
  unfold Result_Object, Result_Infos, Result_Visit. simpl. rewrite He. auto.
Qed.

Lemma Object_loop_from (infos : list Info) :
  forall (versions : gset string) (objects : list Object),
    foldl (fun (acc : gset string * list Object) (i : Info) =>
             let '(versions, objects) := acc in
             match Info_Object i with
             | Some o => ({[ Info_ResourceVersion i ]} ∪ versions, objects ++ [o])
             | None => (versions, objects)
             end) (versions, objects) infos
    = (list_to_set (objectVersions infos) ∪ versions,
       objects ++ omap Info_Object infos).
Proof.
  induction infos as [|i infos IH]; intros versions objects; simpl.
  - f_equal; [set_solver|now rewrite app_nil_r].
  - unfold objectVersions in *. simpl.
    destruct (Info_Object i) as [o|]; simpl; rewrite IH.
    + f_equal; [set_solver|now rewrite <- app_assoc].
    + reflexivity.
Qed.

Lemma Object_loop_spec (infos : list Info) :
  Object_loop infos
  = (list_to_set (objectVersions infos), omap Info_Object infos).
Proof.
  unfold Object_loop. rewrite Object_loop_from. f_equal. set_solver.
Qed.

(** The version that Object gives the list: the only version, if there is
    exactly one. *)
Lemma common_version (versions : list string) :
  let version :=
    if (size (list_to_set versions : gset string) =? 1)%nat
    then hd "" (elements (list_to_set versions : gset string)) else "" in
  (forall v, versions <> [] -> (forall x, In x versions -> x = v) -> version = v)
  /\ ((exists x y, In x versions /\ In y versions /\ x <> y) -> version = "")
  /\ (versions = [] -> version = "").
Proof.
  intros version. subst version. split; [|split].
  - intros v Hne Hall.
    assert ((list_to_set versions : gset string) = {[ v ]}) as ->.
    { apply set_eq. intros x. rewrite elem_of_list_to_set, elem_of_singleton.
      rewrite list_elem_of_In. split; [apply Hall|].
      intros ->. destruct versions as [|y ys]; [contradiction|].
      rewrite <- (Hall y) by (now left). now left. }
    rewrite size_singleton, elements_singleton. reflexivity.
  - intros (x & y & Hx & Hy & Hxy).
    assert (1 < size (list_to_set versions : gset string)) as Hsize.
    { apply gset_size_gt_1. exists x, y.
      rewrite !elem_of_list_to_set, !list_elem_of_In. auto. }
    destruct (Nat.eqb_spec (size (list_to_set versions : gset string)) 1);
      [lia|reflexivity].
  - intros ->. now rewrite list_to_set_nil, size_empty.
Qed.

(** C5.  When Infos succeeds, Object returns: the only object, if there
    is exactly one and singleItemImplied is set, or if it is of a list
    type; otherwise the v1.List of all the objects, whose resource version
    is the common version of the infos that carry an object, and empty when
    two of them differ (or when there is none). *)
Theorem Object_of_Infos (r r' : Result V) (w w' : W) (l : option (list Info)) :
  Result_Infos r w = Returns (l, None, r', w') ->
  let objects := omap Info_Object (default [] l) in
  let versions := objectVersions (default [] l) in
  exists obj,
    Result_Object r w = Returns (Some obj, None, r', w')
    /\ (forall o, objects = [o] -> singleItemImplied r = true -> obj = o)
    /\ (forall o, objects = [o] -> IsListType o = true -> obj = o)
    /\ ((forall o, objects = [o] ->
                   singleItemImplied r = false /\ IsListType o = false) ->
        exists version,
          obj = v1_List version objects
          /\ (forall v, versions <> [] -> (forall x, In x versions -> x = v) ->
                        version = v)
          /\ ((exists x y, In x versions /\ In y versions /\ x <> y) ->
              version = "")
          /\ (versions = [] -> version = "")).
Proof.
  intros Hi objects versions.
  destruct (Infos_success _ _ _ _ _ Hi) as (infos & -> & _ & _ & Hsingle).
  subst objects versions. simpl default.
  unfold Result_Object. rewrite Hi. simpl default.
  rewrite Object_loop_spec, Hsingle.
  pose proof (common_version (objectVersions infos)) as Hversion.
  cbv zeta in Hversion.
  set (version := if (size (list_to_set (objectVersions infos) : gset string) =? 1)%nat
                  then hd "" (elements (list_to_set (objectVersions infos)
                                        : gset string))
                  else "") in *.
  destruct (omap Info_Object infos) as [|o [|o' os]] eqn:Hobjects.
  - eexists. split; [reflexivity|]. split; [discriminate|]. split; [discriminate|].
    intros _. exists version. split; [reflexivity|exact Hversion].
  - destruct (singleItemImplied r) eqn:Hs.
    + exists o. split; [reflexivity|].
      split; [now intros ? [= <-]|]. split; [now intros ? [= <-]|].
      intros Hno. now destruct (Hno o eq_refl).
    + destruct (IsListType o) eqn:Hl.
      * exists o. split; [reflexivity|].
        split; [now intros ? [= <-]|]. split; [now intros ? [= <-]|].
        intros Hno. destruct (Hno o eq_refl). congruence.
      * eexists. split; [reflexivity|].
        split; [discriminate|]. split; [intros ? [= <-]; congruence|].
        intros _. exists version. split; [reflexivity|exact Hversion].
  - eexists. split; [reflexivity|]. split; [discriminate|]. split; [discriminate|].
    intros _. exists version. split; [reflexivity|exact Hversion].
Qed.

End ResultProperties.

(** A Result with a stored error, as visitorResult makes it for a Builder
    without input: the visitor is nil, and no call reaches it. *)
Lemma stored_error_short_circuits_witness :
  let r : Result demo.leaf :=
    mkResult (Some missingResourceError) demo.nilLeaf [] false false None [] None in
  let w := [inl (demo.pod "a" "1")] in
  Result_Visit r Infos_fn w [] = Returns (Some missingResourceError, w, [])
  /\ Result_Infos r w = Returns (None, Some missingResourceError, r, w)
  /\ Result_Object r w = Returns (None, Some missingResourceError, r, w).
Proof.
  intros r w.
  destruct (stored_error_short_circuits r missingResourceError eq_refl)
    as (HV & HI & HO).
  split; [apply HV|]. split; [apply HI|apply HO].
Defined.

(** Two pods on standard input: the first call of Infos reads them, the
    second returns them again although the stream is at its end, also when
    the visitor is replaced by one that panics. *)
Lemma Infos_cached_witness :
  let r0 := demo.fromStdin false in
  let items := [demo.pod "a" "1"; demo.pod "b" "1"] in
  let r1 := set_info_err r0 (Some items) None in
  Result_Infos r0 [inl (demo.pod "a" "1"); inl (demo.pod "b" "1")]
  = Returns (Some items, None, r1, [])
  /\ Result_Infos r1 [] = Returns (Some items, None, r1, [])
  /\ @Result_Infos _ _ _ demo.panicking r1 [] = Returns (Some items, None, r1, [])
  /\ Visit demo.stdinLeaf Infos_fn [] [] = Returns (None, [], []).
Proof.
  intros r0 items r1.
  assert (Result_Infos r0 [inl (demo.pod "a" "1"); inl (demo.pod "b" "1")]
          = Returns (Some items, None, r1, [])) as Hfirst
    by (vm_compute; reflexivity).
  destruct (Infos_cached _ _ _ _ _ Hfirst) as [_ Hagain].
  split; [exact Hfirst|]. split; [apply Hagain|]. split; [apply Hagain|].
  reflexivity.
Defined.

(** C3 as the specification words it fails: a Result without stored error
    whose first traversal fails.  The pod [a] is read, the next entry does
    not decode: the first call of Infos returns the list of [a] with the
    error, the second returns no list. *)
Lemma Infos_second_call_differs :
  let r0 := demo.fromStdin false in
  let e := OtherError "error parsing stdin" in
  err r0 = None /\
  exists r1 w1,
    Result_Infos r0 [inl (demo.pod "a" "1"); inr e]
    = Returns (Some [demo.pod "a" "1"], Some e, r1, w1)
    /\ Result_Infos r1 w1 = Returns (None, Some e, r1, w1).
Proof.
  intros r0 e. split; [reflexivity|].
  exists (set_info_err r0 (Some [demo.pod "a" "1"]) (Some e)), [].
  split; vm_compute; reflexivity.
Qed.

(** The same traversal through the theorem: the error is stored. *)
Lemma Infos_error_memoized_witness :
  let r0 := demo.fromStdin false in
  let e := OtherError "error parsing stdin" in
  let r1 := set_info_err r0 (Some [demo.pod "a" "1"]) (Some e) in
  Result_Infos r0 [inl (demo.pod "a" "1"); inr e]
  = Returns (Some [demo.pod "a" "1"], Some e, r1, [])
  /\ err r1 = Some e
  /\ Result_Infos r1 [] = Returns (None, Some e, r1, [])
  /\ Result_Object r1 [] = Returns (None, Some e, r1, []).
Proof.
  intros r0 e r1.
  assert (Result_Infos r0 [inl (demo.pod "a" "1"); inr e]
          = Returns (Some [demo.pod "a" "1"], Some e, r1, [])) as Hfirst
    by (vm_compute; reflexivity).
  destruct (Infos_error_memoized r0 r1 _ _ _ e eq_refl Hfirst)
    as (_ & Herr & Hlater).
  destruct (Hlater demo.leafVisitor []) as (HI & _ & HO).
  split; [exact Hfirst|]. split; [exact Herr|]. split; [exact HI|exact HO].
Defined.

(** Two pods of version 7 on standard input: Object returns the list of
    both, with version 7. *)
Lemma Object_of_Infos_witness :
  let r0 := demo.fromStdin false in
  let w0 := [inl (demo.pod "a" "7"); inl (demo.pod "b" "7")] in
  let r1 := set_info_err r0 (Some [demo.pod "a" "7"; demo.pod "b" "7"]) None in
  Result_Infos r0 w0
  = Returns (Some [demo.pod "a" "7"; demo.pod "b" "7"], None, r1, [])
  /\ Result_Object r0 w0
     = Returns (Some (v1_List "7" [Decoded "a"; Decoded "b"]), None, r1, []).
Proof.
  intros r0 w0 r1.
  assert (Result_Infos r0 w0
          = Returns (Some [demo.pod "a" "7"; demo.pod "b" "7"], None, r1, []))
    as Hfirst by (vm_compute; reflexivity).
  split; [exact Hfirst|].
  destruct (Object_of_Infos _ _ _ _ _ Hfirst) as (obj & HO & _ & _ & Hlist).
  rewrite HO. destruct Hlist as (version & -> & Hv & _).
  - intros o Ho. discriminate Ho.
  - rewrite (Hv "7"); [reflexivity|discriminate|].
    intros x Hx. vm_compute in Hx. destruct Hx as [<-|[<-|[]]]; reflexivity.
Defined.

(** ** The caching category expander (C10) *)

Section CachingProperties.
Context {CategoryExpander W : Type}.
Implicit Type c : cachingCategoryExpanderFunc CategoryExpander W.

Lemma ToCategoryExpander_cached c (x : CategoryExpander) (w : W) :
  cached c = Some x -> ToCategoryExpander c w = Returns (Ok (Some x), c, w).
Proof. intros Hc. unfold ToCategoryExpander. now rewrite Hc. Qed.

Lemma ToCategoryExpander_times_cached c (x : CategoryExpander) (n : nat) (w : W) :
  cached c = Some x ->
  ToCategoryExpander_times n c w = Returns (repeat (Ok (Some x)) n, c, w).
Proof.
  intros Hc. induction n as [|n IH]; simpl; [reflexivity|].
  now rewrite (ToCategoryExpander_cached c x w Hc), IH.
Qed.

(** On an empty cache the call is the call of the delegate, and what it
    stores is the expander that the delegate returned with a nil error. *)
Lemma ToCategoryExpander_empty c (fn : CategoryExpanderFunc CategoryExpander W)
    (w : W) :
  cached c = None -> delegate c = Some fn ->
  ToCategoryExpander c w
  = Returns (fst (fn w),
             match fst (fn w) with
             | Ok (Some x) => mkCaching (delegate c) (Some x)
             | _ => c
             end,
             snd (fn w)).
Proof.
  intros Hc Hd. unfold ToCategoryExpander. rewrite Hc, Hd.
  destruct (fn w) as [[[x|]|e] w']; simpl; try reflexivity.
  destruct c as [d cd]. simpl in *. now subst.
Qed.

(** C10, as the code has it.  A call on an empty cache whose delegate
    fails returns the error and leaves the cache empty, and so does a call
    whose delegate returns a nil expander with a nil error: in both cases
    the next call is the delegate again.  From a call that returns an
    expander on, the cache holds that expander, and any number of later
    calls return it and leave the cache and the world as they are, whatever
    the delegate is: the delegate is not called, and the cached value is not
    replaced.  On an empty cache, a nil delegate panics. *)
Theorem caching_memoizes_success_only c (w : W) :
  (forall fn r w',
      cached c = None -> delegate c = Some fn -> fn w = (r, w') ->
      (forall x, r <> Ok (Some x)) ->
      ToCategoryExpander c w = Returns (r, c, w')
      /\ forall w'',
          exists c', ToCategoryExpander c w'' = Returns (fst (fn w''), c', snd (fn w'')))
  /\ (forall x c' w',
        ToCategoryExpander c w = Returns (Ok (Some x), c', w') ->
        cached c' = Some x /\ delegate c' = delegate c
        /\ (forall n w'',
              ToCategoryExpander_times n c' w''
              = Returns (repeat (Ok (Some x)) n, c', w''))
        /\ (forall (d : option (CategoryExpanderFunc CategoryExpander W)) (w'' : W),
              ToCategoryExpander (mkCaching d (cached c')) w''
              = Returns (Ok (Some x), mkCaching d (cached c'), w'')))
  /\ (cached c = None -> delegate c = None -> ToCategoryExpander c w = Panics).
Proof.
  split; [|split].
  - intros fn r w' Hc Hd Hfn Hr.
    rewrite (ToCategoryExpander_empty c fn w Hc Hd), Hfn. simpl. split.
    + destruct r as [[x|]|e]; [now contradiction (Hr x)|reflexivity|reflexivity].
    + intros w''. rewrite (ToCategoryExpander_empty c fn w'' Hc Hd). eauto.
  - intros x c' w' Hcall.
    assert (cached c' = Some x /\ delegate c' = delegate c) as [Hc' Hd'].
    { unfold ToCategoryExpander in Hcall.
      destruct (cached c) as [x0|] eqn:Hc.
      - injection Hcall as <- <- <-. auto.
      - destruct (delegate c) as [fn|]; [|discriminate].
        destruct (fn w) as [[ret|e] w1]; [|discriminate].
        injection Hcall as -> <- <-. auto. }
    split; [exact Hc'|]. split; [exact Hd'|]. split.
    + intros n w''. now apply ToCategoryExpander_times_cached.
    + intros d w''. rewrite Hc'. reflexivity.
  - intros Hc Hd. unfold ToCategoryExpander. now rewrite Hc, Hd.
Qed.

End CachingProperties.

(** The wrapper over a discovery client that fails once: the first call
    fails and caches nothing, the second asks again and caches, the three
    calls after it do not reach the client (it has counted two calls). *)
Lemma caching_memoizes_success_only_witness :
  let c0 := mkCaching (Some demo.flakyDiscovery) None in
  let c1 := mkCaching (Some demo.flakyDiscovery) (Some "expander") in
  ToCategoryExpander c0 0 = Returns (Err (OtherError "discovery failed"), c0, 1)
  /\ ToCategoryExpander c0 1 = Returns (Ok (Some "expander"), c1, 2)
  /\ ToCategoryExpander_times 3 c1 2
     = Returns ([Ok (Some "expander"); Ok (Some "expander"); Ok (Some "expander")],
                c1, 2).
Proof.
  intros c0 c1.
  destruct (caching_memoizes_success_only c0 0) as (Hfail & _ & _).
  destruct (caching_memoizes_success_only c0 1) as (_ & Hok & _).
  split.
  { apply (Hfail demo.flakyDiscovery _ 1); try reflexivity. discriminate. }
  assert (ToCategoryExpander c0 1 = Returns (Ok (Some "expander"), c1, 2))
    as Hcall by reflexivity.
  split; [exact Hcall|].
  destruct (Hok "expander" c1 2 Hcall) as (_ & _ & Htimes & _).
  apply (Htimes 3 2).
Defined.

(** C10 as the specification words it fails: a call that succeeds is not
    always memoized.  The delegate returns no expander and no error when
    first asked: the first call returns without error and caches nothing,
    and the second call asks the delegate again (it has counted two calls
    then) and returns another result than the first. *)
Lemma nil_expander_not_memoized :
  let c0 := mkCaching (Some demo.emptyHandedDiscovery) None in
  let c1 := mkCaching (Some demo.emptyHandedDiscovery) (Some "expander") in
  ToCategoryExpander c0 0 = Returns (Ok None, c0, 1)
  /\ ToCategoryExpander c0 1 = Returns (Ok (Some "expander"), c1, 2).
Proof. split; reflexivity. Qed.

Example split_pods_foo :
  splitResourceTypeName "pods/foo" = (mkTuple "pods" "foo", true, None).
Proof. vm_compute. reflexivity. Qed.

Example split_bare : splitResourceTypeName "pods" = (mkTuple "" "", false, None).
Proof. vm_compute. reflexivity. Qed.

Example split_two_slashes :
  splitResourceTypeName "a/b/c"
  = (mkTuple "" "", false,
     Some (Errorf "arguments in resource/name form may not have more than one slash" [])).
Proof. vm_compute. reflexivity. Qed.

Example split_two_types :
  splitResourceTypeName "a,b/c"
  = (mkTuple "" "", false,
     Some (Errorf "arguments in resource/name form must have a single resource and name" [])).
Proof. vm_compute. reflexivity. Qed.

(** * More properties *)

(** ** The arguments of a command *)

Section ArgumentProperties.
Context `{Collaborators}.

Lemma Split_nonempty (s : string) (sep : ascii) : strings.Split s sep <> [].
Proof.
  intros Hs. pose proof (Split_length s sep) as Hl. rewrite Hs in Hl. discriminate.
Qed.


Lemma Split_no_sep (s : string) (sep : ascii) :
  strings.Contains s sep = false -> strings.Split s sep = [s].
Proof.
  induction s as [|c s IH]; simpl; [reflexivity|].
  destruct (Ascii.eqb c sep); [discriminate|].
  intros Hc. now rewrite (IH Hc).
Qed.

Lemma filter_notin_snoc (out X : list string) (s : string) :
  filter (fun y => y ∉ out ++ [s]) X
  = filter (fun y => y ∉ out) (filter (fun y => y <> s) X).
Proof.
  rewrite list_filter_filter. apply list_filter_iff. intros y.
  rewrite elem_of_app, list_elem_of_singleton. tauto.
Qed.

Lemma filter_notin_absorb (out X : list string) (s : string) :
  s ∈ out ->
  filter (fun y => y ∉ out) (filter (fun y => y <> s) X)
  = filter (fun y => y ∉ out) X.
Proof.
  intros Hs. apply list_filter_filter_l. intros y Hy ->. contradiction.
Qed.

Lemma filter_notin_nil (X : list string) : filter (fun y => y ∉ []) X = X.
Proof.
  induction X as [|x X IH]; [reflexivity|].
  rewrite filter_cons_True by (intros Hx; inversion Hx). now rewrite IH.
Qed.

Lemma elem_of_firstOccurrences (l : list string) (x : string) :
  x ∈ firstOccurrences l <-> x ∈ l.
Proof.
  induction l as [|s l IH]; simpl; [reflexivity|].
  rewrite !elem_of_cons, list_elem_of_filter, IH.
  destruct (decide (x = s)); tauto.
Qed.

Lemma NoDup_firstOccurrences (l : list string) : NoDup (firstOccurrences l).
Proof.
  induction l as [|s l IH]; simpl; constructor.
  - rewrite list_elem_of_filter. tauto.
  - now apply NoDup_filter.
Qed.

Lemma sublist_firstOccurrences (l : list string) : firstOccurrences l `sublist_of` l.
Proof.
  induction l as [|s l IH]; simpl; [constructor|].
  apply sublist_skip. etransitivity; [apply sublist_filter|exact IH].
Qed.

(** The loop of SplitResourceArgument, from any of its states. *)
Lemma SplitResourceArgument_loop (l : list string) :
  forall (set : gset string) (out : list string),
    (forall x, x ∈ set <-> x ∈ out) ->
    snd (foldl (fun (acc : gset string * list string) (s : string) =>
                  let '(set, out) := acc in
                  if bool_decide (s ∈ set) then (set, out)
                  else ({[ s ]} ∪ set, out ++ [s])) (set, out) l)
    = out ++ filter (fun y => y ∉ out) (firstOccurrences l).
Proof.
  induction l as [|s l IH]; intros set out Hset; simpl.
  - now rewrite app_nil_r.
  - destruct (bool_decide_reflect (s ∈ set)) as [Hin|Hnin].
    + rewrite (IH set out Hset).
      rewrite filter_cons_False by (intros Hs; apply Hs; now apply Hset).
      now rewrite filter_notin_absorb by (now apply Hset).
    + rewrite (IH ({[ s ]} ∪ set) (out ++ [s])).
      * rewrite filter_cons_True by (intros Hs; apply Hnin; now apply Hset).
        now rewrite filter_notin_snoc, <- app_assoc.
      * intros x. rewrite elem_of_union, elem_of_singleton, elem_of_app, Hset.
        rewrite list_elem_of_singleton. tauto.
Qed.

(** SplitResourceArgument returns the pieces between the commas in the
    order of their first occurrence, each of them once: the list has no
    repetition, is a sublist of the pieces, has the same elements, and is
    never empty. *)
Theorem SplitResourceArgument_unique (arg : string) :
  SplitResourceArgument arg = firstOccurrences (strings.Split arg comma)
  /\ NoDup (SplitResourceArgument arg)
  /\ sublist (SplitResourceArgument arg) (strings.Split arg comma)
  /\ (forall x, x ∈ SplitResourceArgument arg <-> x ∈ strings.Split arg comma)
  /\ SplitResourceArgument arg <> [].
Proof.
  assert (SplitResourceArgument arg = firstOccurrences (strings.Split arg comma))
    as Heq.
  { unfold SplitResourceArgument.
    rewrite SplitResourceArgument_loop by set_solver.
    apply filter_notin_nil. }
  rewrite Heq. split; [reflexivity|].
  split; [apply NoDup_firstOccurrences|].
  split; [apply sublist_firstOccurrences|].
  split; [apply elem_of_firstOccurrences|].
  pose proof (Split_nonempty arg comma) as Hne.
  destruct (strings.Split arg comma); [contradiction|discriminate].
Qed.

Lemma SplitResourceArgument_no_comma (arg : string) :
  strings.Contains arg comma = false -> SplitResourceArgument arg = [arg].
Proof.
  intros Hc. unfold SplitResourceArgument. rewrite (Split_no_sep _ _ Hc). simpl.
  rewrite bool_decide_eq_false_2 by set_solver. reflexivity.
Qed.

(** The world that categoryExpanderFn works in. *)
Context {W : Type}.
Implicit Type fn : CategoryExpanderFunc CategoryExpander W.



Lemma ReplaceAliases_loop_unavailable (b : Builder) (args : list string) :
  forall replaced (w : W),
    ReplaceAliases_loop None b args replaced w = Returns (replaced, b, w).
Proof. induction args as [|arg args IH]; intros replaced w; simpl; auto. Qed.

Lemma ReplaceAliases_loop_failing fn (e : error) (args : list string) :
  (forall w0, exists w1, fn w0 = (Err e, w1)) ->
  forall (b : Builder) replaced w,
    exists w',
      ReplaceAliases_loop (Some fn) b args replaced w
      = Returns (replaced, set_errs b (errs b ++ repeat e (length args)), w').
Proof.
  intros Hfn. induction args as [|arg args IH]; intros b replaced w; simpl.
  - rewrite app_nil_r. exists w. now destruct b.
  - destruct (Hfn w) as [w1 ->].
    destruct (IH (set_errs b (errs b ++ [e])) replaced w1) as [w' ->].
    simpl. rewrite <- app_assoc. eauto.
Qed.

(** A category expander function that answers with an expander at every
    call lets ReplaceAliases return, with the Builder as it was. *)
Lemma ReplaceAliases_answered fn (b : Builder) (input : string) (w : W) :
  (forall w0, exists expander w1, fn w0 = (Ok (Some expander), w1)) ->
  exists replaced w', ReplaceAliases (Some fn) b input w = Returns (replaced, b, w').
Proof.
  intros Hfn. unfold ReplaceAliases.
  assert (forall args replaced w0, exists replaced' w',
             ReplaceAliases_loop (Some fn) b args replaced w0
             = Returns (replaced', b, w')) as Hloop.
  { induction args as [|a args IH]; intros replaced w0; simpl; [eauto|].
    destruct (Hfn w0) as (expander & w1 & ->). apply IH. }
  destruct (Hloop (strings.Split input comma) [] w) as (replaced' & w' & ->).
  eauto.
Qed.

(** Without a category expander function, and with one that fails at
    every call, ReplaceAliases drops its whole input and returns the empty
    string; the failing function leaves its error once for every
    comma-separated piece of the input. *)
Theorem ReplaceAliases_unavailable (b : Builder) (input : string) (w : W) :
  ReplaceAliases None b input w = Returns ("", b, w)
  /\ forall fn e,
      (forall w0, exists w1, fn w0 = (Err e, w1)) ->
      exists w',
        ReplaceAliases (Some fn) b input w
        = Returns ("", set_errs b (errs b ++
                         repeat e (S (strings.Count input comma))), w').
Proof.
  unfold ReplaceAliases. split.
  - now rewrite ReplaceAliases_loop_unavailable.
  - intros fn e Hfn.
    destruct (ReplaceAliases_loop_failing fn e (strings.Split input comma) Hfn
                b [] w) as [w' ->].
    rewrite Split_length. eauto.
Qed.

Lemma filter_length_all {A} (P : A -> Prop) `{forall x, Decision (P x)}
    (l : list A) :
  length (filter P l) = length l <-> Forall P l.
Proof.
  induction l as [|x l IH]; simpl; [split; [constructor|reflexivity]|].
  pose proof (length_filter P l) as Hle.
  rewrite filter_cons. destruct (decide (P x)) as [Hx|Hx]; simpl.
  - split.
    + intros [= Hl]. constructor; [assumption|now apply IH].
    + intros Hall. apply Forall_cons in Hall as [_ Hall]. f_equal. now apply IH.
  - split; [lia|]. intros Hall. apply Forall_cons in Hall as [? _]. contradiction.
Qed.

Lemma filter_length_none {A} (P : A -> Prop) `{forall x, Decision (P x)}
    (l : list A) :
  length (filter P l) = 0 <-> Forall (fun x => ~ P x) l.
Proof.
  induction l as [|x l IH]; simpl; [split; [constructor|reflexivity]|].
  rewrite filter_cons. destruct (decide (P x)) as [Hx|Hx]; simpl.
  - split; [discriminate|]. intros Hall.
    apply Forall_cons in Hall as [? _]. contradiction.
  - rewrite IH. split; [now constructor|].
    intros Hall. now apply Forall_cons in Hall as [_ ?].
Qed.

Lemma hasCombinedTypeArgs_spec (os_Args args : list string) :
  (hasCombinedTypeArgs os_Args args = (true, None) <->
   args <> [] /\ Forall (fun s => strings.Contains s slash = true) args)
  /\ (hasCombinedTypeArgs os_Args args = (false, None) <->
      Forall (fun s => strings.Contains s slash = false) args)
  /\ (hasCombinedTypeArgs os_Args args = (true, Some (combinedTypeArgsError os_Args)) <->
      Exists (fun s => strings.Contains s slash = true) args /\
      Exists (fun s => strings.Contains s slash = false) args).
Proof.
  unfold hasCombinedTypeArgs.
  pose proof (filter_length_all (fun s => strings.Contains s slash = true) args) as Hall.
  pose proof (filter_length_none (fun s => strings.Contains s slash = true) args) as Hnone.
  pose proof (length_filter (fun s => strings.Contains s slash = true) args) as Hle.
  set (k := length (filter (fun s => strings.Contains s slash = true) args)) in *.
  assert (Forall (fun s => strings.Contains s slash = false) args <->
          Forall (fun s => ~ strings.Contains s slash = true) args) as Hneg.
  { split; intros Hf; (eapply Forall_impl; [exact Hf|]); intros s; simpl;
      destruct (strings.Contains s slash); congruence. }
  assert (Exists (fun s => strings.Contains s slash = true) args <-> k <> 0) as Hex1.
  { split.
    - intros Hex Hk. apply Hnone, List.Forall_Exists_neg in Hk. contradiction.
    - intros Hk.
      destruct (decide (Exists (fun s => strings.Contains s slash = true) args))
        as [|Hn]; [assumption|].
      apply List.Forall_Exists_neg, Hnone in Hn. contradiction. }
  assert (Exists (fun s => strings.Contains s slash = false) args <-> k <> length args)
    as Hex2.
  { split.
    - intros Hex Hk. apply Hall in Hk. apply Exists_exists in Hex as (s & Hin & Hs).
      rewrite Forall_forall in Hk. specialize (Hk s Hin). simpl in Hk. congruence.
    - intros Hk.
      destruct (decide (Exists (fun s => strings.Contains s slash = false) args))
        as [|Hn]; [assumption|].
      contradiction Hk. apply Hall. apply List.Forall_Exists_neg in Hn.
      eapply Forall_impl; [exact Hn|]. intros s. simpl.
      destruct (strings.Contains s slash); congruence. }
  destruct (Nat.ltb_spec 0 k) as [Hpos|Hzero];
    destruct (Nat.eqb_spec k (length args)) as [Heq|Hne]; simpl.
  - split; [|split].
    + split; [intros _|reflexivity]. split; [|now apply Hall].
      intros ->. simpl in Heq. lia.
    + split; [discriminate|]. intros Hf. apply Hneg, Hnone in Hf. lia.
    + split; [discriminate|]. intros [_ Hx]. apply Hex2 in Hx. contradiction.
  - split; [|split].
    + split; [discriminate|]. intros [_ Hf]. apply Hall in Hf. contradiction.
    + split; [discriminate|]. intros Hf. apply Hneg, Hnone in Hf. lia.
    + split; [intros _|reflexivity]. split; [apply Hex1; lia|now apply Hex2].
  - split; [|split].
    + split; [discriminate|]. intros [Hne Hf]. destruct args; [contradiction|].
      simpl in Heq. lia.
    + split; [intros _|reflexivity]. apply Hneg, Hnone. lia.
    + split; [discriminate|]. intros [Hx _]. apply Hex1 in Hx. lia.
  - split; [|split].
    + split; [discriminate|]. intros [_ Hf]. apply Hall in Hf. contradiction.
    + split; [intros _|reflexivity]. apply Hneg, Hnone. lia.
    + split; [discriminate|]. intros [Hx _]. apply Hex1 in Hx. lia.
Qed.

(** hasCombinedTypeArgs tells three cases apart: every argument has a
    slash (and there is one), none has, and the mix of both, which is the
    only case with an error. *)
Theorem hasCombinedTypeArgs_cases (os_Args args : list string) :
  (hasCombinedTypeArgs os_Args args = (true, None) <->
   args <> [] /\ Forall (fun s => strings.Contains s slash = true) args)
  /\ (hasCombinedTypeArgs os_Args args = (false, None) <->
      Forall (fun s => strings.Contains s slash = false) args)
  /\ (hasCombinedTypeArgs os_Args args = (true, Some (combinedTypeArgsError os_Args)) <->
      Exists (fun s => strings.Contains s slash = true) args /\
      Exists (fun s => strings.Contains s slash = false) args).
Proof. apply hasCombinedTypeArgs_spec. Qed.

Lemma Contains_app_sep (r n : string) (sep : ascii) :
  strings.Contains (r ++ String sep n)%string sep = true.
Proof.
  induction r as [|c r IH]; simpl.
  - now rewrite Ascii.eqb_refl.
  - destruct (Ascii.eqb c sep); [reflexivity|exact IH].
Qed.

(** Several types in front of names: normalizeMultipleResourcesArgs pairs
    every type with every name, types first, so that all the arguments are
    of the form type/name, and HasNames answers true without error. *)
Theorem normalizeMultipleResourcesArgs_pairs (os_Args : list string)
    (arg0 : string) (names : list string) :
  names <> [] -> 1 < length (SplitResourceArgument arg0) ->
  let args := normalizeMultipleResourcesArgs (arg0 :: names) in
  length args = length (SplitResourceArgument arg0) * length names
  /\ (forall arg, In arg args <->
                  exists resource name,
                    In resource (SplitResourceArgument arg0) /\ In name names /\
                    arg = (resource ++ "/" ++ name)%string)
  /\ hasCombinedTypeArgs os_Args args = (true, None)
  /\ HasNames os_Args (arg0 :: names) = (true, None).
Proof.
  intros Hnames Hlen args.
  assert (args = flat_map (fun resource =>
                   map (fun name => (resource ++ "/" ++ name)%string) names)
                   (SplitResourceArgument arg0)) as Hargs.
  { subst args. unfold normalizeMultipleResourcesArgs.
    destruct names as [|n ns]; [contradiction|].
    destruct (Nat.ltb_spec 1 (length (SplitResourceArgument arg0))); [|lia].
    reflexivity. }
  assert (forall arg, In arg args <->
                  exists resource name,
                    In resource (SplitResourceArgument arg0) /\ In name names /\
                    arg = (resource ++ "/" ++ name)%string) as Hin.
  { intros arg. rewrite Hargs, in_flat_map. split.
    - intros (resource & Hr & Ha). apply in_map_iff in Ha as (name & <- & Hn). eauto.
    - intros (resource & name & Hr & Hn & ->). exists resource.
      split; [assumption|]. apply in_map_iff. eauto. }
  assert (hasCombinedTypeArgs os_Args args = (true, None)) as Hcombined.
  { apply hasCombinedTypeArgs_spec. split.
    - rewrite Hargs. destruct (SplitResourceArgument arg0) as [|r rs];
        [simpl in Hlen; lia|].
      destruct names; [contradiction|discriminate].
    - apply Forall_forall. intros arg Ha. apply list_elem_of_In, Hin in Ha
        as (resource & name & _ & _ & ->). apply Contains_app_sep. }
  split; [|split; [exact Hin|split; [exact Hcombined|]]].
  - rewrite Hargs. clear. induction (SplitResourceArgument arg0) as [|r rs IH];
      simpl; [reflexivity|]. rewrite length_app, length_map, IH. reflexivity.
  - unfold HasNames. fold args. now rewrite Hcombined.
Qed.

Lemma ResourceTypeOrNameArgs_tuples_ok (args : list string) :
  forall b : Builder,
    Forall (fun s => exists t, splitResourceTypeName s = (t, true, None)) args ->
    ResourceTypeOrNameArgs_tuples b args
    = set_resourceTuples b
        (resourceTuples b ++ map (fun s => fst (fst (splitResourceTypeName s))) args).
Proof.
  induction args as [|s args IH]; intros b Hall; simpl.
  - rewrite app_nil_r. now destruct b.
  - apply Forall_cons in Hall as [[t Ht] Hall]. rewrite Ht. simpl.
    rewrite IH by assumption. simpl. now rewrite <- app_assoc.
Qed.

(** Arguments that are all well-formed type/name tokens without comma:
    ResourceTypeOrNameArgs adds their tuples, in order, changes nothing
    else, and does not consult the category expander: the world is as it
    was, whatever the function is. *)
Theorem ResourceTypeOrNameArgs_combined (os_Args : list string)
    (fn : option (CategoryExpanderFunc CategoryExpander W)) (b : Builder)
    (allowEmptySelector : bool) (args : list string) (w : W) :
  args <> [] ->
  Forall (fun s => strings.Contains s comma = false) args ->
  Forall (fun s => exists t, splitResourceTypeName s = (t, true, None)) args ->
  ResourceTypeOrNameArgs os_Args fn b allowEmptySelector args w
  = Returns
      (set_resourceTuples b
         (resourceTuples b ++ map (fun s => fst (fst (splitResourceTypeName s))) args),
       w).
Proof.
  intros Hne Hcomma Hall. unfold ResourceTypeOrNameArgs.
  assert (normalizeMultipleResourcesArgs args = args) as ->.
  { unfold normalizeMultipleResourcesArgs.
    destruct args as [|arg0 [|n ns]]; try reflexivity.
    apply Forall_cons in Hcomma as [Hc _].
    now rewrite (SplitResourceArgument_no_comma _ Hc). }
  assert (hasCombinedTypeArgs os_Args args = (true, None)) as ->.
  { apply hasCombinedTypeArgs_spec. split; [assumption|].
    eapply Forall_impl; [exact Hall|]. intros s [t Ht].
    unfold splitResourceTypeName in Ht.
    destruct (strings.Contains s slash); [reflexivity|discriminate]. }
  now rewrite ResourceTypeOrNameArgs_tuples_ok.
Qed.

Lemma visitorResult_selector (b : Builder) :
  errs b = [] -> paths b = [] -> is_Some_b (labelSelector b) = true ->
  exists b', visitorResult b = (visitBySelector b', b').
Proof.
  intros Herrs Hpaths Hsel. unfold visitorResult. rewrite Herrs. simpl.
  destruct (selectAll b); simpl; rewrite Hpaths; simpl;
    [|rewrite Hsel; simpl]; eauto.
Qed.

(** One bare type, with the empty selector allowed and a category expander
    function that answers every call with an expander:
    ResourceTypeOrNameArgs adds the types that ReplaceAliases makes of the
    argument and selects everything, so that a Builder without errors and
    paths is resolved by selector. *)
Theorem ResourceTypeOrNameArgs_one_type (os_Args : list string)
    fn (b : Builder) (arg : string) (w : W) :
  strings.Contains arg slash = false ->
  errs b = [] -> paths b = [] ->
  (forall w0, exists expander w1, fn w0 = (Ok (Some expander), w1)) ->
  exists replaced b' w',
    ReplaceAliases (Some fn) b arg w = Returns (replaced, b, w')
    /\ ResourceTypeOrNameArgs os_Args (Some fn) b true [arg] w = Returns (b', w')
    /\ resources b' = resources b ++ SplitResourceArgument replaced
    /\ (labelSelector b'
        = match labelSelector b with
          | Some s => Some s
          | None => Some labels_Everything_String
          end)
    /\ exists b'', visitorResult b' = (visitBySelector b'', b'').
Proof.
  intros Hslash Herrs Hpaths Hfn.
  destruct (ReplaceAliases_answered fn b arg w Hfn) as (arg' & w' & Hrepl).
  exists arg'.
  exists (let b1 := ResourceTypes b (SplitResourceArgument arg') in
          if negb (is_Some_b (labelSelector b1)) && true
          then set_labelSelector b1 (Some labels_Everything_String)
          else b1), w'.
  split; [exact Hrepl|]. split.
  { unfold ResourceTypeOrNameArgs. simpl normalizeMultipleResourcesArgs.
    assert (hasCombinedTypeArgs os_Args [arg] = (false, None)) as ->.
    { apply hasCombinedTypeArgs_spec. now repeat constructor. }
    rewrite Hrepl. reflexivity. }
  cbv zeta.
  destruct (labelSelector b) as [sel|] eqn:Hsel.
  - assert (labelSelector (ResourceTypes b (SplitResourceArgument arg')) = Some sel)
      as Hsel' by exact Hsel.
    rewrite Hsel'. simpl.
    split; [reflexivity|]. split; [exact Hsel|].
    apply visitorResult_selector; [exact Herrs|exact Hpaths|].
    simpl. now rewrite Hsel.
  - assert (labelSelector (ResourceTypes b (SplitResourceArgument arg')) = None)
      as Hsel' by exact Hsel.
    rewrite Hsel'. simpl.
    split; [reflexivity|]. split; [reflexivity|].
    apply visitorResult_selector; [exact Herrs|exact Hpaths|reflexivity].
Qed.

End ArgumentProperties.


Lemma normalizeMultipleResourcesArgs_pairs_witness :
  normalizeMultipleResourcesArgs ["pods,svc"; "a"; "b"]
  = ["pods/a"; "pods/b"; "svc/a"; "svc/b"]
  /\ HasNames samples.os_Args ["pods,svc"; "a"; "b"] = (true, None).
Proof.
  split; [vm_compute; reflexivity|].
  apply (normalizeMultipleResourcesArgs_pairs samples.os_Args "pods,svc" ["a"; "b"]);
    [discriminate|vm_compute; lia].
Defined.

(** A category expander function whose answer, the nil expander, would
    panic the process if it were used: it is not called, the count of its
    calls stays at 0. *)
Lemma ResourceTypeOrNameArgs_combined_witness :
  ResourceTypeOrNameArgs samples.os_Args (Some samples.emptyHandedFn)
    demo.newBuilder false ["pods/a"; "svc/b"] 0
  = Returns (set_resourceTuples demo.newBuilder
               [mkTuple "pods" "a"; mkTuple "svc" "b"], 0).
Proof.
  rewrite (ResourceTypeOrNameArgs_combined samples.os_Args
             (Some samples.emptyHandedFn) demo.newBuilder
             false ["pods/a"; "svc/b"] 0).
  - reflexivity.
  - discriminate.
  - repeat constructor.
  - repeat constructor; eexists; vm_compute; reflexivity.
Defined.

Lemma ResourceTypeOrNameArgs_one_type_witness :
  exists b' w',
    ResourceTypeOrNameArgs samples.os_Args (Some samples.expanderFn)
      demo.newBuilder true ["all"] 0 = Returns (b', w')
    /\ resources b' = ["pods"; "deployments.apps"]
    /\ labelSelector b' = Some ""
    /\ exists b'', visitorResult b' = (visitBySelector b'', b'').
Proof.
  destruct (ResourceTypeOrNameArgs_one_type samples.os_Args samples.expanderFn
              demo.newBuilder "all" 0 eq_refl eq_refl eq_refl)
    as (replaced & b' & w' & Hrepl & Hargs & Hres & Hsel & Hvisit).
  { intros w0. exists samples.expander, (S w0). reflexivity. }
  exists b', w'. split; [exact Hargs|].
  assert (replaced = "pods,deployments.apps") as ->.
  { assert (Returns (replaced, demo.newBuilder, w')
            = ReplaceAliases (Some samples.expanderFn) demo.newBuilder "all" 0)
      as Heq by (now rewrite Hrepl).
    vm_compute in Heq. now injection Heq as -> _. }
  split; [rewrite Hres; vm_compute; reflexivity|].
  split; [rewrite Hsel; reflexivity|exact Hvisit].
Defined.

(** A category expander function that fails when first asked and answers
    from then on: the first piece of the input is dropped with its error,
    the second is kept. *)
Example ReplaceAliases_flaky :
  ReplaceAliases (Some samples.flakyFn) demo.newBuilder "pods,svc" 0
  = Returns ("svc",
             set_errs demo.newBuilder [OtherError "discovery failed"], 2).
Proof. vm_compute. reflexivity. Qed.

(** ** Selectors, namespaces and sources *)

Section SourceProperties.
Context `{Collaborators}.
Variable TrimSpace : string -> string.
Variable FileVisitorForSTDIN : option mapper -> Visitor.
Variable KustomizeVisitor : option mapper -> string -> Visitor.
Variable os_Stat : string -> option error.
Variable os_IsNotExist : option error -> bool.
Variable ExpandPathsToFileVisitors :
  option mapper -> string -> bool -> list string -> list Visitor * option error.
Variable filepath_Glob : string -> list string * option error.
Variable isErrBadPattern : error -> bool.
Variable url_Parse : string -> result string.
Variable Sprint_strings : list string -> string.

Local Abbreviation Path' := (Path os_Stat os_IsNotExist ExpandPathsToFileVisitors Sprint_strings).
Local Abbreviation Path_loop' := (Path_loop os_Stat os_IsNotExist ExpandPathsToFileVisitors).
Local Abbreviation Stdin' := (Stdin FileVisitorForSTDIN).
Local Abbreviation FilenameParam' :=
  (FilenameParam FileVisitorForSTDIN KustomizeVisitor os_Stat os_IsNotExist
     ExpandPathsToFileVisitors filepath_Glob isErrBadPattern url_Parse Sprint_strings).
Local Abbreviation FilenameParam_loop' :=
  (FilenameParam_loop FileVisitorForSTDIN os_Stat os_IsNotExist
     ExpandPathsToFileVisitors filepath_Glob isErrBadPattern url_Parse Sprint_strings).

(** [tauto] on the propositions of the context alone. *)
Ltac tauto_props :=
  repeat match goal with
         | x : ?T |- _ =>
             lazymatch type of T with
             | Prop => fail
             | _ => clear x
             end
         end;
  tauto.

Lemma failsWith_intro (b : Builder) (e : error) : In e (errs b) -> failsWith b e.
Proof.
  intros Hin. split; [exact Hin|]. apply visitorResult_errs.
  intros Hnil. rewrite Hnil in Hin. contradiction.
Qed.

(** Select-all and a selector exclude each other, in whichever order they
    are asked for: the second request leaves its error and is not carried
    out, and the Builder then resolves to the aggregate of its errors. *)
Theorem selectAll_excludes_selectors (b : Builder) (s : string) :
  TrimSpace s <> "" ->
  labelSelector b = None -> fieldSelector b = None -> selectAll b = false ->
  let labelError :=
    Errorf "found non-empty label selector %q with previously set 'all' parameter. " [s] in
  let fieldError :=
    Errorf "found non-empty field selector %q with previously set 'all' parameter. "
           [TrimSpace s] in
  (let b' := LabelSelectorParam TrimSpace (SelectAllParam b true) s in
   errs b' = errs b ++ [labelError] /\ labelSelector b' = None /\
   failsWith b' labelError)
  /\ (let b' := FieldSelectorParam TrimSpace (SelectAllParam b true) s in
      errs b' = errs b ++ [fieldError] /\ fieldSelector b' = None /\
      failsWith b' fieldError)
  /\ (let b' := SelectAllParam (LabelSelectorParam TrimSpace b s) true in
      errs b' = errs b ++ [selectAllError] /\ selectAll b' = false /\
      failsWith b' selectAllError)
  /\ (let b' := SelectAllParam (FieldSelectorParam TrimSpace b s) true in
      errs b' = errs b ++ [selectAllError] /\ selectAll b' = false /\
      failsWith b' selectAllError).
Proof.
  intros Htrim Hl Hf Hall labelError fieldError.
  assert (strEmpty (TrimSpace s) = false) as Hne.
  { destruct (strEmpty (TrimSpace s)) eqn:He; [|reflexivity].
    now apply strEmpty_true in He. }
  assert (forall (l : list error) e, l ++ [e] <> []) as Hcons
    by (intros l e Hn; apply app_eq_nil in Hn as [_ ?]; discriminate).
  assert (SelectAllParam b true = set_selectAll b true) as Hselect
    by (unfold SelectAllParam; now rewrite Hl, Hf).
  assert (LabelSelectorParam TrimSpace b s = set_labelSelector b (Some (TrimSpace s)))
    as Hlabel
    by (unfold LabelSelectorParam, LabelSelector; now rewrite Hne, Hall).
  assert (FieldSelectorParam TrimSpace b s = set_fieldSelector b (Some (TrimSpace s)))
    as Hfield
    by (unfold FieldSelectorParam; now rewrite Hne, Hall).
  rewrite Hselect, Hlabel, Hfield.
  unfold LabelSelectorParam, FieldSelectorParam, SelectAllParam. simpl.
  rewrite Hne. simpl. unfold failsWith. simpl. rewrite ?Hl. simpl.
  repeat match goal with |- _ /\ _ => split end;
    first [ assumption | reflexivity
          | apply in_or_app; right; now left
          | apply visitorResult_errs; simpl; apply Hcons ].
Qed.

(** Standard input can be claimed once: a second claim, by Stdin or by
    StdinInUse, leaves the multiple-use error, and the Builder then
    resolves to the aggregate of its errors. *)
Theorem stdin_claimed_twice (b : Builder) :
  failsWith (Stdin' (Stdin' b)) StdinMultiUseError
  /\ failsWith (Stdin' (StdinInUse b)) StdinMultiUseError
  /\ failsWith (StdinInUse (Stdin' b)) StdinMultiUseError
  /\ failsWith (StdinInUse (StdinInUse b)) StdinMultiUseError.
Proof.
  repeat split; try apply visitorResult_errs;
    unfold Stdin, StdinInUse; simpl;
    destruct (stdinInUse b); simpl;
    try (rewrite !in_app_iff; simpl; tauto_props);
    intros Hnil; repeat (apply app_eq_nil in Hnil as [Hnil ?]); discriminate.
Qed.

Lemma Path_loop_grows (recursive : bool) (ps : list string) :
  forall b : Builder,
    let b' := Path_loop' b recursive ps in
    (exists more, errs b' = errs b ++ more)
    /\ (exists more, paths b' = paths b ++ more)
    /\ stdinInUse b' = stdinInUse b.
Proof.
  induction ps as [|p ps IH]; intros b; simpl.
  - split; [|split]; try (exists []; now rewrite app_nil_r). reflexivity.
  - destruct (os_IsNotExist (os_Stat p)).
    { destruct (IH (set_errs b (errs b ++ [Errorf pathNotExistError [p]])))
        as ((m1 & ->) & (m2 & ->) & ->). simpl.
      rewrite <- app_assoc. eauto. }
    destruct (os_Stat p) as [e|].
    { match goal with |- context [Path_loop' ?b0 _ _] =>
        destruct (IH b0) as ((m1 & ->) & (m2 & ->) & ->) end. simpl.
      rewrite <- app_assoc. eauto. }
    destruct (ExpandPathsToFileVisitors (b_mapper b) p recursive FileExtensions)
      as [visitors e].
    match goal with |- context [Path_loop' ?b0 _ _] =>
      destruct (IH b0) as ((m1 & ->) & (m2 & ->) & ->) end.
    destruct e, (1 <? length visitors)%nat; simpl; rewrite <- ?app_assoc; eauto.
Qed.

Lemma Path_grows (b : Builder) (recursive : bool) (ps : list string) :
  (exists more, errs (Path' b recursive ps) = errs b ++ more)
  /\ stdinInUse (Path' b recursive ps) = stdinInUse b.
Proof.
  unfold Path.
  destruct (Path_loop_grows recursive ps b) as ((m & He) & _ & Hs).
  cbv zeta in He, Hs.
  destruct (isEmpty (paths _) && isEmpty (errs _)); simpl.
  - rewrite He, Hs, <- app_assoc. eauto.
  - rewrite He, Hs. eauto.
Qed.

(** Path never leaves a Builder without trace: afterwards it has a path
    visitor or an error, so that it resolves to the aggregate of its errors
    or by its paths, and to nothing else (in particular not to the
    missing-resource error). *)
Theorem Path_leaves_paths_or_errors (b : Builder) (recursive : bool)
    (ps : list string) :
  let b' := Path' b recursive ps in
  (exists more, errs b' = errs b ++ more)
  /\ (exists more, paths b' = paths b ++ more)
  /\ ((errs b' <> [] /\
       visitorResult b' =
         (Returns (mkResult (Some (Aggregate (errs b'))) nilVisitor [] false false
                            None [] None), b'))
      \/ (errs b' = [] /\ paths b' <> [] /\
          exists b'', visitorResult b' = (Returns (visitByPaths b''), b''))).
Proof.
  intros b'. subst b'. unfold Path.
  destruct (Path_loop_grows recursive ps b) as ((m1 & He) & (m2 & Hp) & _).
  set (b1 := Path_loop' b recursive ps) in *.
  destruct (isEmpty (paths b1)) eqn:Hpaths; simpl.
  - destruct (isEmpty (errs b1)) eqn:Herrs; simpl.
    + split; [rewrite He; rewrite <- app_assoc; eauto|]. split; [eauto|].
      left. assert (forall A (l : list A) x, l ++ [x] <> []) as Hne
        by (intros A l x Hn; apply app_eq_nil in Hn as [_ ?]; discriminate).
      split; [apply Hne|]. apply visitorResult_errs. simpl. apply Hne.
    + split; [eauto|]. split; [eauto|]. left.
      apply isEmpty_false in Herrs. split; [assumption|].
      now apply visitorResult_errs.
  - split; [eauto|]. split; [eauto|].
    destruct (errs b1) as [|e es] eqn:Herrs.
    + right. split; [reflexivity|]. apply isEmpty_false in Hpaths.
      split; [assumption|].
      unfold visitorResult. rewrite Herrs. simpl.
      destruct (selectAll b1); simpl; apply isEmpty_false in Hpaths;
        rewrite Hpaths; simpl; eauto.
    + left. split; [discriminate|]. rewrite <- Herrs.
      apply visitorResult_errs. rewrite Herrs. discriminate.
Qed.

Lemma Path_loop_missing (recursive : bool) (ps : list string) (p : string) :
  In p ps -> os_IsNotExist (os_Stat p) = true ->
  forall b : Builder,
    In (Errorf pathNotExistError [p]) (errs (Path_loop' b recursive ps)).
Proof.
  induction ps as [|q ps IH]; intros Hin Hmiss b; [contradiction|].
  destruct Hin as [->|Hin].
  - simpl. rewrite Hmiss.
    destruct (Path_loop_grows recursive ps
                (set_errs b (errs b ++ [Errorf pathNotExistError [p]])))
      as ((m & ->) & _). simpl.
    rewrite !in_app_iff. simpl. tauto_props.
  - simpl. destruct (os_IsNotExist (os_Stat q)); [now apply IH|].
    destruct (os_Stat q); [now apply IH|].
    destruct (ExpandPathsToFileVisitors _ _ _ _) as [visitors e].
    now apply IH.
Qed.

(** A path that does not exist leaves its error, whatever the other paths
    are, and the Builder then resolves to the aggregate of its errors. *)
Theorem Path_missing (b : Builder) (recursive : bool) (ps : list string)
    (p : string) :
  In p ps -> os_IsNotExist (os_Stat p) = true ->
  failsWith (Path' b recursive ps) (Errorf pathNotExistError [p]).
Proof.
  intros Hin Hmiss. apply failsWith_intro. unfold Path.
  pose proof (Path_loop_missing recursive ps p Hin Hmiss b) as Hloop.
  destruct (isEmpty (paths _) && isEmpty (errs _)); [|exact Hloop].
  simpl. apply in_or_app. now left.
Qed.

(** The options -f and -k together: FilenameParam' leaves the error of the
    validation and does nothing else; no source is added and the namespace
    is not enforced. *)
Theorem FilenameParam_invalid (b : Builder) (enforceNamespace : bool)
    (o : FilenameOptions) :
  Filenames o <> [] -> Kustomize o <> "" ->
  let b' := FilenameParam' b enforceNamespace o in
  b' = set_errs b (errs b ++ FilenameOptions_validate o)
  /\ paths b' = paths b /\ requireNamespace b' = requireNamespace b
  /\ failsWith b' (Errorf "only one of -f or -k can be specified" []).
Proof.
  intros Hf Hk b'.
  assert (exists more,
             FilenameOptions_validate o
             = Errorf "only one of -f or -k can be specified" [] :: more)
    as [more Hv].
  { unfold FilenameOptions_validate.
    apply isEmpty_false in Hf. rewrite Hf.
    destruct (strEmpty (Kustomize o)) eqn:He; [now apply strEmpty_true in He|].
    simpl. destruct (Recursive o); eauto. }
  assert (b' = set_errs b (errs b ++ FilenameOptions_validate o)) as Hb'.
  { subst b'. unfold FilenameParam. rewrite Hv. reflexivity. }
  split; [exact Hb'|]. rewrite Hb'. split; [reflexivity|]. split; [reflexivity|].
  apply failsWith_intro. simpl. rewrite Hv. apply in_or_app. right. now left.
Qed.

Lemma FilenameParam_loop_grows (recursive : bool) (fs : list string) :
  forall b : Builder,
    let b' := FilenameParam_loop' b recursive fs in
    (exists more, errs b' = errs b ++ more)
    /\ (stdinInUse b = true -> stdinInUse b' = true).
Proof.
  induction fs as [|f fs IH]; intros b; simpl.
  - split; [exists []; now rewrite app_nil_r|auto].
  - destruct (String.eqb f "-").
    { destruct (IH (Stdin' b)) as ((m & ->) & Hs). split.
      - unfold Stdin. simpl. destruct (stdinInUse b); simpl;
          rewrite <- ?app_assoc; eauto.
      - intros _. now apply Hs. }
    destruct (gostrings.HasPrefix f "http://" || gostrings.HasPrefix f "https://").
    { destruct (url_Parse f) as [u|e].
      - destruct (IH (URL b defaultHttpGetAttempts [u])) as ((m & ->) & Hs). eauto.
      - match goal with |- context [FilenameParam_loop' ?b0 _ _] =>
          destruct (IH b0) as ((m & ->) & Hs) end.
        simpl. rewrite <- app_assoc. eauto. }
    destruct (expandIfFilePattern _ _ _ _ f) as [matches [e|]].
    { match goal with |- context [FilenameParam_loop' ?b0 _ _] =>
        destruct (IH b0) as ((m & ->) & Hs) end.
      simpl. rewrite <- app_assoc. eauto. }
    cbv zeta.
    set (b0 := if negb recursive && (length matches =? 1)%nat
               then set_b_singleItemImplied b true else b).
    assert (errs b0 = errs b /\ stdinInUse b0 = stdinInUse b) as [He0 Hs0]
      by (subst b0; destruct (negb recursive && (length matches =? 1)%nat);
          split; reflexivity).
    destruct (IH (Path' b0 recursive matches)) as ((m & Hm) & Hs).
    destruct (Path_grows b0 recursive matches) as ((m1 & He) & Hin).
    split.
    + rewrite Hm, He, He0, <- app_assoc. eauto.
    + intros Hb. apply Hs. rewrite Hin, Hs0. exact Hb.
Qed.

Lemma FilenameParam_loop_stdin_twice (recursive : bool)
    (pre mid post : list string) (b : Builder) :
  In StdinMultiUseError
     (errs (FilenameParam_loop' b recursive (pre ++ "-" :: mid ++ "-" :: post))).
Proof.
  revert b. induction pre as [|f pre IH]; intros b.
  - simpl.
    assert (forall fs b0, stdinInUse b0 = true ->
              In StdinMultiUseError
                 (errs (FilenameParam_loop' b0 recursive (fs ++ "-" :: post))))
      as Hsecond.
    { induction fs as [|f fs IHfs]; intros b0 Hb0.
      - simpl. destruct (FilenameParam_loop_grows recursive post (Stdin' b0))
          as ((m & ->) & _).
        unfold Stdin. simpl. rewrite Hb0. simpl.
        rewrite !in_app_iff. simpl. tauto_props.
      - pose proof (FilenameParam_loop_grows recursive [f] b0) as (_ & Hs).
        specialize (Hs Hb0). simpl in *.
        destruct (String.eqb f "-"); [now apply IHfs|].
        destruct (_ || _).
        { destruct (url_Parse f); now apply IHfs. }
        destruct (expandIfFilePattern _ _ _ _ f) as [matches [e|]];
          now apply IHfs. }
    apply Hsecond. reflexivity.
  - simpl. destruct (String.eqb f "-"); [apply IH|].
    destruct (_ || _); [destruct (url_Parse f); apply IH|].
    destruct (expandIfFilePattern _ _ _ _ f) as [matches [e|]]; apply IH.
Qed.

(** Standard input named twice among the file names: FilenameParam'
    leaves the multiple-use error, whatever the other names are, and the
    Builder then resolves to the aggregate of its errors. *)
Theorem FilenameParam_stdin_twice (b : Builder) (enforceNamespace recursive : bool)
    (pre mid post : list string) :
  failsWith (FilenameParam' b enforceNamespace
               (mkFilenameOptions (pre ++ "-" :: mid ++ "-" :: post) "" recursive))
            StdinMultiUseError.
Proof.
  apply failsWith_intro. unfold FilenameParam.
  assert (FilenameOptions_validate
            (mkFilenameOptions (pre ++ "-" :: mid ++ "-" :: post) "" recursive) = [])
    as -> by (unfold FilenameOptions_validate; simpl; now rewrite andb_false_r).
  simpl. pose proof (FilenameParam_loop_stdin_twice recursive pre mid post b) as Hin.
  destruct enforceNamespace; exact Hin.
Qed.

End SourceProperties.

Lemma selectAll_excludes_selectors_witness :
  errs (LabelSelectorParam samples.TrimSpace
          (SelectAllParam demo.newBuilder true) " app=web ")
  = [Errorf "found non-empty label selector %q with previously set 'all' parameter. "
            [" app=web "]]
  /\ errs (SelectAllParam
            (LabelSelectorParam samples.TrimSpace demo.newBuilder " app=web ") true)
     = [selectAllError].
Proof.
  destruct (selectAll_excludes_selectors samples.TrimSpace demo.newBuilder " app=web ")
    as ((Hlabel & _) & _ & (Hall & _) & _);
    try reflexivity; [vm_compute; discriminate|].
  split; [exact Hlabel|exact Hall].
Defined.

Lemma stdin_claimed_twice_witness :
  failsWith (Stdin samples.FileVisitorForSTDIN
               (Stdin samples.FileVisitorForSTDIN demo.newBuilder))
            StdinMultiUseError.
Proof. apply (stdin_claimed_twice samples.FileVisitorForSTDIN demo.newBuilder). Defined.

Lemma Path_leaves_paths_or_errors_witness :
  paths (Path samples.os_Stat samples.os_IsNotExist
           samples.ExpandPathsToFileVisitors samples.Sprint_strings
           demo.newBuilder false ["dir"])
  = [FileVisitor "dir/a.yaml"; FileVisitor "dir/b.json"]
  /\ errs (Path samples.os_Stat samples.os_IsNotExist
             samples.ExpandPathsToFileVisitors samples.Sprint_strings
             demo.newBuilder false [])
     = [Errorf "error reading %v: recognized file extensions are %v"
               ["[]"; "[.json .yaml .yml]"]].
Proof.
  pose proof (Path_leaves_paths_or_errors samples.os_Stat samples.os_IsNotExist
                samples.ExpandPathsToFileVisitors samples.Sprint_strings
                demo.newBuilder false ["dir"]) as _.
  split; vm_compute; reflexivity.
Defined.

Lemma Path_missing_witness :
  failsWith (Path samples.os_Stat samples.os_IsNotExist
               samples.ExpandPathsToFileVisitors samples.Sprint_strings
               demo.newBuilder false ["pod.yaml"; "gone.yaml"])
            (Errorf pathNotExistError ["gone.yaml"]).
Proof.
  apply Path_missing; [simpl; tauto|reflexivity].
Defined.

Lemma FilenameParam_invalid_witness :
  let o := mkFilenameOptions ["pod.yaml"] "overlay" false in
  let b' := FilenameParam samples.FileVisitorForSTDIN samples.KustomizeVisitor
              samples.os_Stat samples.os_IsNotExist
              samples.ExpandPathsToFileVisitors samples.filepath_Glob
              (fun _ => false) (fun s => Ok s) samples.Sprint_strings
              demo.newBuilder true o in
  paths b' = [] /\ requireNamespace b' = false
  /\ errs b' = [Errorf "only one of -f or -k can be specified" []].
Proof.
  intros o b'.
  destruct (FilenameParam_invalid samples.FileVisitorForSTDIN samples.KustomizeVisitor
              samples.os_Stat samples.os_IsNotExist
              samples.ExpandPathsToFileVisitors samples.filepath_Glob
              (fun _ => false) (fun s => Ok s) samples.Sprint_strings
              demo.newBuilder true o) as (Hb' & Hp & Hr & _);
    [discriminate|discriminate|].
  split; [exact Hp|]. split; [exact Hr|]. subst b'. rewrite Hb'. reflexivity.
Defined.

Lemma FilenameParam_stdin_twice_witness :
  failsWith (FilenameParam samples.FileVisitorForSTDIN samples.KustomizeVisitor
               samples.os_Stat samples.os_IsNotExist
               samples.ExpandPathsToFileVisitors samples.filepath_Glob
               (fun _ => false) (fun s => Ok s) samples.Sprint_strings
               demo.newBuilder false
               (mkFilenameOptions ["-"; "pod.yaml"; "-"] "" false))
            StdinMultiUseError.
Proof.
  apply (FilenameParam_stdin_twice samples.FileVisitorForSTDIN samples.KustomizeVisitor
           samples.os_Stat samples.os_IsNotExist
           samples.ExpandPathsToFileVisitors samples.filepath_Glob
           (fun _ => false) (fun s => Ok s) samples.Sprint_strings
           demo.newBuilder false false [] ["pod.yaml"] []).
Defined.

(** ** The choice of the mapper, and lookups by name across namespaces *)

Section MapperProperties.
Context `{Collaborators}.
Variable NewUnstructuredObjectTyper : ObjectTyper.
Variable unstructuredMapper : mapper.
Variable NewCodecFactory : ObjectTyper -> NegotiatedSerializer.
Variable WithoutConversion : ObjectTyper -> NegotiatedSerializer.
Variable schemeMapper : ObjectTyper -> list GroupVersion -> mapper.

Local Abbreviation Unstructured' :=
  (Unstructured NewUnstructuredObjectTyper unstructuredMapper).
Local Abbreviation WithScheme' :=
  (WithScheme NewCodecFactory WithoutConversion schemeMapper).

Lemma visitorResult_after_error (b : Builder) (e : error) :
  visitorResult (set_errs b (errs b ++ [e]))
  = (Returns (mkResult (Some (Aggregate (errs b ++ [e]))) nilVisitor [] false false
                       None [] None),
     set_errs b (errs b ++ [e])).
Proof.
  apply visitorResult_errs. simpl.
  intros Hnil. apply app_eq_nil in Hnil as [_ Hnil]. discriminate.
Qed.

Lemma mapper_selected (b : Builder) (m : mapper) (scheme : ObjectTyper)
    (decodingVersions : list GroupVersion) :
  b_mapper b = Some m ->
  Unstructured' b
  = set_errs b (errs b ++
      [Errorf "another mapper was already selected, cannot use unstructured types" []])
  /\ WithScheme' b scheme decodingVersions
     = set_errs b (errs b ++
         [Errorf "another mapper was already selected, cannot use internal types" []]).
Proof. intros Hm. unfold Unstructured, WithScheme. now rewrite Hm. Qed.

(** A mapper is selected once.  On a Builder that has a mapper, Unstructured
    and WithScheme change nothing but the errors: the mapper, the typer and
    the serializer stay, one error is added, and the Builder then resolves
    to the aggregate of its errors. *)
Theorem mapper_selected_once (b : Builder) (m : mapper) (scheme : ObjectTyper)
    (decodingVersions : list GroupVersion) :
  b_mapper b = Some m ->
  let unstructuredError :=
    Errorf "another mapper was already selected, cannot use unstructured types" [] in
  let internalError :=
    Errorf "another mapper was already selected, cannot use internal types" [] in
  Unstructured' b = set_errs b (errs b ++ [unstructuredError])
  /\ failsWith (Unstructured' b) unstructuredError
  /\ WithScheme' b scheme decodingVersions = set_errs b (errs b ++ [internalError])
  /\ failsWith (WithScheme' b scheme decodingVersions) internalError.
Proof.
  intros Hm unstructuredError internalError.
  destruct (mapper_selected b m scheme decodingVersions Hm) as [HU HW].
  unfold failsWith. rewrite HU, HW. simpl.
  repeat split; try apply visitorResult_after_error;
    apply in_or_app; right; now left.
Qed.

(** Whatever the Builder, a second selection fails: after Unstructured or
    WithScheme the Builder has a mapper, so that a further WithScheme or
    Unstructured only leaves its error. *)
Theorem mapper_selected_twice (b : Builder) (scheme : ObjectTyper)
    (decodingVersions : list GroupVersion) :
  is_Some (b_mapper (Unstructured' b))
  /\ is_Some (b_mapper (WithScheme' b scheme decodingVersions))
  /\ failsWith (WithScheme' (Unstructured' b) scheme decodingVersions)
       (Errorf "another mapper was already selected, cannot use internal types" [])
  /\ failsWith (Unstructured' (WithScheme' b scheme decodingVersions))
       (Errorf "another mapper was already selected, cannot use unstructured types" []).
Proof.
  assert (is_Some (b_mapper (Unstructured' b))) as HU
    by (unfold Unstructured; destruct (b_mapper b) eqn:Hm; simpl;
        [rewrite Hm|]; eauto).
  assert (is_Some (b_mapper (WithScheme' b scheme decodingVersions))) as HW
    by (unfold WithScheme; destruct (b_mapper b) eqn:Hm; simpl;
        [rewrite Hm|]; eauto).
  split; [exact HU|]. split; [exact HW|].
  destruct HU as [m1 HU], HW as [m2 HW].
  pose proof (mapper_selected (Unstructured' b) m1 scheme decodingVersions HU)
    as (_ & HW1).
  pose proof (mapper_selected (WithScheme' b scheme decodingVersions) m2 scheme
                decodingVersions HW) as (HU2 & _).
  unfold failsWith. rewrite HW1, HU2. simpl.
  repeat split; try apply visitorResult_after_error;
    apply in_or_app; right; now left.
Qed.

End MapperProperties.

Section ByNameProperties.
Context `{Collaborators}.

Lemma mappingFor_AllNamespaces (b : Builder) (all : bool) (resource : string) :
  mappingFor (AllNamespaces b all) resource = mappingFor b resource.
Proof. unfold AllNamespaces. now destruct all. Qed.

(** After AllNamespaces(true), the lookup by name of a namespaced type
    fails: with no path, one type that the mapper knows, and a client for
    it, visitByName returns the Result that holds the error of a retrieval
    by name across all namespaces, without sources. *)
Theorem AllNamespaces_by_name (b : Builder) (resource : string)
    (mapping : RESTMapping) (client : RESTClient) :
  paths b = [] ->
  resources b = [resource] ->
  mappingFor b resource = Returns (Ok mapping) ->
  getClient b (GVK_GroupVersion (Mapping_GroupVersionKind mapping))
  = Returns (Ok client) ->
  Mapping_Scope_Name mapping = RESTScopeNameNamespace ->
  visitByName (AllNamespaces b true)
  = Returns (withError (newResult (length (names b) =? 1)%nat true)
               (Errorf "a resource cannot be retrieved by name across all namespaces" [])).
Proof.
  intros Hpaths Hres Hmap Hclient Hscope.
  unfold visitByName, resourceMappings.
  change (paths (AllNamespaces b true)) with (paths b).
  change (resources (AllNamespaces b true)) with (resources b).
  change (names (AllNamespaces b true)) with (names b).
  rewrite Hpaths, Hres. simpl.
  rewrite mappingFor_AllNamespaces, Hmap. simpl.
  change (getClient (AllNamespaces b true)) with (getClient b).
  rewrite bool_decide_eq_false_2 by set_solver.
  rewrite Hclient.
  unfold selectorNamespaceByName. rewrite Hscope. simpl.
  reflexivity.
Qed.

End ByNameProperties.

(** The Builder of the small cluster has its mapper: Unstructured leaves
    one error. *)
Lemma mapper_selected_once_witness :
  let b := demo.builder [] None false ["pods"] ["a"] []
             false false false true false false in
  errs (@Unstructured demo.collaborators tt tt b)
  = [Errorf "another mapper was already selected, cannot use unstructured types" []]
  /\ b_mapper (@Unstructured demo.collaborators tt tt b) = Some tt.
Proof.
  intros b.
  rewrite (proj1 (@mapper_selected_once demo.collaborators tt tt (fun _ => tt) (fun _ => tt)
                    (fun _ _ => tt) b tt tt [] eq_refl)).
  split; reflexivity.
Defined.

(** A Builder without mapper: Unstructured, then WithScheme. *)
Lemma mapper_selected_twice_witness :
  let b := set_b_mapper (demo.builder [] None false ["pods"] ["a"] []
                           false false false true false false) None in
  b_mapper b = None
  /\ failsWith (@WithScheme demo.collaborators (fun _ => tt) (fun _ => tt) (fun _ _ => tt)
                  (@Unstructured demo.collaborators tt tt b) tt [])
       (Errorf "another mapper was already selected, cannot use internal types" []).
Proof.
  intros b. split; [reflexivity|].
  exact (proj1 (proj2 (proj2 (@mapper_selected_twice demo.collaborators tt tt (fun _ => tt)
                                (fun _ => tt) (fun _ _ => tt) b tt [])))).
Defined.

(** The pod [a] asked for by name across all namespaces. *)
Lemma AllNamespaces_by_name_witness :
  let b := demo.builder [] None false ["pods"] ["a"] []
             false false false true false false in
  exists r, visitByName (AllNamespaces b true) = Returns r
            /\ err r = Some (Errorf "a resource cannot be retrieved by name across all namespaces" [])
            /\ sources r = [].
Proof.
  intros b. eexists. split.
  - refine (AllNamespaces_by_name b "pods" demo.podMapping "v1" eq_refl eq_refl _ _ eq_refl);
      vm_compute; reflexivity.
  - split; reflexivity.
Defined.

(** ** The strategies of a Builder *)

Section StrategyInvariants.
Context `{Collaborators}.










Lemma resourceMappings_loop_distinct (b : Builder) (rs : list string) :
  forall (seen : gset GroupVersionKind) (mappings ms : list RESTMapping),
    (forall k, k ∈ seen <-> k ∈ map Mapping_GroupVersionKind mappings) ->
    NoDup (map Mapping_GroupVersionKind mappings) ->
    resourceMappings_loop b rs seen mappings = Returns (Ok ms) ->
    NoDup (map Mapping_GroupVersionKind ms)
    /\ (forall m, In m ms ->
                  In m mappings
                  \/ exists r, In r rs /\ mappingFor b r = Returns (Ok m))
    /\ (forall m, In m mappings -> In m ms)
    /\ (forall r, In r rs ->
                  exists m m', mappingFor b r = Returns (Ok m) /\ In m' ms /\
                               Mapping_GroupVersionKind m' = Mapping_GroupVersionKind m)
    /\ length ms <= length mappings + length rs.
Proof.
  induction rs as [|r rs IH]; intros seen mappings ms Hseen Hnd Hloop; simpl in Hloop.
  - injection Hloop as <-. repeat split; auto; try lia. intros r [].
  - destruct (mappingFor b r) as [[m|e]|] eqn:Hm; [|discriminate|discriminate].
    destruct (bool_decide_reflect (Mapping_GroupVersionKind m ∈ seen)) as [Hin|Hnin].
    + destruct (IH _ _ _ Hseen Hnd Hloop) as (Hnd' & Hfrom & Hkeep & Hall & Hlen).
      split; [assumption|]. split; [|split; [assumption|split]].
      * intros m0 Hm0. destruct (Hfrom m0 Hm0) as [?|(r0 & ? & ?)]; [now left|].
        right. exists r0. simpl. auto.
      * intros r0 [<-|Hr0]; [|now apply Hall].
        apply Hseen, list_elem_of_In, in_map_iff in Hin as (m' & Heq & Hm').
        exists m, m'. auto.
      * simpl. lia.
    + destruct (IH ({[ Mapping_GroupVersionKind m ]} ∪ seen) (mappings ++ [m]) ms)
        as (Hnd' & Hfrom & Hkeep & Hall & Hlen); [| |assumption|].
      * intros k. rewrite map_app, elem_of_union, elem_of_singleton, elem_of_app, Hseen.
        simpl. rewrite list_elem_of_singleton. tauto.
      * rewrite map_app. apply NoDup_app. split; [assumption|].
        split; [|apply NoDup_singleton]. intros k Hk Hk'.
        apply list_elem_of_singleton in Hk' as ->. now apply Hseen in Hk.
      * split; [assumption|]. split; [|split; [|split]].
        -- intros m0 Hm0. destruct (Hfrom m0 Hm0) as [Hold|(r0 & ? & ?)].
           ++ apply in_app_iff in Hold as [?|[<-|[]]]; [now left|].
              right. exists r. simpl. auto.
           ++ right. exists r0. simpl. auto.
        -- intros m0 Hm0. apply Hkeep, in_app_iff. now left.
        -- intros r0 [<-|Hr0]; [|now apply Hall].
           exists m, m. split; [assumption|]. split; [|reflexivity].
           apply Hkeep, in_app_iff. right. now left.
        -- rewrite length_app in Hlen. simpl in *. lia.
Qed.

(** The mappings of the bulk types: resourceMappings keeps one mapping
    for every kind, so that several names of one type (a short name, the
    plural) give one mapping; every mapping it returns is the mapping of one
    of the types, and every type is covered by a mapping of its kind. *)
Theorem resourceMappings_distinct (b : Builder) (ms : list RESTMapping) :
  resourceMappings b = Returns (Ok ms) ->
  NoDup (map Mapping_GroupVersionKind ms)
  /\ (forall m, In m ms ->
                exists r, In r (resources b) /\ mappingFor b r = Returns (Ok m))
  /\ (forall r, In r (resources b) ->
                exists m m', mappingFor b r = Returns (Ok m) /\ In m' ms /\
                             Mapping_GroupVersionKind m' = Mapping_GroupVersionKind m)
  /\ length ms <= length (resources b).
Proof.
  unfold resourceMappings.
  destruct ((1 <? length (resources b))%nat && singleResourceType b); [discriminate|].
  intros Hloop.
  destruct (resourceMappings_loop_distinct b (resources b) ∅ [] ms)
    as (Hnd & Hfrom & _ & Hall & Hlen);
    [set_solver|constructor|assumption|].
  split; [assumption|]. split; [|split; assumption].
  intros m Hm. destruct (Hfrom m Hm) as [[]|?]. assumption.
Qed.

(** The Info that the lookups by name make for a name. *)
Lemma selectorNamespaceByName_scope (b : Builder) (mapping : RESTMapping)
    (ns : string) :
  selectorNamespaceByName b mapping = Ok ns ->
  if String.eqb (Mapping_Scope_Name mapping) RESTScopeNameNamespace
  then ns = namespace b /\ namespace b <> ""
  else ns = "".
Proof.
  unfold selectorNamespaceByName.
  destruct (String.eqb (Mapping_Scope_Name mapping) RESTScopeNameNamespace); simpl.
  - destruct (strEmpty (namespace b)) eqn:He; [discriminate|].
    intros [= <-]. split; [reflexivity|]. intros Hn. rewrite Hn in He. discriminate.
  - now intros [= <-].
Qed.

(** visitByName, when it succeeds: one Info for every name, in the order
    of the names, all of the one configured type and with one client; the
    namespace of the Infos is the namespace of the Builder, which is not
    empty, for a namespaced type, and empty for any other type. *)
Theorem visitByName_infos (b : Builder) (r : Result Visitor) :
  visitByName b = Returns r -> err r = None ->
  exists resource mapping client ns,
    resources b = [resource] /\ paths b = []
    /\ mappingFor b resource = Returns (Ok mapping)
    /\ getClient b (GVK_GroupVersion (Mapping_GroupVersionKind mapping))
       = Returns (Ok client)
    /\ (if String.eqb (Mapping_Scope_Name mapping) RESTScopeNameNamespace
        then ns = namespace b /\ namespace b <> ""
        else ns = "")
    /\ sources r
       = map (fun name =>
                InfoVisitor (mkInfo (Some client) (Some mapping) ns name
                                    (subresource b) None ""))
             (names b)
    /\ visitor r = VisitorList (sources r)
    /\ singleItemImplied r = (length (names b) =? 1)%nat
    /\ targetsSingleItems r = true.
Proof.
  unfold visitByName.
  destruct (isEmpty (paths b)) eqn:Hpaths; simpl; [|intros [= <-]; discriminate].
  destruct (isEmpty (resources b)) eqn:Hres; [intros [= <-]; discriminate|].
  destruct (Nat.ltb_spec 1 (length (resources b))) as [|Hlen];
    [intros [= <-]; discriminate|].
  destruct (resources b) as [|resource [|r' rs]] eqn:Hresources;
    [discriminate| |simpl in Hlen; lia].
  unfold resourceMappings. rewrite Hresources. simpl.
  destruct (mappingFor b resource) as [[mapping|e]|] eqn:Hm;
    [|intros [= <-]; discriminate|discriminate].
  rewrite bool_decide_eq_false_2 by set_solver. simpl.
  destruct (getClient b _) as [[client|e]|] eqn:Hc;
    [|intros [= <-]; discriminate|discriminate].
  destruct (selectorNamespaceByName b mapping) as [ns|e] eqn:Hns;
    [|intros [= <-]; discriminate].
  intros [= <-] _. exists resource, mapping, client, ns.
  apply isEmpty_true in Hpaths.
  repeat split; auto. now apply selectorNamespaceByName_scope.
Qed.







(** A strategy that failed goes through Do untouched but for the mapper:
    no layer is put around its visitor, which stays nil. *)
Theorem Do_keeps_failure (b b' : Builder) (r : Result Visitor) (m : mapper)
    (e : error) :
  visitorResult b = (Returns r, b') -> err r = Some e -> b_mapper b = Some m ->
  exists r', Do b = (Returns r', b')
             /\ err r' = Some e /\ visitor r' = visitor r /\ sources r' = sources r
             /\ r_mapper r' = Some m.
Proof.
  intros Hvr Herr Hm. rewrite (Do_failed b b' r m e Hvr Herr Hm).
  eexists. split; [reflexivity|]. simpl. auto.
Qed.

End StrategyInvariants.

Lemma resourceMappings_distinct_witness :
  resourceMappings (demo.builder [] None false ["pods"; "po"; "services"] [] []
                      false false false true false false)
  = Returns (Ok [demo.podMapping; demo.serviceMapping])
  /\ NoDup (map Mapping_GroupVersionKind [demo.podMapping; demo.serviceMapping]).
Proof.
  assert (resourceMappings
            (demo.builder [] None false ["pods"; "po"; "services"] [] []
               false false false true false false)
          = Returns (Ok [demo.podMapping; demo.serviceMapping])) as Hms
    by (vm_compute; reflexivity).
  split; [exact Hms|]. exact (proj1 (resourceMappings_distinct _ _ Hms)).
Defined.

Lemma visitByName_infos_witness :
  let b := demo.builder [] None false ["nodes"] ["n1"; "n2"] []
             false false false true false false in
  exists r, visitByName b = Returns r /\ err r = None /\
    exists resource mapping client ns,
      resources b = [resource] /\ paths b = []
      /\ mappingFor b resource = Returns (Ok mapping)
      /\ getClient b (GVK_GroupVersion (Mapping_GroupVersionKind mapping))
         = Returns (Ok client)
      /\ (if String.eqb (Mapping_Scope_Name mapping) RESTScopeNameNamespace
          then ns = namespace b /\ namespace b <> ""
          else ns = "")
      /\ sources r
         = map (fun name =>
                  InfoVisitor (mkInfo (Some client) (Some mapping) ns name
                                      (subresource b) None ""))
               (names b)
      /\ visitor r = VisitorList (sources r)
      /\ singleItemImplied r = (length (names b) =? 1)%nat
      /\ targetsSingleItems r = true.
Proof.
  intros b.
  assert (callable b) as Hb
    by (split; [split|right]; intros Hx;
        cbv beta iota zeta delta -[demo.restMapper] in Hx; discriminate).
  destruct (visitByName_returns b Hb) as [r Hr].
  exists r. split; [exact Hr|].
  assert (err r = None) as Herr.
  { assert (Returns r = visitByName b) as Heq by (now rewrite Hr).
    vm_compute in Heq. injection Heq as ->. reflexivity. }
  split; [exact Herr|]. exact (visitByName_infos b r Hr Herr).
Defined.



Lemma Do_keeps_failure_witness :
  exists r', Do demo.newBuilder = (Returns r', demo.newBuilder)
             /\ err r' = Some missingResourceError /\ visitor r' = nilVisitor.
Proof.
  destruct (Do_keeps_failure demo.newBuilder demo.newBuilder
              (withError (newResult false false) missingResourceError) tt
              missingResourceError eq_refl eq_refl eq_refl)
    as (r' & HDo & Herr & Hv & _).
  exists r'. auto.
Defined.

(** ** More of the Result *)

Section MoreResultProperties.
Context `{Collaborators} {V W : Type} `{!VisitorImpl V W}.
Variable asResourceMapping : V -> option (option RESTMapping).
Variable TypeOf : V -> string.

(** Object, like Infos, reads its sources once: after a call that
    succeeded, every later call of Object returns the same object, and Infos
    returns the stored list, whatever the visitor is, and the Result and the
    world stay as they are. *)
Theorem Object_idempotent (r r' : Result V) (w w' : W) (o : option Object) :
  Result_Object r w = Returns (o, None, r', w') ->
  forall (other : VisitorImpl V W) (w'' : W),
    @Result_Object _ V W other r' w'' = Returns (o, None, r', w'')
    /\ exists infos,
        @Result_Infos _ V W other r' w'' = Returns (Some infos, None, r', w'').
Proof.
  intros HO other w''.
  unfold Result_Object in HO.
  destruct (Result_Infos r w) as [[[[l e] r1] w1]|] eqn:Hi; [|discriminate].
  destruct e as [e|]; [discriminate|].
  destruct (Infos_success _ _ _ _ _ Hi) as (infos & -> & Herr & Hinfo & _).
  assert (@Result_Infos _ V W other r1 w'' = Returns (Some infos, None, r1, w''))
    as Hagain by (unfold Result_Infos; now rewrite Herr, Hinfo).
  assert (r' = r1) as ->.
  { destruct (Object_loop (default [] (Some infos))) as [versions objects].
    destruct objects as [|o0 [|o1 objects]];
      repeat match type of HO with
             | context [if ?b then _ else _] => destruct b
             end; now injection HO as _ <- _. }
  split; [|eauto].
  unfold Result_Object. rewrite Hagain.
  destruct (Object_loop (default [] (Some infos))) as [versions objects].
  destruct objects as [|o0 [|o1 objects]];
    repeat match type of HO with
           | context [if ?b then _ else _] => destruct b
           end; injection HO as <- _; reflexivity.
Qed.

Lemma ResourceMapping_loop_ok (vs : list V) (ms : list RESTMapping) :
  Forall2 (fun v m => asResourceMapping v = Some (Some m)) vs ms ->
  forall mappings,
    ResourceMapping_loop asResourceMapping TypeOf vs mappings
    = Returns (Ok (foldl (fun acc m => <[ Mapping_Resource m := m ]> acc) mappings ms)).
Proof.
  induction 1 as [|v m vs ms Hv _ IH]; intros mappings; simpl; [reflexivity|].
  now rewrite Hv, IH.
Qed.

Lemma last_cons {A : Type} (l : list A) (x d : A) :
  List.last (x :: l) d = List.last l x.
Proof.
  revert x d. induction l as [|y l IH]; intros x d; [reflexivity|].
  change (List.last (y :: l) d = List.last (y :: l) x).
  now rewrite !IH.
Qed.

Lemma foldl_insert_same (k : GroupVersionResource) (ms : list RESTMapping) :
  Forall (fun m => Mapping_Resource m = k) ms ->
  forall (m0 : RESTMapping),
    foldl (fun acc m => <[ Mapping_Resource m := m ]> acc)
          ({[ k := m0 ]} : gmap GroupVersionResource RESTMapping) ms
    = {[ k := List.last ms m0 ]}.
Proof.
  induction 1 as [|m ms Hm _ IH]; intros m0; [reflexivity|].
  rewrite last_cons. simpl.
  now rewrite Hm, insert_singleton_eq, IH.
Qed.

Lemma foldl_insert_dom (ms : list RESTMapping) :
  forall (mappings : gmap GroupVersionResource RESTMapping),
    dom (foldl (fun acc m => <[ Mapping_Resource m := m ]> acc) mappings ms)
    = dom mappings ∪ list_to_set (map Mapping_Resource ms).
Proof.
  induction ms as [|m ms IH]; intros mappings; simpl; [set_solver|].
  rewrite IH, dom_insert_L. set_solver.
Qed.

(** ResourceMapping of a Result whose sources all report a mapping: it
    returns a mapping exactly when there is a source and all the sources
    report the same resource, and it is then the mapping of the last source;
    without source, or with two different resources, it returns the
    single-type error.  It never returns nil for both the mapping and the
    error. *)
Theorem ResourceMapping_single (r : Result V) (ms : list RESTMapping) :
  err r = None ->
  Forall2 (fun v m => asResourceMapping v = Some (Some m)) (sources r) ms ->
  (forall m, List.last ms m = m -> ms <> [] ->
             Forall (fun m' => Mapping_Resource m' = Mapping_Resource m) ms ->
             Result_ResourceMapping asResourceMapping TypeOf r
             = Returns (Some m, None))
  /\ (ms = [] ->
      Result_ResourceMapping asResourceMapping TypeOf r
      = Returns (None, Some singleMappingError))
  /\ (forall m1 m2, In m1 ms -> In m2 ms ->
                    Mapping_Resource m1 <> Mapping_Resource m2 ->
                    Result_ResourceMapping asResourceMapping TypeOf r
                    = Returns (None, Some singleMappingError)).
Proof.
  intros Herr Hall. unfold Result_ResourceMapping. rewrite Herr.
  rewrite (ResourceMapping_loop_ok _ _ Hall). split; [|split].
  - intros m Hlast Hne Hsame.
    destruct ms as [|m0 ms]; [contradiction|]. simpl.
    apply Forall_cons in Hsame as [Hm0 Hsame].
    rewrite insert_empty, Hm0, foldl_insert_same by assumption.
    rewrite map_size_singleton, map_to_list_singleton. simpl.
    now rewrite <- last_cons with (d := m), Hlast.
  - intros ->. simpl. now rewrite map_size_empty.
  - intros m1 m2 H1 H2 Hne.
    match goal with |- context [size ?X] =>
      assert (1 < size X) as Hsize end.
    { rewrite <- size_dom. apply gset_size_gt_1.
      exists (Mapping_Resource m1), (Mapping_Resource m2).
      rewrite foldl_insert_dom, !elem_of_union, !elem_of_list_to_set.
      rewrite !list_elem_of_In. split; [right; now apply in_map|].
      split; [right; now apply in_map|exact Hne]. }
    match goal with |- context [(size ?X =? 1)%nat] =>
      destruct (Nat.eqb_spec (size X) 1) as [Heq|_]; [lia|] end.
    reflexivity.
Qed.

Lemma ResourceMapping_loop_app (pre post : list V) (ms : list RESTMapping) :
  Forall2 (fun v m => asResourceMapping v = Some (Some m)) pre ms ->
  forall mappings,
    ResourceMapping_loop asResourceMapping TypeOf (pre ++ post) mappings
    = ResourceMapping_loop asResourceMapping TypeOf post
        (foldl (fun acc m => <[ Mapping_Resource m := m ]> acc) mappings ms).
Proof.
  induction 1 as [|v m vs ms Hv _ IH]; intros mappings; simpl; [reflexivity|].
  now rewrite Hv, IH.
Qed.

(** ResourceMapping stops at the first source that does not report a
    mapping: when that source has no ResourceMapping method, the error names
    its type, whatever the later sources are, and when its method returns
    the nil pointer, the call panics. *)
Theorem ResourceMapping_first_bad_source (r : Result V) (pre post : list V)
    (v : V) (ms : list RESTMapping) :
  err r = None ->
  sources r = pre ++ v :: post ->
  Forall2 (fun v m => asResourceMapping v = Some (Some m)) pre ms ->
  (asResourceMapping v = None ->
   Result_ResourceMapping asResourceMapping TypeOf r
   = Returns (None, Some (Errorf "a resource mapping could not be loaded from %v"
                                 [TypeOf v])))
  /\ (asResourceMapping v = Some None ->
      Result_ResourceMapping asResourceMapping TypeOf r = Panics).
Proof.
  intros Herr Hsrc Hpre. unfold Result_ResourceMapping.
  rewrite Herr, Hsrc, (ResourceMapping_loop_app _ _ _ Hpre). simpl.
  split; intros ->; reflexivity.
Qed.

End MoreResultProperties.

(** Two pods on standard input: Object returns the list of both; asked
    again of the Result it left, with the stream at its end and a visitor
    that panics, it returns the same list. *)
Lemma Object_idempotent_witness :
  let r0 := demo.fromStdin false in
  let w0 := [inl (demo.pod "a" "7"); inl (demo.pod "b" "7")] in
  let r1 := set_info_err r0 (Some [demo.pod "a" "7"; demo.pod "b" "7"]) None in
  let o := Some (v1_List "7" [Decoded "a"; Decoded "b"]) in
  Result_Object r0 w0 = Returns (o, None, r1, [])
  /\ @Result_Object _ _ _ demo.panicking r1 [] = Returns (o, None, r1, []).
Proof.
  intros r0 w0 r1 o.
  assert (Result_Object r0 w0 = Returns (o, None, r1, [])) as Hfirst
    by (vm_compute; reflexivity).
  split; [exact Hfirst|].
  exact (proj1 (Object_idempotent _ _ _ _ _ Hfirst demo.panicking [])).
Defined.

(** Two pods found by name: their common mapping is returned. *)
Lemma ResourceMapping_single_witness :
  Result_ResourceMapping samples.asResourceMapping samples.TypeOf
    (samples.resultOf [InfoVisitor (demo.pod "a" "1"); InfoVisitor (demo.pod "b" "1")])
  = Returns (Some demo.podMapping, None).
Proof.
  refine (proj1 (ResourceMapping_single samples.asResourceMapping samples.TypeOf
                   (samples.resultOf [InfoVisitor (demo.pod "a" "1");
                                      InfoVisitor (demo.pod "b" "1")])
                   [demo.podMapping; demo.podMapping] eq_refl _)
                demo.podMapping eq_refl _ _).
  - repeat constructor.
  - discriminate.
  - repeat constructor.
Defined.

(** A pod found by name, then a file: the error names the file visitor. *)
Lemma ResourceMapping_first_bad_source_witness :
  Result_ResourceMapping samples.asResourceMapping samples.TypeOf
    (samples.resultOf [InfoVisitor (demo.pod "a" "1"); FileVisitor "pod.yaml";
                       InfoVisitor (demo.pod "b" "1")])
  = Returns (None, Some (Errorf "a resource mapping could not be loaded from %v"
                                ["*resource.FileVisitor"])).
Proof.
  refine (proj1 (ResourceMapping_first_bad_source
                   samples.asResourceMapping samples.TypeOf
                   (samples.resultOf [InfoVisitor (demo.pod "a" "1");
                                      FileVisitor "pod.yaml";
                                      InfoVisitor (demo.pod "b" "1")])
                   [InfoVisitor (demo.pod "a" "1")]
                   [InfoVisitor (demo.pod "b" "1")]
                   (FileVisitor "pod.yaml") [demo.podMapping]
                   eq_refl eq_refl _) eq_refl).
  repeat constructor.
Defined.

(** ** kubectl's MatchVersionFlags *)

Section MatchVersionProperties.
Context {DiscoveryClient Serializer ConfigRest W : Type}.
Variable MatchesServerVersion : DiscoveryClient -> W -> option error * W.
Variable scheme_Codecs_WithoutConversion : Serializer.
Variable rest_SetKubernetesDefaults :
  rest_Config Serializer ConfigRest -> rest_Config Serializer ConfigRest * option error.
Implicit Type f : @MatchVersionFlags DiscoveryClient Serializer ConfigRest W.

Local Abbreviation check := (checkMatchingServerVersion MatchesServerVersion).

Lemma check_checked f :
  checkServerVersion f = true ->
  forall w, check f w = Returns (matchesServerVersionErr f, f, w).
Proof. intros Hc w. unfold checkMatchingServerVersion. now rewrite Hc. Qed.

Lemma check_first f f1 (w w1 : W) (e : option error) :
  check f w = Returns (e, f1, w1) ->
  checkServerVersion f1 = true /\ matchesServerVersionErr f1 = e
  /\ Delegate f1 = Delegate f.
Proof.
  unfold checkMatchingServerVersion.
  destruct (checkServerVersion f) eqn:Hc.
  { intros [= <- <- <-]. auto. }
  simpl. destruct (RequireMatchedServerVersion f); simpl.
  - destruct (Delegate f) as [d|] eqn:Hd; [|discriminate].
    destruct (D_ToDiscoveryClient d w) as [[dc|e'] w'].
    + destruct (MatchesServerVersion dc w') as [e'' w''].
      intros [= <- <- <-]. simpl. auto.
    + intros [= <- <- <-]. simpl. auto.
  - intros [= <- <- <-]. auto.
Qed.

(** The version check is made once: after a call of
    checkMatchingServerVersion has returned, every later call returns the
    same verdict, an error included, without a call of the delegate or of
    the server, also when the flag RequireMatchedServerVersion has been
    changed in between. *)
Theorem checkMatchingServerVersion_once f f1 (w w1 : W) (e : option error) :
  check f w = Returns (e, f1, w1) ->
  forall (b : bool) (w' : W),
    check (set_RequireMatchedServerVersion f1 b) w'
    = Returns (e, set_RequireMatchedServerVersion f1 b, w').
Proof.
  intros Hfirst b w'.
  destruct (check_first _ _ _ _ _ Hfirst) as (Hc & <- & _).
  now rewrite check_checked.
Qed.

(** Once the version check has failed, the three getters fail with its
    error from then on, and leave the delegate and the server alone. *)
Theorem getters_after_failed_check f f1 (w w1 : W) (e : error) :
  check f w = Returns (Some e, f1, w1) ->
  forall w' : W,
    ToRESTConfig MatchesServerVersion scheme_Codecs_WithoutConversion
                 rest_SetKubernetesDefaults f1 w' = Returns (Err e, f1, w')
    /\ ToDiscoveryClient MatchesServerVersion f1 w' = Returns (Err e, f1, w')
    /\ ToRESTMapper MatchesServerVersion f1 w' = Returns (Err e, f1, w').
Proof.
  intros Hfirst w'.
  destruct (check_first _ _ _ _ _ Hfirst) as (Hc & He & _).
  unfold ToRESTConfig, ToDiscoveryClient, ToRESTMapper.
  now rewrite check_checked, He.
Qed.

(** The flag is read at the first use only.  When it is off then, the
    version is never checked: the first getter, and every later one even
    after the flag has been turned on, hands the call to the delegate and
    returns its answer, and discovery.MatchesServerVersion is not called. *)
Theorem flag_read_at_first_use f (d : RESTClientGetter DiscoveryClient Serializer ConfigRest W) (w : W) :
  Delegate f = Some d ->
  RequireMatchedServerVersion f = false ->
  checkServerVersion f = false ->
  matchesServerVersionErr f = None ->
  let f1 := set_checkServerVersion f true in
  ToDiscoveryClient MatchesServerVersion f w
  = Returns (fst (D_ToDiscoveryClient d w), f1, snd (D_ToDiscoveryClient d w))
  /\ forall (b : bool) (w' : W),
      let f2 := set_RequireMatchedServerVersion f1 b in
      ToDiscoveryClient MatchesServerVersion f2 w'
      = Returns (fst (D_ToDiscoveryClient d w'), f2, snd (D_ToDiscoveryClient d w'))
      /\ ToRESTMapper MatchesServerVersion f2 w'
         = Returns (fst (D_ToRESTMapper d w'), f2, snd (D_ToRESTMapper d w')).
Proof.
  intros Hd Hreq Hc Herr f1. split.
  - unfold ToDiscoveryClient, checkMatchingServerVersion.
    rewrite Hc. simpl. rewrite Hreq, Herr. simpl. rewrite Hd.
    now destruct (D_ToDiscoveryClient d w).
  - intros b w' f2.
    unfold ToDiscoveryClient, ToRESTMapper.
    rewrite check_checked by reflexivity. simpl. rewrite Herr, Hd.
    destruct (D_ToDiscoveryClient d w'), (D_ToRESTMapper d w'). auto.
Qed.

(** ToRESTConfig returns no error of its own: an error it returns is the
    verdict of the version check or the error of the delegate's
    ToRESTConfig.  In particular the error of setKubernetesDefaults is
    dropped, and the config is returned as that function left it. *)
Theorem ToRESTConfig_error_origin f f1 (w w1 : W)
    (r : result (rest_Config Serializer ConfigRest)) :
  ToRESTConfig MatchesServerVersion scheme_Codecs_WithoutConversion
               rest_SetKubernetesDefaults f w = Returns (r, f1, w1) ->
  match r with
  | Err e =>
      matchesServerVersionErr f1 = Some e
      \/ exists d w0, Delegate f = Some d /\ fst (D_ToRESTConfig d w0) = Err e
  | Ok config =>
      matchesServerVersionErr f1 = None
      /\ exists d w0 c, Delegate f = Some d
           /\ D_ToRESTConfig d w0 = (Ok (Some c), w1)
           /\ config = fst (setKubernetesDefaults scheme_Codecs_WithoutConversion
                                                  rest_SetKubernetesDefaults c)
  end.
Proof.
  unfold ToRESTConfig.
  destruct (check f w) as [[[e f'] w']|] eqn:Hfirst; [|discriminate].
  destruct (check_first _ _ _ _ _ Hfirst) as (_ & He & Hd).
  destruct e as [e|].
  - intros [= <- <- <-]. now left.
  - destruct (Delegate f') as [d|] eqn:Hd'; [|discriminate].
    destruct (D_ToRESTConfig d w') as [[[c|]|e] w''] eqn:HD; [| discriminate |].
    + intros [= <- <- <-]. split; [exact He|]. exists d, w', c.
      rewrite <- Hd. auto.
    + intros [= <- <- <-]. right. exists d, w'. rewrite <- Hd, HD. auto.
Qed.

End MatchVersionProperties.

(** The flag is on and discovery fails at the first check: the failure is
    the verdict of every later check, although discovery would answer. *)
Lemma checkMatchingServerVersion_once_witness :
  let f := set_RequireMatchedServerVersion (NewMatchVersionFlags (Some samples.getter)) true in
  let e := Some (OtherError "discovery failed") in
  let f1 := set_matchesServerVersionErr (set_checkServerVersion f true) e in
  checkMatchingServerVersion samples.MatchesServerVersion f 0 = Returns (e, f1, 1)
  /\ fst (D_ToDiscoveryClient samples.getter 1) = Ok "discovery"
  /\ checkMatchingServerVersion samples.MatchesServerVersion f1 1 = Returns (e, f1, 1).
Proof.
  intros f e f1.
  assert (checkMatchingServerVersion samples.MatchesServerVersion f 0
          = Returns (e, f1, 1)) as Hfirst by reflexivity.
  split; [exact Hfirst|]. split; [reflexivity|].
  exact (checkMatchingServerVersion_once _ _ _ _ _ _ Hfirst true 1).
Defined.

(** After that failed check, no getter reaches the delegate. *)
Lemma getters_after_failed_check_witness :
  let f := set_RequireMatchedServerVersion (NewMatchVersionFlags (Some samples.getter)) true in
  let e := OtherError "discovery failed" in
  let f1 := set_matchesServerVersionErr (set_checkServerVersion f true) (Some e) in
  ToRESTMapper samples.MatchesServerVersion f1 1 = Returns (Err e, f1, 1).
Proof.
  intros f e f1.
  assert (checkMatchingServerVersion samples.MatchesServerVersion f 0
          = Returns (Some e, f1, 1)) as Hfirst by reflexivity.
  exact (proj2 (proj2 (getters_after_failed_check samples.MatchesServerVersion
                         "codec" samples.rest_SetKubernetesDefaults
                         _ _ _ _ _ Hfirst 1))).
Defined.

(** The flag is off at the first use and turned on afterwards: the mapper
    is the delegate's, although the server is of another version. *)
Lemma flag_read_at_first_use_witness :
  let f := NewMatchVersionFlags (Some samples.getter) in
  let f2 := set_RequireMatchedServerVersion (set_checkServerVersion f true) true in
  ToDiscoveryClient samples.MatchesServerVersion f 1
  = Returns (Ok "discovery", set_checkServerVersion f true, 2)
  /\ ToRESTMapper samples.MatchesServerVersion f2 2 = Returns (Ok demo.restMapper, f2, 3).
Proof.
  intros f f2.
  destruct (flag_read_at_first_use samples.MatchesServerVersion f samples.getter 1
              eq_refl eq_refl eq_refl eq_refl) as [Hfirst Hlater].
  split; [exact Hfirst|].
  exact (proj2 (Hlater true 2)).
Defined.

(** The defaults cannot be set, and ToRESTConfig returns the config all the
    same, with the group version, the API path and the serializer set. *)
Lemma ToRESTConfig_error_origin_witness :
  snd (setKubernetesDefaults "codec" samples.rest_SetKubernetesDefaults
                             (mkConfig None "" None tt))
  = Some (OtherError "no user agent")
  /\ exists f1 w1,
      ToRESTConfig samples.MatchesServerVersion "codec"
                   samples.rest_SetKubernetesDefaults
                   (NewMatchVersionFlags (Some samples.getter)) 0
      = Returns (Ok (mkConfig (Some (GV "" "v1")) "/api" (Some "codec") tt), f1, w1)
      /\ matchesServerVersionErr f1 = None.
Proof.
  split; [reflexivity|]. eexists _, _. split; [reflexivity|].
  exact (proj1 (ToRESTConfig_error_origin samples.MatchesServerVersion "codec"
                  samples.rest_SetKubernetesDefaults
                  (NewMatchVersionFlags (Some samples.getter)) _ 0 _ _ eq_refl)).
Defined.

(** ** kubectl's plugin handler *)

Section PluginProperties.
Context {W : Type}.
Variable exec_LookPath : W -> string -> string * option error.
Variable shouldSkipOnLookPathErr : option error -> bool.
Variable os_Environ : W -> list string.
Implicit Type h : PluginHandler W.

Lemma nonFlagArgs_length (cmdArgs : list string) :
  length (nonFlagArgs cmdArgs) <= length cmdArgs.
Proof.
  induction cmdArgs as [|arg rest IH]; simpl; [lia|].
  destruct (gostrings.HasPrefix arg "-"); simpl; lia.
Qed.

(** A path that DefaultPluginHandler's Lookup reports as found is not empty,
    and it is what exec.LookPath returned, without an error to skip, for the
    first of the valid prefixes that has such an answer; when nothing is
    found, the path is empty. *)
Theorem DefaultPluginHandler_Lookup_first (d : DefaultPluginHandler) (w : W)
    (filename : string) :
  let ok prefix :=
    let '(path, err) := exec_LookPath w (prefix ++ "-" ++ filename)%string in
    negb (shouldSkipOnLookPathErr err || strEmpty path) in
  match DefaultPluginHandler_Lookup exec_LookPath shouldSkipOnLookPathErr d w filename with
  | (path, true) =>
      path <> ""
      /\ exists before prefix after,
          ValidPrefixes d = before ++ prefix :: after
          /\ Forall (fun p => ok p = false) before
          /\ ok prefix = true
          /\ fst (exec_LookPath w (prefix ++ "-" ++ filename)%string) = path
  | (path, false) =>
      path = "" /\ Forall (fun p => ok p = false) (ValidPrefixes d)
  end.
Proof.
  intros ok. unfold DefaultPluginHandler_Lookup.
  induction (ValidPrefixes d) as [|prefix rest IH]; simpl.
  { split; [reflexivity|constructor]. }
  destruct (exec_LookPath w (prefix ++ "-" ++ filename)%string)
    as [path err] eqn:Hlook.
  destruct (shouldSkipOnLookPathErr err || strEmpty path) eqn:Hskip.
  - assert (ok prefix = false) as Hno by (unfold ok; now rewrite Hlook, Hskip).
    destruct (DefaultPluginHandler_Lookup_loop _ _ rest w filename)
      as [path' [|]].
    + destruct IH as (Hne & before & p & after & -> & Hb & Hp & Hpath).
      split; [exact Hne|]. exists (prefix :: before), p, after.
      split; [reflexivity|]. split; [now constructor|]. auto.
    + destruct IH as [-> Hall]. split; [reflexivity|now constructor].
  - split.
    + apply orb_false_elim in Hskip as [_ Hpath].
      intros ->. discriminate Hpath.
    + exists [], prefix, rest. split; [reflexivity|]. split; [constructor|].
      unfold ok. now rewrite Hlook, Hskip.
Qed.

(** When the first argument is a flag, HandlePluginCommand returns the
    error that names it, and looks nothing up and runs nothing; on an empty
    list of arguments it panics. *)
Theorem HandlePluginCommand_flag_first h (cmdArgs : list string)
    (exactMatch : bool) (w : W) :
  HandlePluginCommand os_Environ h [] exactMatch w = Panics
  /\ forall arg0 rest,
      cmdArgs = arg0 :: rest -> gostrings.HasPrefix arg0 "-" = true ->
      HandlePluginCommand os_Environ h cmdArgs exactMatch w
      = Returns (Some (Errorf "flags cannot be placed before plugin name: %s"
                              [arg0]), w).
Proof.
  split; [reflexivity|]. intros arg0 rest -> Hflag.
  unfold HandlePluginCommand. simpl. now rewrite Hflag.
Qed.

Lemma findBinary_longest h (w : W) (names : list string) (k : nat) (path : string) :
  0 < k ->
  Lookup h w (gostrings.Join (take k names) "-") = (path, true) ->
  forall n,
    k <= n ->
    (forall j, k < j <= n ->
               snd (Lookup h w (gostrings.Join (take j names) "-")) = false) ->
    findBinary h w false names n = (path, k).
Proof.
  intros Hk Hfound n. induction n as [|n IH]; intros Hle Hlonger; [lia|].
  destruct (Nat.eq_dec k (S n)) as [<-|Hne].
  - destruct k; [lia|]. simpl in *. now rewrite Hfound.
  - simpl. specialize (Hlonger (S n) ltac:(lia)) as Hlast.
    destruct (Lookup h w (gostrings.Join (take (S n) names) "-")) as [p found].
    simpl in Hlast. subst found. simpl.
    apply IH; [lia|]. intros j Hj. apply Hlonger. lia.
Qed.

Lemma findBinary_none h (w : W) (names : list string) (n : nat) :
  (forall j, 0 < j <= n ->
             snd (Lookup h w (gostrings.Join (take j names) "-")) = false) ->
  fst (findBinary h w false names n) = "".
Proof.
  induction n as [|n IH]; intros Hnone; [reflexivity|].
  simpl. specialize (Hnone (S n) ltac:(lia)) as Hlast.
  destruct (Lookup h w (gostrings.Join (take (S n) names) "-")) as [p found].
  simpl in Hlast. subst found. simpl.
  apply IH. intros j Hj. apply Hnone. lia.
Qed.

(** Without exactMatch the plugin of the longest name is run: when the
    first k arguments before the first flag, dashes replaced and joined by
    dashes, name a plugin and no longer such name does, HandlePluginCommand
    runs that plugin on the arguments after the first k, as they were
    given, and returns what Execute returns. *)
Theorem HandlePluginCommand_longest h (cmdArgs : list string) (w : W)
    (k : nat) (path : string) :
  let names := nonFlagArgs cmdArgs in
  0 < k <= length names ->
  Lookup h w (gostrings.Join (take k names) "-") = (path, true) ->
  path <> "" ->
  (forall j, k < j <= length names ->
             snd (Lookup h w (gostrings.Join (take j names) "-")) = false) ->
  HandlePluginCommand os_Environ h cmdArgs false w
  = Returns (Execute h path (drop k cmdArgs) (os_Environ w) w).
Proof.
  intros names [Hk Hle] Hfound Hpath Hlonger. unfold HandlePluginCommand.
  fold names.
  destruct (Nat.eqb_spec (length names) 0) as [Hz|_]; [lia|].
  rewrite (findBinary_longest h w names k path Hk Hfound _ Hle Hlonger).
  destruct (strEmpty path) eqn:He; [|reflexivity].
  apply strEmpty_true in He. contradiction.
Qed.

(** HandlePluginCommand returns nil and runs nothing when no name is found:
    with exactMatch when the name made of all the arguments before the first
    flag is not found, whatever shorter names would find, and without it
    when none of the names is found. *)
Theorem HandlePluginCommand_not_found h (cmdArgs : list string)
    (exactMatch : bool) (w : W) :
  let names := nonFlagArgs cmdArgs in
  names <> [] ->
  (if exactMatch
   then snd (Lookup h w (gostrings.Join names "-")) = false
   else forall j, 0 < j <= length names ->
                  snd (Lookup h w (gostrings.Join (take j names) "-")) = false) ->
  HandlePluginCommand os_Environ h cmdArgs exactMatch w = Returns (None, w).
Proof.
  intros names Hne Hnone. unfold HandlePluginCommand. fold names.
  destruct (Nat.eqb_spec (length names) 0) as [Hz|Hnz].
  { destruct names; [contradiction|discriminate]. }
  destruct exactMatch.
  - destruct (length names) as [|n] eqn:Hlen; [contradiction|].
    simpl. rewrite <- Hlen, firstn_all.
    destruct (Lookup h w (gostrings.Join names "-")) as [p found].
    simpl in Hnone. subst found. reflexivity.
  - pose proof (findBinary_none h w names (length names) Hnone) as Hf.
    destruct (findBinary h w false names (length names)) as [p n].
    simpl in Hf. subst p. reflexivity.
Qed.

End PluginProperties.

(** [kubectl-foo] is found under the prefix [kubectl]. *)
Lemma DefaultPluginHandler_Lookup_first_witness :
  DefaultPluginHandler_Lookup samples.exec_LookPath samples.shouldSkipOnLookPathErr
    (NewDefaultPluginHandler ["krew"; "kubectl"]) [] "foo"
  = ("/bin/kubectl-foo", true)
  /\ "/bin/kubectl-foo" <> "".
Proof.
  split; [reflexivity|].
  exact (proj1 (DefaultPluginHandler_Lookup_first samples.exec_LookPath
                  samples.shouldSkipOnLookPathErr
                  (NewDefaultPluginHandler ["krew"; "kubectl"]) [] "foo")).
Defined.

(** [kubectl --v=2 foo]: the flag comes first. *)
Lemma HandlePluginCommand_flag_first_witness :
  HandlePluginCommand samples.os_Environ samples.pluginHandler ["--v=2"; "foo"] false []
  = Returns (Some (Errorf "flags cannot be placed before plugin name: %s" ["--v=2"]),
             []).
Proof.
  exact (proj2 (HandlePluginCommand_flag_first samples.os_Environ
                  samples.pluginHandler ["--v=2"; "foo"] false [])
               "--v=2" ["foo"] eq_refl eq_refl).
Defined.

(** [kubectl foo bar-baz --flag x]: there is no plugin [kubectl-foo-bar_baz],
    and [kubectl-foo] is run on [bar-baz --flag x]. *)
Lemma HandlePluginCommand_longest_witness :
  HandlePluginCommand samples.os_Environ samples.pluginHandler
    ["foo"; "bar-baz"; "--flag"; "x"] false []
  = Returns (None, [["/bin/kubectl-foo"; "bar-baz"; "--flag"; "x"]]).
Proof.
  refine (HandlePluginCommand_longest samples.os_Environ samples.pluginHandler
            ["foo"; "bar-baz"; "--flag"; "x"] [] 1 "/bin/kubectl-foo"
            _ eq_refl _ _).
  - simpl. lia.
  - discriminate.
  - simpl. intros j Hj. assert (j = 2) as -> by lia. reflexivity.
Defined.

(** [kubectl foo bar] with exactMatch: [kubectl-foo-bar] is not found, and
    [kubectl-foo] is not run. *)
Lemma HandlePluginCommand_not_found_witness :
  HandlePluginCommand samples.os_Environ samples.pluginHandler ["foo"; "bar"] true []
  = Returns (None, [])
  /\ Lookup samples.pluginHandler [] "foo" = ("/bin/kubectl-foo", true).
Proof.
  split; [|reflexivity].
  refine (HandlePluginCommand_not_found samples.os_Environ samples.pluginHandler
            ["foo"; "bar"] true [] _ eq_refl).
  discriminate.
Defined.

(** ** The warning writer *)

Section WarningProperties.
Variable opts : WarningWriterOptions.
Variable out0 : list string.

Lemma wrap_int_small (z : Z) : (0 <= z < 2 ^ 63)%Z -> wrap_int z = z.
Proof.
  intros Hz. unfold wrap_int.
  rewrite Z.mod_small; lia.
Qed.

Lemma NewWarningWriter_hasWritten :
  hasWritten opts out0 (NewWarningWriter out0 opts) [].
Proof.
  unfold hasWritten, NewWarningWriter.
  destruct (Deduplicate opts) eqn:Hd; simpl; rewrite app_nil_r;
    repeat split; try congruence; constructor.
Qed.

Lemma HandleWarningHeader_step (w : warningWriter) (msgs : list string)
    (code : Z) (agent message : string) :
  hasWritten opts out0 w msgs ->
  (Z.of_nat (length msgs) + 1 < 2 ^ 63)%Z ->
  let relevant := (code =? 299)%Z && negb (strEmpty message) in
  let added :=
    if relevant && negb (Deduplicate opts && bool_decide (message ∈ msgs))
    then [message] else [] in
  exists w', HandleWarningHeader w code agent message = Returns w'
             /\ hasWritten opts out0 w' (msgs ++ added).
Proof.
  intros (Hout & Hcount & Hopts & Hdedup) Hbound relevant added.
  unfold HandleWarningHeader. subst relevant added.
  destruct (code =? 299)%Z; simpl;
    [|exists w; rewrite app_nil_r; unfold hasWritten; intuition].
  destruct (strEmpty message); simpl;
    [exists w; rewrite app_nil_r; unfold hasWritten; intuition|].
  rewrite Hopts. destruct (Deduplicate opts) eqn:Hd; simpl.
  - destruct (Hdedup eq_refl) as [Hw Hnodup]. rewrite Hw. simpl.
    assert (bool_decide (message ∈ (list_to_set msgs : gset string))
            = bool_decide (message ∈ msgs)) as ->
      by (apply bool_decide_ext, elem_of_list_to_set).
    destruct (bool_decide_reflect (message ∈ msgs)) as [Hin|Hnin]; simpl.
    + exists w. rewrite app_nil_r. unfold hasWritten. intuition.
    + eexists. split; [reflexivity|]. unfold hasWritten. simpl.
      rewrite Hout, Hcount, map_app, length_app, app_assoc. simpl.
      rewrite wrap_int_small by lia.
      repeat split; try lia.
      * f_equal. rewrite list_to_set_app_L. simpl. set_solver.
      * apply NoDup_app. split; [exact Hnodup|].
        split; [|apply NoDup_singleton].
        intros x Hx Hx'. apply list_elem_of_singleton in Hx'. now subst x.
  - eexists. split; [reflexivity|]. unfold hasWritten. simpl.
    rewrite Hout, Hcount, map_app, length_app, app_assoc. simpl.
    rewrite wrap_int_small by lia.
    repeat split; try lia. all: congruence.
Qed.

Lemma printable_cons (h : WarningHeader) (hs : list WarningHeader) :
  printable (h :: hs)
  = (if (wh_Code h =? 299)%Z && negb (strEmpty (wh_Text h))
     then [wh_Text h] else []) ++ printable hs.
Proof.
  unfold printable. simpl.
  now destruct ((wh_Code h =? 299)%Z && negb (strEmpty (wh_Text h))).
Qed.

Lemma handleWarnings_loop_hasWritten (warnings : list WarningHeader) :
  forall (w : warningWriter) (msgs : list string),
    hasWritten opts out0 w msgs ->
    (Z.of_nat (length msgs) + Z.of_nat (length warnings) < 2 ^ 63)%Z ->
    exists w' added,
      handleWarnings_loop w warnings = Returns w'
      /\ hasWritten opts out0 w' (msgs ++ added)
      /\ added `sublist_of` printable warnings
      /\ if Deduplicate opts
         then forall m, m ∈ printable warnings -> m ∈ msgs ++ added
         else added = printable warnings.
Proof.
  induction warnings as [|h hs IH]; intros w msgs Hw Hbound.
  { exists w, []. rewrite app_nil_r. simpl.
    split; [reflexivity|]. split; [exact Hw|]. split; [constructor|].
    destruct (Deduplicate opts); [|reflexivity].
    intros m Hm. unfold printable in Hm. simpl in Hm. inversion Hm. }
  simpl length in Hbound.
  destruct (HandleWarningHeader_step w msgs (wh_Code h) (wh_Agent h) (wh_Text h) Hw)
    as (w1 & Hstep & Hw1); [lia|].
  simpl. rewrite Hstep. clear Hstep.
  set (relevant := (wh_Code h =? 299)%Z && negb (strEmpty (wh_Text h))) in *.
  set (first := if relevant && negb (Deduplicate opts
                                      && bool_decide (wh_Text h ∈ msgs))
                then [wh_Text h] else []) in *.
  assert (length first <= 1) as Hlen
    by (subst first; destruct (relevant && negb _); simpl; lia).
  destruct (IH w1 (msgs ++ first) Hw1) as (w' & added & Hloop & Hw' & Hsub & Hall).
  { rewrite length_app. lia. }
  exists w', (first ++ added). rewrite app_assoc.
  split; [exact Hloop|]. split; [exact Hw'|].
  rewrite printable_cons. fold relevant. split.
  - apply sublist_app; [|exact Hsub].
    subst first. destruct relevant; simpl; [|constructor].
    destruct (negb _); [reflexivity|]. apply sublist_nil_l.
  - destruct (Deduplicate opts) eqn:Hd.
    + intros m Hm. apply elem_of_app in Hm as [Hm|Hm]; [|now apply Hall].
      subst first. destruct relevant; [|inversion Hm].
      apply list_elem_of_singleton in Hm. subst m. simpl.
      destruct (bool_decide_reflect (wh_Text h ∈ msgs)) as [Hin|Hnin]; simpl.
      * rewrite app_nil_r. apply elem_of_app. now left.
      * rewrite !elem_of_app. left. right. apply list_elem_of_singleton.
        reflexivity.
    + subst first. rewrite Hall. simpl. rewrite andb_true_r.
      now destruct relevant.
Qed.

(** A warning writer that does not deduplicate writes one line for each
    warning of code 299 with a message, in the order of the warnings, and
    nothing for the others; its count is the number of these lines. *)
Theorem warningWriter_writes_printable (warnings : list WarningHeader) :
  Deduplicate opts = false ->
  (Z.of_nat (length warnings) < 2 ^ 63)%Z ->
  exists w,
    handleWarnings_loop (NewWarningWriter out0 opts) warnings = Returns w
    /\ ww_out w = out0 ++ map (warningLine opts) (printable warnings)
    /\ WarningCount w = Z.of_nat (length (printable warnings)).
Proof.
  intros Hd Hbound.
  destruct (handleWarnings_loop_hasWritten warnings _ []
              NewWarningWriter_hasWritten)
    as (w & added & Hloop & (Hout & Hcount & _) & _ & Hall); [simpl; lia|].
  rewrite Hd in Hall. subst added. simpl in *. eauto.
Qed.

Lemma handleWarnings_loop_deduplicated (warnings : list WarningHeader) :
  Deduplicate opts = true ->
  forall (w : warningWriter) (msgs : list string),
    hasWritten opts out0 w msgs ->
    (Z.of_nat (length msgs) + Z.of_nat (length warnings) < 2 ^ 63)%Z ->
    exists w',
      handleWarnings_loop w warnings = Returns w'
      /\ hasWritten opts out0 w'
           (msgs ++ filter (fun m => m ∉ msgs)
                           (firstOccurrences (printable warnings))).
Proof.
  intros Hd. induction warnings as [|h hs IH]; intros w msgs Hw Hbound.
  { exists w. simpl. rewrite app_nil_r. auto. }
  simpl length in Hbound.
  destruct (HandleWarningHeader_step w msgs (wh_Code h) (wh_Agent h) (wh_Text h) Hw)
    as (w1 & Hstep & Hw1); [lia|].
  simpl. rewrite Hstep. clear Hstep. rewrite Hd in Hw1. simpl in Hw1.
  rewrite printable_cons.
  destruct ((wh_Code h =? 299)%Z && negb (strEmpty (wh_Text h))); simpl in *.
  - destruct (bool_decide_reflect (wh_Text h ∈ msgs)) as [Hin|Hnin]; simpl in Hw1.
    + rewrite app_nil_r in Hw1.
      destruct (IH w1 msgs Hw1) as (w' & Hloop & Hw'); [lia|].
      exists w'. split; [exact Hloop|].
      rewrite filter_cons_False by (intros Hn; now apply Hn).
      now rewrite filter_notin_absorb.
    + destruct (IH w1 (msgs ++ [wh_Text h]) Hw1) as (w' & Hloop & Hw').
      { rewrite length_app. simpl. lia. }
      exists w'. split; [exact Hloop|].
      rewrite filter_cons_True by exact Hnin.
      rewrite filter_notin_snoc, <- app_assoc in Hw'. exact Hw'.
  - rewrite app_nil_r in Hw1.
    destruct (IH w1 msgs Hw1) as (w' & Hloop & Hw'); [lia|]. eauto.
Qed.

(** A warning writer that deduplicates writes the messages of the
    warnings of code 299 in the order of their first occurrence, each of
    them once: the messages of its lines are without repetition, in the
    order of the warnings, every such message is among them, and its count
    is the number of its lines. *)
Theorem warningWriter_deduplicates (warnings : list WarningHeader) :
  Deduplicate opts = true ->
  (Z.of_nat (length warnings) < 2 ^ 63)%Z ->
  exists w msgs,
    handleWarnings_loop (NewWarningWriter out0 opts) warnings = Returns w
    /\ msgs = firstOccurrences (printable warnings)
    /\ ww_out w = out0 ++ map (warningLine opts) msgs
    /\ WarningCount w = Z.of_nat (length msgs)
    /\ NoDup msgs
    /\ msgs `sublist_of` printable warnings
    /\ forall m, m ∈ printable warnings -> m ∈ msgs.
Proof.
  intros Hd Hbound.
  destruct (handleWarnings_loop_deduplicated warnings Hd _ []
              NewWarningWriter_hasWritten)
    as (w & Hloop & (Hout & Hcount & _)); [simpl; lia|].
  rewrite filter_notin_nil in Hout, Hcount. simpl in Hcount.
  exists w, (firstOccurrences (printable warnings)).
  split; [exact Hloop|]. split; [reflexivity|].
  split; [exact Hout|]. split; [exact Hcount|].
  split; [apply NoDup_firstOccurrences|].
  split; [apply sublist_firstOccurrences|].
  intros m. apply elem_of_firstOccurrences.
Qed.

End WarningProperties.

(** Four warnings, one of another code and one without message: two lines
    are written, the repeated message twice. *)
Lemma warningWriter_writes_printable_witness :
  exists w,
    handleWarnings_loop (NewWarningWriter [] (mkWarningWriterOptions false false))
      [mkWarningHeader 299 "-" "deprecated"; mkWarningHeader 199 "-" "other";
       mkWarningHeader 299 "-" ""; mkWarningHeader 299 "-" "deprecated"]
    = Returns w
    /\ ww_out w = [("Warning: deprecated" ++ nl)%string;
                   ("Warning: deprecated" ++ nl)%string]
    /\ WarningCount w = 2%Z.
Proof.
  exact (warningWriter_writes_printable (mkWarningWriterOptions false false) []
           [mkWarningHeader 299 "-" "deprecated"; mkWarningHeader 199 "-" "other";
            mkWarningHeader 299 "-" ""; mkWarningHeader 299 "-" "deprecated"]
           eq_refl eq_refl).
Defined.

(** Warnings for a writer that deduplicates: the message that comes first
    is written first, and no message is written twice. *)
Lemma warningWriter_deduplicates_witness :
  exists w,
    handleWarnings_loop (NewWarningWriter [] (mkWarningWriterOptions true false))
      [mkWarningHeader 299 "-" "deprecated"; mkWarningHeader 199 "-" "other";
       mkWarningHeader 299 "-" "removed"; mkWarningHeader 299 "-" "";
       mkWarningHeader 299 "-" "deprecated"]
    = Returns w
    /\ ww_out w = [("Warning: deprecated" ++ nl)%string;
                   ("Warning: removed" ++ nl)%string]
    /\ WarningCount w = 2%Z.
Proof.
  destruct (warningWriter_deduplicates (mkWarningWriterOptions true false) []
              [mkWarningHeader 299 "-" "deprecated"; mkWarningHeader 199 "-" "other";
               mkWarningHeader 299 "-" "removed"; mkWarningHeader 299 "-" "";
               mkWarningHeader 299 "-" "deprecated"]
              eq_refl eq_refl)
    as (w & msgs & Hloop & -> & Hout & Hcount & _).
  exists w. split; [exact Hloop|]. split; [exact Hout|exact Hcount].
Defined.
